(** * Curious Snake: the BaseLearner controller of [learners/base_learner.py]

    A shallow embedding of the pool-based active-learning controller and the
    properties its specification states about it.

    - Python objects mutated in place are modelled by explicit state passing:
      a method of [BaseLearner] is a computation [M A] over a [World] that holds
      the learner's attributes ([self]), the tape the [random] module draws
      from, and the [console] (what the module prints, together with the calls
      it makes to its collaborators).
    - Exceptions are outcomes: a computation returns, raises (the world at the
      point of the [raise] is kept), or runs out of fuel (only the [while] loop
      of [active_learn] consumes fuel).
    - The classifier (libsvm) is an external collaborator: a type class.
    - [dataset.py] is not part of the sources at hand; the dataset methods the
      controller calls are modelled from the specification's Example Store
      contract and marked as such.
    - Each feature space owns its own dataset objects (the constructor builds a
      fresh labeled dataset per space), so a dataset is a value held in the
      learner's lists and a mutation of it is an update at its position. *)

From Stdlib Require Import ZArith String PrimFloat.
From stdpp Require Import gmap list strings.

Set Default Proof Using "Type*".

(** ** Examples and datasets *)

(** A feature vector, as libsvm takes it. *)
Definition point : Type := list float.

(** An example, with the attributes the controller reads and writes:
    [inst.id], [inst.point], the label in use [inst.lbl] (possibly assumed),
    the true label [inst.label] and the flag of an assumed label. *)
Record instance := {
  id : Z;
  inst_point : point;
  lbl : Z;
  label : Z;
  has_synthetic_label : bool
}.

(** A dataset: the controller reads [d.instances] as a list. *)
Record dataset := { instances : list instance }.

(** ** Exceptions, console output and calls to collaborators *)

Inductive exn :=
| Exception (msg : string)   (* raise Exception, "..." *)
| IndexError                 (* ls[0] on an empty list, random.choice([]) *)
| ValueError                 (* max([]) *)
| KeyError                   (* d[k] on a missing key *)
| AttributeError.            (* None.append(...) *)

(** The [print] statements of the module, with the values they format. *)
Inductive message :=
| labeled_out_of (labeled_so_far num_examples_to_label : Z)
| models_rebuilt_with (n : nat)
| not_rebuilding_models (n : nat)
| loop_completed
| undersampling_to_minority
| removing_majority_instances (k total : Z)
| undersampling_before_building
| training_models_on (n : nat)
| msg_done.

Inductive event :=
| Printed (m : message)
| Queried (k : Z)                 (* self.query_function(k) was invoked *)
| Trained (n : nat)               (* svm_model(problem, param) on n samples *)
| Cos_computed (key : Z * Z)      (* model.compute_cos_between_examples *)
| Dist_computed (key : Z * Z).    (* model.compute_dist_between_examples *)

(** ** External collaborators *)

(** The classifier: [svm_parameter()], [svm_model(svm_problem(labels, samples),
    param)], [model.predict(x)] and the two pairwise functions of the model. *)
Class Classifier := {
  svm_parameter : Type;
  default_parameter : svm_parameter;
  svm_model : Type;
  svm_train : list Z -> list point -> svm_parameter -> svm_model;
  model_predict : svm_model -> point -> Z;
  compute_dist_between_examples : svm_model -> point -> point -> float;
  compute_cos_between_examples : svm_model -> point -> point -> float
}.

(** The Python runtime: [set_iter votes] is the order in which [list(set(votes))]
    lists the distinct votes. *)
Class Runtime := {
  set_iter : list Z -> list Z
}.

(** Modelled from the spec: the Example Store's split of the examples by
    class (its [count] and [pick_random] take [class=minority|majority]);
    [is_minority inst] tells the class of an example. *)
Class ExampleStore := {
  is_minority : instance -> bool
}.

(** Modelled from the spec: an Example Store whose minority class is the
    positive one ([lbl = 1]) of the spec's binary encoding. *)
Definition positive_is_minority (inst : instance) : bool := (lbl inst =? 1)%Z.

Definition positive_minority : ExampleStore :=
  {| is_minority := positive_is_minority |}.

(** CPython's hash of a small integer, and the slot it takes in a set's table
    of eight entries. *)
Definition py_hash (v : Z) : Z := if (v =? -1)%Z then (-2)%Z else v.
Definition slot (v : Z) : Z := (py_hash v mod 8)%Z.

Fixpoint insert_by_slot (v : Z) (l : list Z) : list Z :=
  match l with
  | [] => [v]
  | x :: l' =>
      if (v =? x)%Z then l
      else if (slot v <? slot x)%Z then v :: l
      else x :: insert_by_slot v l'
  end.

(** [list(set(votes))] in CPython for a handful of small integers whose slots
    do not collide: the distinct values in the order of their slots. *)
Definition cpython_set_iter (votes : list Z) : list Z :=
  foldl (fun acc v => insert_by_slot v acc) [] votes.

Definition cpython : Runtime := {| set_iter := cpython_set_iter |}.

(** A classifier small enough to run: a model remembers the labels it was
    trained on, predicts the first of them, and its pairwise functions give 1
    when it was trained on an odd number of examples and 0 otherwise. *)
Definition toy_score (m : list Z) : float :=
  if Nat.odd (length m) then 1%float else 0%float.

Definition toy_classifier : Classifier :=
  {| svm_parameter := unit;
     default_parameter := tt;
     svm_model := list Z;
     svm_train := fun labels _ _ => labels;
     model_predict := fun m _ => hd 0%Z m;
     compute_dist_between_examples := fun m _ _ => toy_score m;
     compute_cos_between_examples := fun m _ _ => toy_score m |}.

(** ** Modelled from the spec: the dataset methods the controller calls *)

(** Modelled from the spec: [dataset.remove_instances(ids)], the Example Store's
    [remove(identifiers) -> removed items]: the examples whose identifier is
    listed leave the dataset and are returned. *)
Definition remove_instances (ids_to_remove : list Z) (d : dataset)
  : list instance * dataset :=
  (filter (fun inst => id inst ∈ ids_to_remove) (instances d),
   {| instances := filter (fun inst => id inst ∉ ids_to_remove) (instances d) |}).

(** Modelled from the spec: [dataset.add_instances(insts)], the Example Store's
    [insert(items)]. *)
Definition add_instances (insts : list instance) (d : dataset) : dataset :=
  {| instances := instances d ++ insts |}.

(** Modelled from the spec: [dataset.get_instance_ids()], the Example Store's
    [all_identifiers() -> sequence]; a fresh list. *)
Definition get_instance_ids (d : dataset) : list Z := id <$> instances d.

(** Modelled from the spec: [dataset.get_samples_and_labels()], the feature
    vectors and labels a model is trained on. *)
Definition get_samples_and_labels (d : dataset) : list point * list Z :=
  (inst_point <$> instances d, lbl <$> instances d).

(** Modelled from the spec: [dataset.dataset(list(d.instances))], the copy of a
    labeled partition that undersampling works on: a new dataset over a copy
    of the list of examples. *)
Definition copy_dataset (d : dataset) : dataset := {| instances := instances d |}.

(** [ids.remove(x)]: Python's [list.remove], the first occurrence only. *)
Fixpoint list_remove (x : Z) (l : list Z) : list Z :=
  match l with
  | [] => []
  | y :: l' => if (x =? y)%Z then l' else y :: list_remove x l'
  end.

(** [for a, b in zip(xs, ys): ...] where the body mutates [a] and [b] in place:
    the objects past the shorter list are not visited. *)
Fixpoint for_zip {A B} (body : A -> B -> A * B) (xs : list A) (ys : list B)
  : list A * list B :=
  match xs, ys with
  | x :: xs', y :: ys' =>
      let xy := body x y in
      let rest := for_zip body xs' ys' in
      (xy.1 :: rest.1, xy.2 :: rest.2)
  | _, _ => (xs, ys)
  end.

(** [_arg_max(ls, f)] of the module, as written: the index kept at an
    improvement found at position [i+1] is [i]. *)
Definition _arg_max {A} (ls : list A) (f : A -> Z) : exn + nat :=
  match ls with
  | [] => inl IndexError
  | x0 :: _ =>
      inr (fold_left
             (fun '(return_index, max_val) i =>
                match ls !! (i + 1)%nat with
                | Some y =>
                    if (f y >? max_val)%Z then (i, f y) else (return_index, max_val)
                | None => (return_index, max_val)
                end)
             (seq 0 (length ls - 1)) (0%nat, f x0)).1
  end.

(** [votes.count(x)]. *)
Definition count (votes : list Z) (x : Z) : Z :=
  Z.of_nat (length (filter (fun v => v = x) votes)).

(** [max(l)] on a list of labels. *)
Definition py_max (l : list Z) : exn + Z :=
  match l with
  | [] => inl ValueError
  | x :: l' => inr (fold_left Z.max l' x)
  end.

(** ** The learner and its world *)

Section Learner.
Context {classifier : Classifier} {runtime : Runtime} {store : ExampleStore}.

(** The attributes [__init__] sets. ([k_hash] is never read or written by the
    module and is left out; the two method-valued attributes, [query_function]
    and [predict], are the fields of [Learner] below.) *)
Record BaseLearner := {
  params : list svm_parameter;
  unlabeled_datasets : list dataset;
  labeled_datasets : list dataset;
  models : option (list svm_model);   (* None until given or rebuilt *)
  div_hash : gmap (Z * Z) float;
  dist_hash : gmap (Z * Z) float;
  name : string
}.

Record World := {
  self : BaseLearner;
  random : list nat;       (* what the random module will draw *)
  console : list event
}.

Inductive outcome (A : Type) :=
| Return (a : A) (w : World)
| Raise (e : exn) (w : World)
| OutOfFuel.
Arguments Return {A} a w.
Arguments Raise {A} e w.
Arguments OutOfFuel {A}.

Definition M (A : Type) : Type := World -> outcome A.

Definition ret {A} (a : A) : M A := fun w => Return a w.
Definition raise {A} (e : exn) : M A := fun w => Raise e w.
Definition bind {A B} (c : M A) (k : A -> M B) : M B :=
  fun w =>
    match c w with
    | Return a w' => k a w'
    | Raise e w' => Raise e w'
    | OutOfFuel => OutOfFuel
    end.

Notation "x <- c1 ;; c2" := (bind c1 (fun x => c2))
  (at level 100, c1 at next level, right associativity).
Notation "c1 ;; c2" := (bind c1 (fun _ => c2))
  (at level 100, right associativity).

Definition get_self : M BaseLearner := fun w => Return (self w) w.

Definition modify_self (f : BaseLearner -> BaseLearner) : M unit :=
  fun w => Return tt {| self := f (self w); random := random w; console := console w |}.

Definition emit (e : event) : M unit :=
  fun w => Return tt {| self := self w; random := random w; console := console w ++ [e] |}.

Definition print (m : message) : M unit := emit (Printed m).

(** [e] of an [exn + A] computed without the world. *)
Definition lift {A} (r : exn + A) : M A :=
  match r with inl e => raise e | inr a => ret a end.

(** [ls[0]]. *)
Definition index0 {A} (ls : list A) : M A :=
  match ls with [] => raise IndexError | x :: _ => ret x end.

(** [for x in xs: body(x)]. *)
Fixpoint for_each {A} (xs : list A) (body : A -> M unit) : M unit :=
  match xs with
  | [] => ret tt
  | x :: xs' => body x ;; for_each xs' body
  end.

(** Attribute updates. *)
Definition with_models (ms : option (list svm_model)) (s : BaseLearner) :=
  {| params := params s; unlabeled_datasets := unlabeled_datasets s;
     labeled_datasets := labeled_datasets s; models := ms;
     div_hash := div_hash s; dist_hash := dist_hash s; name := name s |}.

Definition with_datasets (us ls : list dataset) (s : BaseLearner) :=
  {| params := params s; unlabeled_datasets := us; labeled_datasets := ls;
     models := models s; div_hash := div_hash s; dist_hash := dist_hash s;
     name := name s |}.

Definition with_div_hash (h : gmap (Z * Z) float) (s : BaseLearner) :=
  {| params := params s; unlabeled_datasets := unlabeled_datasets s;
     labeled_datasets := labeled_datasets s; models := models s;
     div_hash := h; dist_hash := dist_hash s; name := name s |}.

Definition with_dist_hash (h : gmap (Z * Z) float) (s : BaseLearner) :=
  {| params := params s; unlabeled_datasets := unlabeled_datasets s;
     labeled_datasets := labeled_datasets s; models := models s;
     div_hash := div_hash s; dist_hash := h; name := name s |}.

(** ** Random draws *)

(** [random.choice(l)]: an element of [l] at the position the tape gives
    (position 0 once the tape is used up); [IndexError] on an empty list. *)
Definition random_choice (l : list Z) : M Z :=
  fun w =>
    match l with
    | [] => Raise IndexError w
    | x0 :: _ =>
        let r := hd 0%nat (random w) in
        Return (nth (r mod length l) l x0)
               {| self := self w; random := tl (random w); console := console w |}
    end.

(** The drawing loop of [get_random_unlabeled_ids]:
    [for i in range(k): x = random.choice(ids); ids.remove(x); selected.append(x)]. *)
Fixpoint draw (k : nat) (ids selected_ids : list Z) : M (list Z) :=
  match k with
  | O => ret selected_ids
  | S k' =>
      random_id <- random_choice ids ;;
      draw k' (list_remove random_id ids) (selected_ids ++ [random_id])
  end.

(** ** Modelled from the spec: class counts and random picks of a dataset *)

(** Modelled from the spec: the identifiers of the minority-class examples of
    a dataset (the Example Store splits its examples by class). *)
Definition minority_ids (d : dataset) : list Z :=
  id <$> filter (fun inst => is_minority inst = true) (instances d).

(** Modelled from the spec: the identifiers of the majority-class examples. *)
Definition majority_ids (d : dataset) : list Z :=
  id <$> filter (fun inst => is_minority inst = false) (instances d).

(** Modelled from the spec: [dataset.number_of_minority_examples()], the
    Example Store's [count(class=minority) -> integer]. *)
Definition number_of_minority_examples (d : dataset) : Z :=
  Z.of_nat (length (minority_ids d)).

(** Modelled from the spec: [dataset.number_of_majority_examples()], the
    Example Store's [count(class=majority) -> integer]. *)
Definition number_of_majority_examples (d : dataset) : Z :=
  Z.of_nat (length (majority_ids d)).

(** Modelled from the spec: [dataset.undersample(k)] removes [k] majority-class
    examples chosen at random and returns them; the identifiers are drawn the
    way [get_random_unlabeled_ids] draws them and then removed. *)
Definition undersample (k : Z) (d : dataset) : M (list instance * dataset) :=
  remove_these <- draw (Z.to_nat k) (majority_ids d) [] ;;
  ret (remove_instances remove_these d).

(** Modelled from the spec: [dataset.pick_random_minority_instances(k)], the
    Example Store's [pick_random(k, class=minority) -> identifiers]: [k]
    identifiers of minority examples drawn without replacement; the dataset
    is not changed. *)
Definition pick_random_minority_instances (k : Z) (d : dataset) : M (list Z) :=
  draw (Z.to_nat k) (minority_ids d) [].

(** Modelled from the spec: [dataset.pick_random_majority_instances(k)], the
    Example Store's [pick_random(k, class=majority) -> identifiers]. *)
Definition pick_random_majority_instances (k : Z) (d : dataset) : M (list Z) :=
  draw (Z.to_nat k) (majority_ids d) [].

(** ** The methods of [BaseLearner] *)

(** [base_q_function(k)]: the query function a new learner starts with. *)
Definition base_q_function (k : Z) : M (option (list Z)) :=
  raise (Exception "no query function provided!").

(** The loop of [label_instances_in_all_datasets], on the learner's attributes:
    [labeled_dataset.add_instances(unlabeled_dataset.remove_instances(inst_ids))]
    for each feature space. *)
Definition move_to_labeled (inst_ids : list Z) (s : BaseLearner) : BaseLearner :=
  let moved :=
    for_zip (fun unlabeled_dataset labeled_dataset =>
               let removed := remove_instances inst_ids unlabeled_dataset in
               (removed.2, add_instances removed.1 labeled_dataset))
            (unlabeled_datasets s) (labeled_datasets s) in
  with_datasets moved.1 moved.2 s.

(** [label_instances_in_all_datasets(inst_ids)]. *)
Definition label_instances_in_all_datasets (inst_ids : list Z) : M unit :=
  modify_self (move_to_labeled inst_ids).

(** [label_all_data()]. *)
Definition label_all_data : M unit :=
  s <- get_self ;;
  d0 <- index0 (unlabeled_datasets s) ;;
  let inst_ids := id <$> instances d0 in
  label_instances_in_all_datasets inst_ids.

(** [majority_predict(X)]. *)
Definition majority_predict (X : list point) : M Z :=
  s <- get_self ;;
  match models s with
  | Some (m0 :: ms) =>
      let votes := (fun mx => model_predict mx.1 mx.2) <$> zip (m0 :: ms) X in
      let vote_set := set_iter votes in
      let count_in_list := fun x => count votes x in
      i <- lift (_arg_max vote_set count_in_list) ;;
      match vote_set !! i with
      | Some v => ret v
      | None => raise IndexError
      end
  | _ => raise (Exception "No models have been initialized.")
  end.

(** [cautious_predict(X)]. *)
Definition cautious_predict (X : list point) : M Z :=
  s <- get_self ;;
  match models s with
  | Some (m0 :: ms) =>
      lift (py_max ((fun mx => model_predict mx.1 mx.2) <$> zip (m0 :: ms) X))
  | _ => raise (Exception "No models have been initialized.")
  end.

(** [pick_balanced_initial_training_set(k)]. *)
Definition pick_balanced_initial_training_set (k : Z) : M (list Z) :=
  s <- get_self ;;
  d0 <- index0 (unlabeled_datasets s) ;;
  minority_ids_to_label <- pick_random_minority_instances k d0 ;;
  majority_ids_to_label <- pick_random_majority_instances k d0 ;;
  let all_ids_to_label := minority_ids_to_label ++ majority_ids_to_label in
  label_instances_in_all_datasets all_ids_to_label ;;
  ret all_ids_to_label.

(** [not k] for the optional removal count: [None] and [0] are both falsy. *)
Definition falsy (k : option Z) : bool :=
  match k with None => true | Some k' => (k' =? 0)%Z end.

(** [undersample_labeled_datasets(k=None)]. *)
Definition undersample_labeled_datasets (k : option Z) : M (list dataset) :=
  s <- get_self ;;
  match labeled_datasets s with
  | d0 :: _ =>
      if (length (instances d0) =? 0)%nat
      then raise (Exception "No labeled data has been provided!")
      else
        k <- (if falsy k
              then print undersampling_to_minority ;;
                   ret (number_of_majority_examples d0
                        - number_of_minority_examples d0)%Z
              else ret (default 0%Z k)) ;;
        let copied_datasets := copy_dataset <$> labeled_datasets s in
        if ((k <? number_of_majority_examples d0) && (k >? 0))%Z
        then
          print (removing_majority_instances k (number_of_majority_examples d0)) ;;
          match copied_datasets with
          | c0 :: others =>
              removed <- undersample k c0 ;;
              let removed_instance_nums := id <$> removed.1 in
              ret (removed.2
                   :: ((fun labeled_dataset =>
                          (remove_instances removed_instance_nums labeled_dataset).2)
                       <$> others))
          | [] => raise IndexError
          end
        else ret copied_datasets
  | [] => raise (Exception "No labeled data has been provided!")
  end.

(** [get_random_unlabeled_ids(k)]. *)
Definition get_random_unlabeled_ids (k : Z) : M (list Z) :=
  s <- get_self ;;
  d0 <- index0 (unlabeled_datasets s) ;;
  draw (Z.to_nat k) (get_instance_ids d0) [].

(** [self.models.append(m)]. *)
Definition models_append (m : svm_model) : M unit :=
  s <- get_self ;;
  match models s with
  | Some ms => modify_self (with_models (Some (ms ++ [m])))
  | None => raise AttributeError
  end.

(** [rebuild_models(undersample_first=False)]. *)
Definition rebuild_models (undersample_first : bool) : M unit :=
  datasets <- (if undersample_first
               then print undersampling_before_building ;;
                    ds <- undersample_labeled_datasets None ;;
                    print msg_done ;;
                    ret ds
               else s <- get_self ;; ret (labeled_datasets s)) ;;
  d0 <- index0 datasets ;;
  print (training_models_on (length (instances d0))) ;;
  modify_self (with_models (Some [])) ;;
  s <- get_self ;;
  for_each (zip datasets (params s))
    (fun dp =>
       let sl := get_samples_and_labels dp.1 in
       emit (Trained (length sl.1)) ;;
       models_append (svm_train sl.2 sl.1 dp.2)) ;;
  print msg_done.

(** [len(self.labeled_datasets[0].instances)], as the loop prints it. *)
Definition number_labeled : M nat :=
  s <- get_self ;;
  d0 <- index0 (labeled_datasets s) ;;
  ret (length (instances d0)).

(** [self.query_function(k)], seen from the controller: the strategy may read
    and change the learner and draw random numbers; what it prints is its own
    business and is not part of the controller's console, which only records
    that the strategy was invoked. *)
Definition call_query (query_function : Z -> M (option (list Z))) (k : Z)
  : M (option (list Z)) :=
  fun w =>
    let seen w' :=
      {| self := self w'; random := random w';
         console := console w ++ [Queried k] |} in
    match query_function k w with
    | Return r w' => Return r (seen w')
    | Raise e w' => Raise e (seen w')
    | OutOfFuel => OutOfFuel
    end.

(** What the controller does with the strategy's answer: a non-empty list of
    identifiers is labeled; an empty list or [None] is left alone. *)
Definition label_selected (example_ids_to_label : option (list Z)) : M unit :=
  match example_ids_to_label with
  | Some (i :: ids) => label_instances_in_all_datasets (i :: ids)
  | _ => ret tt
  end.

(** One iteration of the [while] loop of [active_learn], up to the increment
    of [labeled_so_far]. *)
Definition active_learn_iteration
    (query_function : Z -> M (option (list Z)))
    (labeled_so_far num_examples_to_label num_to_label_at_each_iteration : Z)
    (rebuild_models_at_each_iter : bool) : M unit :=
  print (labeled_out_of labeled_so_far num_examples_to_label) ;;
  example_ids_to_label <-
    call_query query_function num_to_label_at_each_iteration ;;
  label_selected example_ids_to_label ;;
  if rebuild_models_at_each_iter
  then rebuild_models false ;;
       n <- number_labeled ;;
       print (models_rebuilt_with n)
  else n <- number_labeled ;;
       print (not_rebuilding_models n).

(** The [while] loop of [active_learn]; each iteration takes one unit of fuel. *)
Fixpoint active_learn_loop (fuel : nat)
    (query_function : Z -> M (option (list Z)))
    (labeled_so_far num_examples_to_label num_to_label_at_each_iteration : Z)
    (rebuild_models_at_each_iter : bool) : M unit :=
  if (labeled_so_far <? num_examples_to_label)%Z then
    match fuel with
    | O => fun _ => OutOfFuel
    | S fuel' =>
        active_learn_iteration query_function labeled_so_far
          num_examples_to_label num_to_label_at_each_iteration
          rebuild_models_at_each_iter ;;
        active_learn_loop fuel' query_function
          (labeled_so_far + num_to_label_at_each_iteration)%Z
          num_examples_to_label num_to_label_at_each_iteration
          rebuild_models_at_each_iter
    end
  else ret tt.

(** [active_learn(num_examples_to_label, num_to_label_at_each_iteration=5,
    rebuild_models_at_each_iter=True)]. *)
Definition active_learn (fuel : nat)
    (query_function : Z -> M (option (list Z)))
    (num_examples_to_label num_to_label_at_each_iteration : Z)
    (rebuild_models_at_each_iter : bool) : M unit :=
  active_learn_loop fuel query_function 0%Z num_examples_to_label
    num_to_label_at_each_iteration rebuild_models_at_each_iter ;;
  rebuild_models false ;;
  print loop_completed.

(** The assignments of [unlabel_instances] to the example at [inst_index]:
    [lbl] goes back to the true label and the flag is cleared. *)
Definition restore_label (inst : instance) : instance :=
  {| id := id inst; inst_point := inst_point inst; lbl := label inst;
     label := label inst; has_synthetic_label := false |}.

(** The inner loop of [unlabel_instances],
    [for unlabeled_dataset, labeled_dataset in zip(...)], at one index: the
    labeled datasets as mutated so far, and whether the index was in range in
    every dataset visited (if not, the loop stopped there with [IndexError]). *)
Fixpoint restore_at (inst_index : nat) (unlabeled labeled : list dataset)
  : list dataset * bool :=
  match unlabeled, labeled with
  | _ :: us, l :: ls =>
      match instances l !! inst_index with
      | Some inst =>
          let rest := restore_at inst_index us ls in
          ({| instances := <[inst_index := restore_label inst]> (instances l) |}
             :: rest.1, rest.2)
      | None => (labeled, false)
      end
  | _, _ => (labeled, true)
  end.

(** The second loop of [unlabel_instances], on the learner's attributes:
    [unlabeled_dataset.add_instances(labeled_dataset.remove_instances(inst_ids))]
    for each feature space. *)
Definition move_to_unlabeled (inst_ids : list Z) (s : BaseLearner) : BaseLearner :=
  let moved :=
    for_zip (fun unlabeled_dataset labeled_dataset =>
               let removed := remove_instances inst_ids labeled_dataset in
               (add_instances removed.1 unlabeled_dataset, removed.2))
            (unlabeled_datasets s) (labeled_datasets s) in
  with_datasets moved.1 moved.2 s.

(** [unlabel_instances(inst_ids)]. *)
Definition unlabel_instances (inst_ids : list Z) : M unit :=
  s <- get_self ;;
  d0 <- index0 (labeled_datasets s) ;;
  for_each (seq 0 (length (instances d0)))
    (fun inst_index =>
       s <- get_self ;;
       d0 <- index0 (labeled_datasets s) ;;
       match instances d0 !! inst_index with
       | None => raise IndexError
       | Some inst =>
           if bool_decide (id inst ∈ inst_ids)
           then
             let restored :=
               restore_at inst_index (unlabeled_datasets s) (labeled_datasets s) in
             modify_self (with_datasets (unlabeled_datasets s) restored.1) ;;
             if restored.2 then ret tt else raise IndexError
           else ret tt
       end) ;;
  modify_self (move_to_unlabeled inst_ids).

(** [key in d]. *)
Definition has_key (h : gmap (Z * Z) float) (key : Z * Z) : bool :=
  match h !! key with Some _ => true | None => false end.

(** [d[key]]. *)
Definition hash_get (h : gmap (Z * Z) float) (key : Z * Z) : M float :=
  match h !! key with Some v => ret v | None => raise KeyError end.

(** [for y in ys: acc = body(acc, y)]. *)
Fixpoint fold_each {A S} (ys : list A) (acc : S) (body : S -> A -> M S) : M S :=
  match ys with
  | [] => ret acc
  | y :: ys' => acc' <- body acc y ;; fold_each ys' acc' body
  end.

(** [not min_dist]: [None] and zero are falsy. *)
Definition no_min_dist (min_dist : option float) : bool :=
  match min_dist with None => true | Some d => PrimFloat.eqb d 0%float end.

(** [_get_dist_from_l(model, data, x)]. *)
Definition _get_dist_from_l (model : svm_model) (data : dataset) (x : instance)
  : M (option float) :=
  fold_each (instances data) None
    (fun min_dist y =>
       s <- get_self ;;
       (if has_key (dist_hash s) (id x, id y)
        then ret tt
        else emit (Dist_computed (id x, id y)) ;;
             modify_self (fun s =>
               with_dist_hash
                 (<[(id x, id y) :=
                      compute_dist_between_examples model (inst_point x) (inst_point y)]>
                    (dist_hash s)) s)) ;;
       s <- get_self ;;
       d <- hash_get (dist_hash s) (id x, id y) ;;
       if no_min_dist min_dist || PrimFloat.ltb d (default 0%float min_dist)
       then ret (Some d)
       else ret min_dist).

(** The body of the loop of [_compute_div], for one [y] of the reference set. *)
Definition _compute_div_step (model : svm_model) (x : instance)
    (sum : float) (y : instance) : M float :=
  s <- get_self ;;
  (if has_key (div_hash s) (id x, id y)
   then ret tt
   else emit (Cos_computed (id x, id y)) ;;
        modify_self (fun s =>
          with_div_hash
            (<[(id x, id y) :=
                 compute_cos_between_examples model (inst_point x) (inst_point y)]>
               (div_hash s)) s)) ;;
  s <- get_self ;;
  v <- hash_get (div_hash s) (id x, id y) ;;
  ret (sum + v)%float.

(** [_compute_div(model, data, x)]. *)
Definition _compute_div (model : svm_model) (data : dataset) (x : instance)
  : M float :=
  fold_each (instances data) 0%float (_compute_div_step model x).

(** [_compute_cos(model, x, y)]. *)
Definition _compute_cos (model : svm_model) (x y : instance) : M float :=
  s <- get_self ;;
  (if has_key (div_hash s) (id x, id y)
   then ret tt
   else emit (Cos_computed (id x, id y)) ;;
        modify_self (fun s =>
          with_div_hash
            (<[(id x, id y) :=
                 compute_cos_between_examples model (inst_point x) (inst_point y)]>
               (div_hash s)) s)) ;;
  s <- get_self ;;
  hash_get (div_hash s) (id x, id y).

(** A learner object: its attributes and the two attributes that hold bound
    methods and may be reassigned by a subclass or a caller. *)
Record Learner := {
  attrs : BaseLearner;
  query_function : Z -> M (option (list Z));
  predict : list point -> M Z
}.

(** [BaseLearner(unlabeled_datasets, models=None)]: the constructor, for a list
    of datasets. (The method [predict] of the class, which calls
    [cautious_predict], is hidden by the attribute the constructor sets.) *)
Definition __init__ (unlabeled_datasets : list dataset)
    (models : option (list svm_model)) : Learner :=
  {| attrs :=
       {| params := (fun _ => default_parameter) <$> unlabeled_datasets;
          unlabeled_datasets := unlabeled_datasets;
          labeled_datasets := (fun _ => {| instances := [] |}) <$> unlabeled_datasets;
          models := models;
          div_hash := ∅;
          dist_hash := ∅;
          name := "Base" |};
     query_function := base_q_function;
     predict := majority_predict |}.

(** A world in which a learner just built is about to be used. *)
Definition world_of (l : Learner) (tape : list nat) : World :=
  {| self := attrs l; random := tape; console := [] |}.

End Learner.

Arguments Return {_ _} a w.
Arguments Raise {_ _} e w.
Arguments OutOfFuel {_ _}.

Notation "x <- c1 ;; c2" := (bind c1 (fun x => c2))
  (at level 100, c1 at next level, right associativity).
Notation "c1 ;; c2" := (bind c1 (fun _ => c2))
  (at level 100, right associativity).

(** ** Vocabulary of the properties *)

#[export] Instance message_eq_dec : EqDecision message.
Proof. solve_decision. Defined.

#[export] Instance event_eq_dec : EqDecision event.
Proof. solve_decision. Defined.

(** The batch sizes the strategy was asked for, in order. *)
Definition queries (log : list event) : list Z :=
  omap (fun e => match e with Queried k => Some k | _ => None end) log.

(** The values of [labeled_so_far] the loop printed, in order. *)
Definition counters (log : list event) : list Z :=
  omap (fun e => match e with
                 | Printed (labeled_out_of c _) => Some c
                 | _ => None
                 end) log.

(** How many times [rebuild_models] announced a training. *)
Definition announces_training (e : event) : bool :=
  match e with Printed (training_models_on _) => true | _ => false end.

Definition rebuilds (log : list event) : nat :=
  length (filter (fun e => announces_training e = true) log).

(** How many times the model's similarity was computed for a pair. *)
Definition cos_calls (key : Z * Z) (log : list event) : nat :=
  length (filter (fun e => e = Cos_computed key) log).

(** The sum [_compute_div] forms when every pair is read from the cache [h]. *)
Definition cached_sum (h : gmap (Z * Z) float) (x : instance)
    (ys : list instance) (acc : float) : float :=
  foldl (fun a y => (a + default 0%float (h !! (id x, id y)))%float) acc ys.

(** The ceiling of [n / b] for a positive [b]. *)
Definition ceil_div (n b : Z) : Z := ((n + b - 1) / b)%Z.

(** The iterations the loop of [active_learn] still has to make when its
    counter stands at [c]. *)
Definition iterations (n b c : Z) : nat := Z.to_nat (ceil_div (n - c) b).

(** The set of identifiers of a dataset. *)
Definition id_set (d : dataset) : gset Z := list_to_set (get_instance_ids d).

Section Vocabulary.
Context {classifier : Classifier} {runtime : Runtime} {store : ExampleStore}.

(** The models [rebuild_models] builds: one per feature space, from that
    space's dataset and parameters. *)
Definition train_all (datasets : list dataset) (ps : list svm_parameter)
  : list svm_model :=
  (fun dp => svm_train (lbl <$> instances dp.1) (inst_point <$> instances dp.1) dp.2)
    <$> zip datasets ps.

(** The learner after the controller has dealt with the strategy's answer. *)
Definition after_selection (r : option (list Z)) (s : BaseLearner) : BaseLearner :=
  match r with
  | Some (i :: ids) => move_to_labeled (i :: ids) s
  | _ => s
  end.

(** The events a rebuild over [datasets] adds to the console. *)
Definition rebuild_events (datasets : list dataset) (ps : list svm_parameter)
  : list event :=
  match datasets with
  | [] => []
  | d0 :: _ =>
      [Printed (training_models_on (length (instances d0)))]
      ++ ((fun dp : dataset * svm_parameter => Trained (length (instances dp.1)))
          <$> zip datasets ps)
      ++ [Printed msg_done]
  end.

(** The learner after a rebuild over its labeled partitions. *)
Definition rebuilt (s : BaseLearner) : BaseLearner :=
  with_models (Some (train_all (labeled_datasets s) (params s))) s.

(** The error of both aggregation policies. *)
Definition no_models_error : exn := Exception "No models have been initialized.".

Definition no_models (s : BaseLearner) : Prop :=
  models s = None \/ models s = Some [].

(** Lockstep: every feature space has both partitions, and all spaces hold the
    same identifier set in their labeled partitions and in their unlabeled
    partitions. *)
Definition lockstep (s : BaseLearner) : Prop :=
  length (unlabeled_datasets s) = length (labeled_datasets s)
  /\ (forall di dj, di ∈ labeled_datasets s -> dj ∈ labeled_datasets s ->
                    id_set di = id_set dj)
  /\ (forall di dj, di ∈ unlabeled_datasets s -> dj ∈ unlabeled_datasets s ->
                    id_set di = id_set dj).

(** The removal count in use: the caller's, or majority minus minority of
    feature space 0 when the caller's is falsy. *)
Definition removal_count (k : option Z) (d0 : dataset) : Z :=
  if falsy k
  then (number_of_majority_examples d0 - number_of_minority_examples d0)%Z
  else default 0%Z k.

(** [n] examples went from the unlabeled partition [u] of a feature space to
    its labeled partition [l], giving [u'] and [l']. *)
Definition space_moved (n : nat) (ul ul' : dataset * dataset) : Prop :=
  exists m,
    length m = n
    /\ instances ul'.2 = instances ul.2 ++ m
    /\ instances ul.1 ≡ₚ m ++ instances ul'.1.

(** [n] examples went from unlabeled to labeled in every feature space. *)
Definition moved (n : nat) (s s' : BaseLearner) : Prop :=
  length (unlabeled_datasets s') = length (unlabeled_datasets s)
  /\ length (labeled_datasets s') = length (labeled_datasets s)
  /\ Forall2 (space_moved n)
        (zip (unlabeled_datasets s) (labeled_datasets s))
        (zip (unlabeled_datasets s') (labeled_datasets s')).

(** A pool the loop can draw from: at least one feature space, both partitions
    for each, identifiers unique within an unlabeled partition, and the same
    identifiers in every unlabeled partition. *)
Definition pool_ok (s : BaseLearner) : Prop :=
  length (unlabeled_datasets s) = length (labeled_datasets s)
  /\ unlabeled_datasets s <> []
  /\ Forall (fun u => NoDup (get_instance_ids u)) (unlabeled_datasets s)
  /\ (forall u u', u ∈ unlabeled_datasets s -> u' ∈ unlabeled_datasets s ->
                   id_set u = id_set u').

(** The identifiers of the pool, and how many examples it holds. *)
Definition pool_ids (s : BaseLearner) : gset Z :=
  match unlabeled_datasets s with u0 :: _ => id_set u0 | [] => ∅ end.

Definition pool_size (s : BaseLearner) : Z :=
  match unlabeled_datasets s with
  | u0 :: _ => Z.of_nat (length (instances u0))
  | [] => 0%Z
  end.

(** A strategy that, asked for [b] identifiers of a pool holding at least
    [b], returns exactly [b] distinct identifiers of the pool and leaves the
    partitions alone. *)
Definition selects (q : Z -> M (option (list Z))) (b : Z) : Prop :=
  forall w,
    pool_ok (self w) -> (b <= pool_size (self w))%Z ->
    exists ids w',
      q b w = Return (Some ids) w'
      /\ unlabeled_datasets (self w') = unlabeled_datasets (self w)
      /\ labeled_datasets (self w') = labeled_datasets (self w)
      /\ Z.of_nat (length ids) = b
      /\ NoDup ids
      /\ (forall i, i ∈ ids -> i ∈ pool_ids (self w)).

(** A feature space holds the examples of feature space 0: identifiers are
    unique in it, they are those of space 0, and an identifier has the same
    class in both. *)
Definition same_examples (d0 d : dataset) : Prop :=
  NoDup (get_instance_ids d)
  /\ id_set d = id_set d0
  /\ (forall a b, a ∈ instances d0 -> b ∈ instances d -> id a = id b ->
                  is_minority a = is_minority b).

(** What undersampling by the identifiers [removed_ids] makes of a labeled
    partition [d]: the copy [c] is [d] without the examples so identified,
    which are all of the majority class and as many as the identifiers, and
    it is left with [m] examples of each class. *)
Definition undersampled (removed_ids : list Z) (m : Z) (d c : dataset) : Prop :=
  instances c = filter (fun inst => id inst ∉ removed_ids) (instances d)
  /\ (forall inst, inst ∈ instances d -> id inst ∈ removed_ids ->
                   is_minority inst = false)
  /\ length (instances d) = (length (instances c) + length removed_ids)%nat
  /\ number_of_majority_examples c = m
  /\ number_of_minority_examples c = m.

(** A computation terminates, and relates the world it ends in (returning or
    raising) to the world it started from. *)
Definition preserves {A} (R : World -> World -> Prop) (c : M A) : Prop :=
  forall w,
    match c w with
    | Return _ w' | Raise _ w' => R w w'
    | OutOfFuel => False
    end.

(** The relations used with [preserves]. *)
Definition same_caches (w w' : World) : Prop :=
  div_hash (self w') = div_hash (self w) /\ dist_hash (self w') = dist_hash (self w).

Definition same_self (w w' : World) : Prop := self w' = self w.

Definition keeps_lockstep (w w' : World) : Prop :=
  lockstep (self w) -> lockstep (self w').

Definition same_partitions (w w' : World) : Prop :=
  unlabeled_datasets (self w') = unlabeled_datasets (self w)
  /\ labeled_datasets (self w') = labeled_datasets (self w).

(** The same, for a computation that may run out of fuel. *)
Definition preserves_if_ends {A} (R : World -> World -> Prop) (c : M A) : Prop :=
  forall w,
    match c w with
    | Return _ w' | Raise _ w' => R w w'
    | OutOfFuel => True
    end.

(** The partition-mutating operations of the controller, as calls. *)
Inductive operation :=
| Label_instances_in_all_datasets (inst_ids : list Z)
| Label_all_data
| Unlabel_instances (inst_ids : list Z)
| Active_learn (fuel : nat) (query_function : Z -> M (option (list Z)))
    (num_examples_to_label num_to_label_at_each_iteration : Z)
    (rebuild_models_at_each_iter : bool)
| Pick_balanced_initial_training_set (k : Z).

Definition perform (op : operation) : M unit :=
  match op with
  | Label_instances_in_all_datasets inst_ids =>
      label_instances_in_all_datasets inst_ids
  | Label_all_data => label_all_data
  | Unlabel_instances inst_ids => unlabel_instances inst_ids
  | Active_learn fuel q n b flag => active_learn fuel q n b flag
  | Pick_balanced_initial_training_set k =>
      pick_balanced_initial_training_set k ;; ret tt
  end.

(** A strategy that keeps the feature spaces in lockstep (one that only
    selects, or one that labels by itself in every feature space alike). *)
Definition lockstep_strategy (q : Z -> M (option (list Z))) : Prop :=
  forall k, preserves_if_ends keeps_lockstep (q k).

Definition admissible (op : operation) : Prop :=
  match op with
  | Active_learn _ q _ _ _ => lockstep_strategy q
  | _ => True
  end.

(** The world an operation leaves, whether it returned or raised. *)
Definition world_after {A} (o : outcome A) : option World :=
  match o with
  | Return _ w | Raise _ w => Some w
  | OutOfFuel => None
  end.

(** The worlds reachable from [w0] by the partition-mutating operations. *)
Inductive reachable (w0 : World) : World -> Prop :=
| reachable_start : reachable w0 w0
| reachable_step w w' op :
    reachable w0 w -> admissible op ->
    world_after (perform op w) = Some w' ->
    reachable w0 w'.

(** Two strategies to run the loop with: one that selects the first [k]
    identifiers of feature space 0's unlabeled partition, and a void one that
    selects nothing. *)
Definition take_first (k : Z) : M (option (list Z)) :=
  s <- get_self ;;
  d0 <- index0 (unlabeled_datasets s) ;;
  ret (Some (take (Z.to_nat k) (get_instance_ids d0))).

Definition void_strategy (k : Z) : M (option (list Z)) := ret None.

End Vocabulary.


(** ** Vocabulary of the further properties *)

(** How many times the model's distance was computed for a pair. *)
Definition dist_calls (key : Z * Z) (log : list event) : nat :=
  length (filter (fun e => e = Dist_computed key) log).

Section MoreVocabulary.
Context {classifier : Classifier} {runtime : Runtime} {store : ExampleStore}.

(** [j] is the first position of [ls] at which [f] is maximal. *)
Definition first_arg_max {A} (f : A -> Z) (ls : list A) (j : nat) : Prop :=
  exists xj,
    ls !! j = Some xj
    /\ (forall i x, ls !! i = Some x -> (f x <= f xj)%Z)
    /\ (forall i x, (i < j)%nat -> ls !! i = Some x -> (f x < f xj)%Z).

(** The votes of the models on the feature vectors of an example:
    [[m.predict(x) for m, x in zip(models, X)]]. *)
Definition predictions (ms : list svm_model) (X : list point) : list Z :=
  (fun mx => model_predict mx.1 mx.2) <$> zip ms X.

(** A vote list in the binary encoding: every label is +1 or -1. *)
Definition binary (votes : list Z) : Prop :=
  Forall (fun v => v = 1%Z \/ v = (-1)%Z) votes.

(** What CPython lists for a set of binary votes: +1 first, then -1. *)
Definition binary_set (has_pos has_neg : bool) : list Z :=
  (if has_pos then [1%Z] else []) ++ (if has_neg then [(-1)%Z] else []).

(** The body of the loop of [_get_dist_from_l], for one [y] of the reference
    set. *)
Definition _get_dist_from_l_step (model : svm_model) (x : instance)
    (min_dist : option float) (y : instance) : M (option float) :=
  s <- get_self ;;
  (if has_key (dist_hash s) (id x, id y)
   then ret tt
   else emit (Dist_computed (id x, id y)) ;;
        modify_self (fun s =>
          with_dist_hash
            (<[(id x, id y) :=
                 compute_dist_between_examples model (inst_point x) (inst_point y)]>
               (dist_hash s)) s)) ;;
  s <- get_self ;;
  d <- hash_get (dist_hash s) (id x, id y) ;;
  if no_min_dist min_dist || PrimFloat.ltb d (default 0%float min_dist)
  then ret (Some d)
  else ret min_dist.

(** The update of [min_dist] by one distance:
    [if not min_dist or d < min_dist: min_dist = d]. *)
Definition closer (min_dist : option float) (d : float) : option float :=
  if no_min_dist min_dist || PrimFloat.ltb d (default 0%float min_dist)
  then Some d
  else min_dist.

(** What [_get_dist_from_l] arrives at when every pair is read from the
    cache [h]. *)
Definition cached_min (h : gmap (Z * Z) float) (x : instance)
    (ys : list instance) (acc : option float) : option float :=
  foldl (fun m y => closer m (default 0%float (h !! (id x, id y)))) acc ys.

(** An example as the first loop of [unlabel_instances(inst_ids)] leaves it:
    with its true label back if its identifier is listed, as it was if not. *)
Definition restore_if (inst_ids : list Z) (inst : instance) : instance :=
  if bool_decide (id inst ∈ inst_ids) then restore_label inst else inst.

(** A labeled partition when that loop has passed its first [j] positions. *)
Definition restored_upto (inst_ids : list Z) (j : nat) (l : dataset) : dataset :=
  {| instances := (restore_if inst_ids <$> take j (instances l))
                  ++ drop j (instances l) |}.

(** The world when that loop has passed the first [j] positions. *)
Definition restoring (inst_ids : list Z) (j : nat) (w : World) : World :=
  {| self := with_datasets (unlabeled_datasets (self w))
               (restored_upto inst_ids j <$> labeled_datasets (self w)) (self w);
     random := random w;
     console := console w |}.

(** Labeled partitions aligned by position: every feature space has both
    partitions, and the labeled partitions list the same identifiers in the
    same order. *)
Definition aligned (s : BaseLearner) : Prop :=
  length (unlabeled_datasets s) = length (labeled_datasets s)
  /\ (forall l l', l ∈ labeled_datasets s -> l' ∈ labeled_datasets s ->
                   get_instance_ids l' = get_instance_ids l).

(** The model [rebuild_models] trains for a feature space and its parameter
    set: [svm_model(svm_problem(labels, samples), param)]. *)
Definition model_for (dp : dataset * svm_parameter) : svm_model :=
  svm_train (lbl <$> instances dp.1) (inst_point <$> instances dp.1) dp.2.

(** Training that may raise: [training_error labels samples param] is the
    exception that [svm_problem(labels, samples)] or
    [svm_model(problem, param)] raises on these arguments, if any;
    [training_fails] is that exception for a dataset and its parameter set. *)
Definition training_fails
    (training_error : list Z -> list point -> svm_parameter -> option exn)
    (dp : dataset * svm_parameter) : option exn :=
  training_error (lbl <$> instances dp.1) (inst_point <$> instances dp.1) dp.2.

(** [rebuild_models(undersample_first=False)] with a classifier whose training
    may raise: the statements of [rebuild_models], where an exception of
    [svm_problem] or [svm_model] leaves the loop, and the method, at the
    dataset it occurs for, after [self.models = []] and the models appended
    so far. *)
Definition rebuild_models_with
    (training_error : list Z -> list point -> svm_parameter -> option exn)
    (undersample_first : bool) : M unit :=
  datasets <- (if undersample_first
               then print undersampling_before_building ;;
                    ds <- undersample_labeled_datasets None ;;
                    print msg_done ;;
                    ret ds
               else s <- get_self ;; ret (labeled_datasets s)) ;;
  d0 <- index0 datasets ;;
  print (training_models_on (length (instances d0))) ;;
  modify_self (with_models (Some [])) ;;
  s <- get_self ;;
  for_each (zip datasets (params s))
    (fun dp =>
       let sl := get_samples_and_labels dp.1 in
       emit (Trained (length sl.1)) ;;
       match training_error sl.2 sl.1 dp.2 with
       | Some e => raise e
       | None => models_append (svm_train sl.2 sl.1 dp.2)
       end) ;;
  print msg_done.

End MoreVocabulary.

(** ** Inputs of the examples *)

Section Inputs.
#[local] Existing Instance toy_classifier.
#[local] Existing Instance cpython.
#[local] Existing Instance positive_minority.

(** An example with identifier [i] and label [l]; [e] is its single feature. *)
Definition example_at (e : float) (i l : Z) : instance :=
  {| id := i; inst_point := [e]; lbl := l; label := l;
     has_synthetic_label := false |}.

Definition example : Z -> Z -> instance := example_at 0%float.

(** A pool of six examples, two of them of the minority (positive) class, in
    two feature spaces. *)
Definition pool : dataset :=
  {| instances := [example 1 1; example 2 (-1); example 3 (-1);
                   example 4 1; example 5 (-1); example 6 (-1)] |}.

(** A learner just built over one feature space, and over two. *)
Definition new_learner : Learner := __init__ [pool] None.
Definition new_world : World := world_of new_learner [].

Definition two_spaces : Learner := __init__ [pool; pool] None.
Definition two_spaces_world : World := world_of two_spaces [].

(** A learner with the given labeled partitions and models, nothing left
    unlabeled, empty caches. *)
Definition labeled_world (labeled : list dataset) (ms : option (list (list Z)))
  : World :=
  {| self :=
       {| params := (fun _ => tt) <$> labeled;
          unlabeled_datasets := (fun _ => {| instances := [] |}) <$> labeled;
          labeled_datasets := labeled;
          models := ms;
          div_hash := ∅;
          dist_hash := ∅;
          name := "Base" |};
     random := [];
     console := [] |}.

(** One model per feature space, each predicting the vote given for it. *)
Definition voters (votes : list Z) : World :=
  labeled_world [] (Some ((fun v => [v]) <$> votes)).

Definition three_points : list point := [[]; []; []].

(** Labeled partitions: one minority and three majority examples; the same
    in a second feature space; majority examples only; one example of each
    class; and a second feature space holding other identifiers. *)
Definition unbalanced : dataset :=
  {| instances := [example 1 1; example 2 (-1); example 3 (-1); example 4 (-1)] |}.

Definition unbalanced' : dataset :=
  {| instances := [example_at 1%float 1 1; example_at 1%float 2 (-1);
                   example_at 1%float 3 (-1); example_at 1%float 4 (-1)] |}.

Definition majority_only : dataset :=
  {| instances := [example 1 (-1); example 2 (-1)] |}.

Definition balanced : dataset :=
  {| instances := [example 1 1; example 2 (-1)] |}.

Definition one_of_three : dataset :=
  {| instances := [example 1 1; example 2 (-1); example 3 (-1)] |}.

Definition other_ids : dataset :=
  {| instances := [example 7 1; example 8 (-1); example 9 (-1)] |}.

(** A learner whose only model was trained on one example, with two labeled
    examples to rebuild from. *)
Definition old_model : list Z := [1%Z].
Definition stale_world : World := labeled_world [balanced] (Some [old_model]).

(** The world an operation leaves behind. *)
Definition after (op : operation) (w : World) : World :=
  default w (world_after (perform op w)).

(** Two identifiers labeled by hand, then a loop of two iterations of two. *)
Definition labeled_by_hand : World :=
  after (Label_instances_in_all_datasets [1; 2]%Z) two_spaces_world.

Definition after_loop : World :=
  after (Active_learn 2 take_first 3 2 true) labeled_by_hand.

End Inputs.

(** ** Inputs of the further examples *)

Section MoreInputs.
#[local] Existing Instance toy_classifier.
#[local] Existing Instance cpython.
#[local] Existing Instance positive_minority.

(** A labeled partition whose first example carries a guessed label, +1,
    where its true label is -1; the same in two feature spaces. *)
Definition guessed : dataset :=
  {| instances :=
       [ {| id := 1; inst_point := [0%float]; lbl := 1; label := (-1);
            has_synthetic_label := true |};
         example 2 (-1) ] |}.

Definition guessed_world : World := labeled_world [guessed; guessed] None.

(** A classifier that refuses a training set without both classes, the
    empty one included. *)
Definition needs_both_classes
    (labels : list Z) (samples : list point) (param : svm_parameter) : option exn :=
  if bool_decide (1%Z ∈ labels /\ (-1)%Z ∈ labels) then None else Some ValueError.

(** An old model, and two feature spaces to rebuild from, the second with
    majority examples only. *)
Definition second_space_degenerate : World :=
  labeled_world [balanced; majority_only] (Some [old_model]).

End MoreInputs.
(** ** Properties *)

Section Properties.
Context {classifier : Classifier} {runtime : Runtime} {store : ExampleStore}.

(** *** Running a computation statement by statement *)

Lemma bind_Return {A B} (c : M A) (k : A -> M B) w a w1 :
  c w = Return a w1 -> bind c k w = k a w1.
Proof. intros Hc. unfold bind. by rewrite Hc. Qed.

Lemma bind_Raise {A B} (c : M A) (k : A -> M B) w e w1 :
  c w = Raise e w1 -> bind c k w = Raise e w1.
Proof. intros Hc. unfold bind. by rewrite Hc. Qed.

(** Runs the statements whose outcome is known by computation. *)
Ltac run := repeat (erewrite bind_Return by reflexivity).

(** *** Computations that keep a relation *)

Lemma preserves_ret {A} (R : World -> World -> Prop) `{!Reflexive R} (a : A) :
  preserves R (ret a).
Proof. intros w. simpl. reflexivity. Qed.

Lemma preserves_raise {A} (R : World -> World -> Prop) `{!Reflexive R} e :
  preserves R (raise (A := A) e).
Proof. intros w. simpl. reflexivity. Qed.

Lemma preserves_bind {A B} (R : World -> World -> Prop) `{!Transitive R}
    (c : M A) (k : A -> M B) :
  preserves R c -> (forall a, preserves R (k a)) -> preserves R (bind c k).
Proof.
  intros Hc Hk w. unfold bind. specialize (Hc w).
  destruct (c w) as [a w1|e w1|]; try done.
  specialize (Hk a w1). destruct (k a w1); try done; by etrans.
Qed.

Lemma preserves_lift {A} (R : World -> World -> Prop) `{!Reflexive R}
    (r : exn + A) :
  preserves R (lift r).
Proof. destruct r; intros w; simpl; reflexivity. Qed.

Lemma preserves_index0 {A} (R : World -> World -> Prop) `{!Reflexive R}
    (ls : list A) :
  preserves R (index0 ls).
Proof. destruct ls; intros w; simpl; reflexivity. Qed.

Lemma preserves_get_self (R : World -> World -> Prop) `{!Reflexive R} :
  preserves R get_self.
Proof. intros w. simpl. reflexivity. Qed.

Lemma preserves_for_each {A} (R : World -> World -> Prop) `{!PreOrder R}
    (xs : list A) (body : A -> M unit) :
  (forall x, preserves R (body x)) -> preserves R (for_each xs body).
Proof.
  intros Hb. induction xs as [|x xs IH]; simpl.
  - apply preserves_ret; apply _.
  - apply preserves_bind; [apply _ | apply Hb | intros _; apply IH].
Qed.

Lemma preserves_fold_each {A S} (R : World -> World -> Prop) `{!PreOrder R}
    (ys : list A) (acc : S) (body : S -> A -> M S) :
  (forall a y, preserves R (body a y)) -> preserves R (fold_each ys acc body).
Proof.
  intros Hb. revert acc. induction ys as [|y ys IH]; intros acc; simpl.
  - apply preserves_ret; apply _.
  - apply preserves_bind; [apply _ | apply Hb | intros a; apply IH].
Qed.

(** The tape and the console are not attributes of the learner. *)
Lemma preserves_emit (R : World -> World -> Prop) e :
  (forall w t c, R w {| self := self w; random := t; console := c |}) ->
  preserves R (emit e).
Proof. intros HR w. simpl. apply HR. Qed.

Lemma preserves_random_choice (R : World -> World -> Prop) l :
  (forall w t c, R w {| self := self w; random := t; console := c |}) ->
  preserves R (random_choice l).
Proof.
  intros HR w. unfold random_choice. destruct l; [|apply HR].
  destruct w; apply HR.
Qed.

Lemma preserves_draw (R : World -> World -> Prop) `{!PreOrder R} k ids sel :
  (forall w t c, R w {| self := self w; random := t; console := c |}) ->
  preserves R (draw k ids sel).
Proof.
  intros HR. revert ids sel. induction k as [|k IH]; intros ids sel; simpl.
  - apply preserves_ret; apply _.
  - apply preserves_bind; [apply _ | by apply preserves_random_choice |].
    intros a. apply IH.
Qed.

Lemma preserves_modify_self (R : World -> World -> Prop) f :
  (forall w, R w {| self := f (self w); random := random w; console := console w |}) ->
  preserves R (modify_self f).
Proof. intros HR w. simpl. apply HR. Qed.

#[local] Instance same_caches_preorder : PreOrder same_caches.
Proof.
  split.
  - intros w. by unfold same_caches.
  - intros w1 w2 w3 [? ?] [? ?]. split; congruence.
Qed.

#[local] Instance same_self_preorder : PreOrder same_self.
Proof.
  split.
  - intros w. by unfold same_self.
  - intros w1 w2 w3. unfold same_self. congruence.
Qed.

#[local] Instance keeps_lockstep_preorder : PreOrder keeps_lockstep.
Proof.
  split.
  - intros w. by unfold keeps_lockstep.
  - intros w1 w2 w3. unfold keeps_lockstep. tauto.
Qed.

Lemma same_self_frame w t c :
  same_self w {| self := self w; random := t; console := c |}.
Proof. by unfold same_self. Qed.

Lemma same_caches_frame w t c :
  same_caches w {| self := self w; random := t; console := c |}.
Proof. by unfold same_caches. Qed.

Lemma keeps_lockstep_frame w t c :
  keeps_lockstep w {| self := self w; random := t; console := c |}.
Proof. by unfold keeps_lockstep. Qed.

(** Breaks a method into its statements. *)
Ltac step_preserves :=
  lazymatch goal with
  | |- preserves _ (bind _ _) => apply preserves_bind; [apply _ | | intros ?]
  | |- preserves _ (ret _) => apply preserves_ret; apply _
  | |- preserves _ (raise _) => apply preserves_raise; apply _
  | |- preserves _ (lift _) => apply preserves_lift; apply _
  | |- preserves _ (index0 _) => apply preserves_index0; apply _
  | |- preserves _ get_self => apply preserves_get_self; apply _
  | |- preserves _ (for_each _ _) => apply preserves_for_each; [apply _ | intros ?]
  | |- preserves _ (fold_each _ _ _) =>
      apply preserves_fold_each; [apply _ | intros ? ?]
  | |- preserves _ (print _) => apply preserves_emit
  | |- preserves _ (emit _) => apply preserves_emit
  | |- preserves _ (draw _ _ _) => apply preserves_draw; [apply _ |]
  | |- preserves _ (random_choice _) => apply preserves_random_choice
  | |- preserves _ (modify_self _) => apply preserves_modify_self
  | |- preserves _ (match ?x with _ => _ end) => destruct x
  | |- preserves _ (if ?b then _ else _) => destruct b
  end.

Lemma undersample_labeled_datasets_same_self k :
  preserves same_self (undersample_labeled_datasets k).
Proof.
  unfold undersample_labeled_datasets, undersample.
  repeat step_preserves; apply same_self_frame.
Qed.

Lemma undersample_labeled_datasets_same_caches k :
  preserves same_caches (undersample_labeled_datasets k).
Proof.
  intros w. pose proof (undersample_labeled_datasets_same_self k w) as Hs.
  destruct (undersample_labeled_datasets k w); try done;
    unfold same_self in Hs; unfold same_caches; by rewrite Hs.
Qed.

Lemma rebuild_models_same_caches undersample_first :
  preserves same_caches (rebuild_models undersample_first).
Proof.
  unfold rebuild_models, models_append.
  repeat first
    [ apply undersample_labeled_datasets_same_caches
    | step_preserves ];
    first [ apply same_caches_frame | by intros ? ].
Qed.


(** *** Aggregation before any model exists (C8) *)

Lemma _arg_max_error {A} (ls : list A) (f : A -> Z) e :
  _arg_max ls f = inl e -> e = IndexError.
Proof. destruct ls; simpl; congruence. Qed.

Lemma py_max_error (l : list Z) e : py_max l = inl e -> e = ValueError.
Proof. destruct l; simpl; congruence. Qed.

Lemma majority_predict_built m ms X w :
  models (self w) = Some (m :: ms) ->
  (exists v, majority_predict X w = Return v w)
  \/ majority_predict X w = Raise IndexError w.
Proof.
  intros Hm. unfold majority_predict, bind, get_self. rewrite Hm.
  destruct (_arg_max _ _) as [e|i] eqn:Hi; simpl.
  - apply _arg_max_error in Hi as ->. by right.
  - destruct (_ !! i); simpl; [left; eauto | by right].
Qed.

Lemma cautious_predict_built m ms X w :
  models (self w) = Some (m :: ms) ->
  (exists v, cautious_predict X w = Return v w)
  \/ cautious_predict X w = Raise ValueError w.
Proof.
  intros Hm. unfold cautious_predict, bind, get_self. rewrite Hm.
  destruct (py_max _) as [e|v] eqn:Hv; simpl.
  - apply py_max_error in Hv as ->. by right.
  - left; eauto.
Qed.

(** C8: with [models] None or empty, both aggregation policies raise the
    configuration error "No models have been initialized." and return no
    label; with at least one model built, neither raises that error. *)
Theorem aggregation_needs_models (w : World) (X : list point) :
  (no_models (self w) ->
     majority_predict X w = Raise no_models_error w
     /\ cautious_predict X w = Raise no_models_error w)
  /\ (~ no_models (self w) ->
      forall w', majority_predict X w <> Raise no_models_error w'
                 /\ cautious_predict X w <> Raise no_models_error w').
Proof.
  split.
  - intros Hno. unfold majority_predict, cautious_predict, bind, get_self.
    by destruct Hno as [-> | ->].
  - intros Hbuilt w'.
    destruct (models (self w)) as [[|m ms]|] eqn:Hm;
      [ by destruct Hbuilt; right | | by destruct Hbuilt; left ].
    split.
    + destruct (majority_predict_built m ms X w Hm) as [[v ->] | ->]; discriminate.
    + destruct (cautious_predict_built m ms X w Hm) as [[v ->] | ->]; discriminate.
Qed.

(** *** The default query function (C4) *)

Lemma list_remove_perm (x : Z) (l : list Z) :
  x ∈ l -> l ≡ₚ x :: list_remove x l.
Proof.
  induction l as [|y l IH]; intros Hx; [by apply elem_of_nil in Hx|].
  simpl. destruct (Z.eqb_spec x y) as [->|Hne]; [done|].
  apply elem_of_cons in Hx as [?|Hx]; [done|].
  rewrite (IH Hx) at 1. apply Permutation_swap.
Qed.

Lemma random_choice_spec (l : list Z) (w : World) :
  l <> [] ->
  exists x, x ∈ l
    /\ random_choice l w
       = Return x {| self := self w; random := tl (random w); console := console w |}.
Proof.
  intros Hl. unfold random_choice. destruct l as [|x0 l]; [done|].
  eexists; split; [|reflexivity].
  apply list_elem_of_In, nth_In.
  apply Nat.mod_upper_bound. done.
Qed.

(** Drawing [k] identifiers out of at least [k]: the draw returns, touches
    only the tape, and the identifiers drawn are taken without replacement. *)
Lemma draw_spec (k : nat) (ids sel : list Z) (w : World) :
  (k <= length ids)%nat ->
  exists picked w',
    draw k ids sel w = Return (sel ++ picked) w'
    /\ self w' = self w /\ console w' = console w
    /\ length picked = k /\ picked ⊆+ ids.
Proof.
  revert ids sel w. induction k as [|k IH]; intros ids sel w Hk; simpl.
  - exists [], w. rewrite app_nil_r. repeat split; try done.
    apply submseteq_nil_l.
  - destruct (random_choice_spec ids w) as (x & Hx & Hc).
    { intros ->. simpl in Hk. lia. }
    unfold bind. rewrite Hc.
    pose proof (list_remove_perm x ids Hx) as Hperm.
    destruct (IH (list_remove x ids) (sel ++ [x])
                {| self := self w; random := tl (random w); console := console w |})
      as (picked & w' & Hd & Hs & Hcon & Hlen & Hsub).
    { apply Permutation_length in Hperm. simpl in Hperm. lia. }
    exists (x :: picked), w'. rewrite Hd, <- app_assoc. simpl.
    repeat split; try done; [lia|].
    rewrite Hperm. by apply submseteq_skip.
Qed.

(** C4 (as the code has it): the query function of a newly built learner
    raises "no query function provided!" for every batch size and returns no
    identifiers; random selection is a separate method,
    [get_random_unlabeled_ids], which returns [k] identifiers of feature
    space 0's unlabeled pool drawn without replacement and leaves the learner
    as it was. *)
Theorem default_query_function_raises
    (unlabeled : list dataset) (ms : option (list svm_model)) (k : Z) (w : World) :
  query_function (__init__ unlabeled ms) k w
    = Raise (Exception "no query function provided!") w
  /\ (forall d0 rest,
        unlabeled_datasets (self w) = d0 :: rest ->
        (0 <= k <= Z.of_nat (length (instances d0)))%Z ->
        exists ids w',
          get_random_unlabeled_ids k w = Return ids w'
          /\ self w' = self w
          /\ console w' = console w
          /\ Z.of_nat (length ids) = k
          /\ ids ⊆+ get_instance_ids d0).
Proof.
  split; [reflexivity|].
  intros d0 rest Hu Hk.
  unfold get_random_unlabeled_ids, bind, get_self. rewrite Hu. simpl.
  destruct (draw_spec (Z.to_nat k) (get_instance_ids d0) [] w)
    as (picked & w' & Hd & Hs & Hcon & Hlen & Hsub).
  { unfold get_instance_ids. rewrite length_fmap. lia. }
  exists picked, w'. simpl in Hd. repeat split; try done. lia.
Qed.

(** *** The caches across a rebuild (C2) *)

Lemma _compute_cos_cached model x y v w :
  div_hash (self w) !! (id x, id y) = Some v ->
  _compute_cos model x y w = Return v w.
Proof.
  intros Hv. unfold _compute_cos, bind, get_self, has_key, hash_get.
  rewrite Hv. simpl. by rewrite Hv.
Qed.

(** C2 (as the code has it): [rebuild_models] always terminates and never
    touches the caches: whether it returns or raises, [div_hash] and
    [dist_hash] are exactly what they were, and a similarity cached before
    the rebuild is still what [_compute_cos] answers after it, without the
    model it is given being consulted. *)
Theorem rebuild_models_keeps_caches (undersample_first : bool) (w : World) :
  match rebuild_models undersample_first w with
  | Return _ w' | Raise _ w' =>
      div_hash (self w') = div_hash (self w)
      /\ dist_hash (self w') = dist_hash (self w)
      /\ (forall model x y v,
            div_hash (self w) !! (id x, id y) = Some v ->
            _compute_cos model x y w' = Return v w')
  | OutOfFuel => False
  end.
Proof.
  pose proof (rebuild_models_same_caches undersample_first w) as Hc.
  destruct (rebuild_models undersample_first w) as [[] w'|e w'|]; [| |done];
    destruct Hc as [Hdiv Hdist]; (split; [done | split; [done|]]);
    intros model x y v Hv; apply _compute_cos_cached; by rewrite Hdiv.
Qed.

(** *** Undersampling (C5, C10) *)

Lemma copy_dataset_eq d : copy_dataset d = d.
Proof. by destruct d. Qed.

Lemma copied_datasets_eq (l : list dataset) : copy_dataset <$> l = l.
Proof.
  induction l as [|d l IH]; [done|]. rewrite fmap_cons, IH.
  by rewrite copy_dataset_eq.
Qed.

(** What [undersample_labeled_datasets] does on a learner with labeled data. *)
Lemma undersample_labeled_datasets_run (k : option Z) (w : World) d0 rest :
  labeled_datasets (self w) = d0 :: rest ->
  instances d0 <> [] ->
  let k' := removal_count k d0 in
  if ((k' <? number_of_majority_examples d0) && (k' >? 0))%Z
  then
    exists picked w',
      undersample_labeled_datasets k w
      = Return
          ({| instances := filter (fun inst => id inst ∉ picked) (instances d0) |}
           :: ((fun d =>
                  (remove_instances
                     (id <$> filter (fun inst => id inst ∈ picked) (instances d0))
                     d).2)
               <$> rest))
          w'
      /\ self w' = self w
      /\ length picked = Z.to_nat k'
      /\ picked ⊆+ majority_ids d0
  else
    exists w',
      undersample_labeled_datasets k w = Return (d0 :: rest) w'
      /\ self w' = self w.
Proof.
  intros Hl Hne k'. subst k'.
  unfold undersample_labeled_datasets, removal_count, bind, get_self. rewrite Hl.
  destruct (Nat.eqb_spec (length (instances d0)) 0) as [Hz|_].
  { by apply length_zero_iff_nil in Hz. }
  rewrite copied_datasets_eq.
  set (w1 := if falsy k
             then {| self := self w; random := random w;
                     console := console w ++ [Printed undersampling_to_minority] |}
             else w).
  assert (Hs1 : self w1 = self w) by (subst w1; by destruct (falsy k)).
  destruct (falsy k) eqn:Hf; simpl;
    (destruct ((_ <? _)%Z && (_ >? 0)%Z) eqn:Hg; simpl;
     [ | eexists; split; [reflexivity | done] ]).
  all: unfold undersample, bind;
    apply andb_true_iff in Hg as [Hlt Hpos];
    apply Z.ltb_lt in Hlt; apply Z.gtb_lt in Hpos;
    match goal with
    | |- context [draw ?n ?ids ?sel ?w0] =>
        destruct (draw_spec n ids sel w0) as (picked & w' & Hd & Hs & _ & Hlen & Hsub);
        [ unfold number_of_majority_examples in *; lia | ]
    end;
    rewrite Hd; simpl;
    exists picked, w'; repeat split; done.
Qed.

(** C10: [undersample_labeled_datasets(0)] is [undersample_labeled_datasets()]:
    a falsy [k] is taken as absent and recomputed as majority minus minority of
    feature space 0, so zero removals cannot be requested; the copies come
    back with nothing removed exactly when the recomputed count fails the
    guard [0 < k < majority count]. *)
Theorem undersample_zero_is_unspecified (w : World) :
  undersample_labeled_datasets (Some 0%Z) w = undersample_labeled_datasets None w
  /\ (forall d0 rest copies w',
        labeled_datasets (self w) = d0 :: rest ->
        undersample_labeled_datasets (Some 0%Z) w = Return copies w' ->
        let k := (number_of_majority_examples d0
                  - number_of_minority_examples d0)%Z in
        copies = labeled_datasets (self w)
        <-> ~ (0 < k < number_of_majority_examples d0)%Z).
Proof.
  split; [reflexivity|].
  intros d0 rest copies w' Hl Hrun k.
  assert (Hne : instances d0 <> []).
  { intros Hnil. revert Hrun.
    unfold undersample_labeled_datasets, bind, get_self. rewrite Hl, Hnil.
    simpl. discriminate. }
  pose proof (undersample_labeled_datasets_run (Some 0%Z) w d0 rest Hl Hne) as Hspec.
  simpl in Hspec. change (removal_count (Some 0%Z) d0) with k in Hspec.
  destruct ((k <? _)%Z && (k >? 0)%Z) eqn:Hg.
  - apply andb_true_iff in Hg as [Hlt Hpos].
    apply Z.ltb_lt in Hlt. apply Z.gtb_lt in Hpos.
    destruct Hspec as (picked & w1 & Hrun1 & _ & Hlen & Hsub).
    rewrite Hrun in Hrun1. injection Hrun1 as -> ->.
    split; [|intros Hno; lia].
    intros Heq. exfalso. rewrite Hl in Heq. injection Heq as Heq _.
    destruct picked as [|x picked]; [simpl in Hlen; lia|].
    assert (Hx : x ∈ majority_ids d0).
    { eapply elem_of_submseteq; [|exact Hsub]. apply elem_of_cons; by left. }
    unfold majority_ids in Hx.
    apply list_elem_of_fmap in Hx as (inst & -> & Hinst).
    apply list_elem_of_filter in Hinst as [_ Hinst].
    assert (Hshort : (length (filter (fun i => id i ∉ id inst :: picked) (instances d0))
                      < length (instances d0))%nat).
    { apply (length_filter_lt _ _ inst); [done|].
      intros Hnot. apply Hnot. apply elem_of_cons; by left. }
    rewrite <- Heq in Hshort at 2. simpl in Hshort. lia.
  - destruct Hspec as (w1 & Hrun1 & _).
    rewrite Hrun in Hrun1. injection Hrun1 as -> ->.
    split; [intros _|by rewrite Hl].
    apply andb_false_iff in Hg as [Hg|Hg];
      [apply Z.ltb_ge in Hg | rewrite Z.gtb_ltb in Hg; apply Z.ltb_ge in Hg]; lia.
Qed.

(** *** The diversity cache (C7) *)

Lemma cos_calls_app key (l1 l2 : list event) :
  cos_calls key (l1 ++ l2) = (cos_calls key l1 + cos_calls key l2)%nat.
Proof. unfold cos_calls. by rewrite filter_app, length_app. Qed.

Lemma cos_calls_cons key e (l : list event) :
  cos_calls key (e :: l) = (cos_calls key [e] + cos_calls key l)%nat.
Proof. apply (cos_calls_app key [e] l). Qed.

Lemma cos_calls_one key key' :
  cos_calls key [Cos_computed key'] = if decide (key' = key) then 1%nat else 0%nat.
Proof.
  unfold cos_calls. rewrite filter_cons, filter_nil.
  destruct (decide (key' = key)) as [->|Hne].
  - by rewrite decide_True.
  - rewrite decide_False; [done|]. congruence.
Qed.

(** One round of the loop: a cached pair is read and nothing changes; a pair
    not yet cached is computed with the model, stored and then read. *)
Lemma _compute_div_step_run model x sum y w :
  let key := (id x, id y) in
  match div_hash (self w) !! key with
  | Some v => _compute_div_step model x sum y w = Return (sum + v)%float w
  | None =>
      let c := compute_cos_between_examples model (inst_point x) (inst_point y) in
      _compute_div_step model x sum y w
      = Return (sum + c)%float
          {| self := with_div_hash (<[key := c]> (div_hash (self w))) (self w);
             random := random w;
             console := console w ++ [Cos_computed key] |}
  end.
Proof.
  intros key. unfold _compute_div_step, bind, get_self, has_key, hash_get.
  destruct (div_hash (self w) !! key) as [v|] eqn:Hk; subst key; rewrite Hk; simpl.
  - by rewrite Hk.
  - by rewrite lookup_insert_eq.
Qed.

(** A pass of [_compute_div] over a reference set: it returns the sum of what
    the cache holds afterwards, the cache only grows, every pair of the set is
    cached afterwards, and the model is called at most once per pair, and not
    at all for a pair that was cached before. *)
Lemma _compute_div_pass model x ys acc w :
  exists w1 new,
    fold_each ys acc (_compute_div_step model x) w
    = Return (cached_sum (div_hash (self w1)) x ys acc) w1
    /\ div_hash (self w) ⊆ div_hash (self w1)
    /\ (forall y, y ∈ ys -> is_Some (div_hash (self w1) !! (id x, id y)))
    /\ console w1 = console w ++ new
    /\ (forall key, (cos_calls key new <= 1)%nat)
    /\ (forall key, is_Some (div_hash (self w) !! key) -> cos_calls key new = 0%nat).
Proof.
  revert acc w. induction ys as [|y ys IH]; intros acc w; simpl.
  - exists w, []. rewrite app_nil_r. repeat split; try done.
    + intros y Hy. by apply elem_of_nil in Hy.
    + intros key. unfold cos_calls. simpl. lia.
  - pose proof (_compute_div_step_run model x acc y w) as Hstep. simpl in Hstep.
    unfold bind at 1.
    destruct (div_hash (self w) !! (id x, id y)) as [v|] eqn:Hk; rewrite Hstep.
    + destruct (IH (acc + v)%float w) as (w1 & new & Hrun & Hsub & Hall & Hcon & Hone & Hzero).
      exists w1, new. rewrite Hrun.
      assert (Hk1 : div_hash (self w1) !! (id x, id y) = Some v)
        by (by eapply lookup_weaken).
      unfold cached_sum at 2. simpl. rewrite Hk1. simpl.
      repeat split; try done.
      intros y' [->|Hy']%elem_of_cons; [by rewrite Hk1 | by apply Hall].
    + set (c := compute_cos_between_examples model (inst_point x) (inst_point y)).
      set (w' := {| self := _; random := _; console := _ |}).
      destruct (IH (acc + c)%float w') as (w1 & new & Hrun & Hsub & Hall & Hcon & Hone & Hzero).
      assert (Hk' : div_hash (self w') !! (id x, id y) = Some c)
        by (simpl; by rewrite lookup_insert_eq).
      assert (Hk1 : div_hash (self w1) !! (id x, id y) = Some c)
        by (by eapply lookup_weaken).
      exists w1, (Cos_computed (id x, id y) :: new). rewrite Hrun.
      unfold cached_sum at 2. simpl. rewrite Hk1. simpl.
      repeat split; try done.
      * etrans; [|exact Hsub]. simpl. by apply insert_subseteq.
      * intros y' [->|Hy']%elem_of_cons; [by rewrite Hk1 | by apply Hall].
      * rewrite Hcon. simpl. by rewrite <- app_assoc.
      * intros key. rewrite cos_calls_cons, cos_calls_one.
        destruct (decide ((id x, id y) = key)) as [<-|Hne]; [|apply Hone].
        rewrite Hzero; [lia|]. by rewrite Hk'.
      * intros key [v Hv].
        rewrite cos_calls_cons, cos_calls_one.
        destruct (decide ((id x, id y) = key)) as [<-|Hne]; [congruence|].
        rewrite Hzero; [lia|]. simpl. rewrite lookup_insert_ne; by eauto.
Qed.

(** A pass over a reference set whose pairs are all cached changes nothing. *)
Lemma _compute_div_cached model x ys acc w :
  (forall y, y ∈ ys -> is_Some (div_hash (self w) !! (id x, id y))) ->
  fold_each ys acc (_compute_div_step model x) w
  = Return (cached_sum (div_hash (self w)) x ys acc) w.
Proof.
  revert acc. induction ys as [|y ys IH]; intros acc Hall; simpl; [done|].
  pose proof (_compute_div_step_run model x acc y w) as Hstep. simpl in Hstep.
  destruct (Hall y) as [v Hv]; [apply elem_of_cons; by left|].
  unfold bind at 1. rewrite Hv in Hstep. rewrite Hstep, IH.
  - unfold cached_sum at 2. simpl. by rewrite Hv.
  - intros y' Hy'. apply Hall. apply elem_of_cons; by right.
Qed.

(** A pass of [_compute_div], pair by pair: what it leaves in the cache and
    how often it calls the model. A pair cached before keeps its value and
    costs no call; a pair of the reference set not cached before costs
    exactly one call, and holds the model's similarity for an example of the
    set with that identifier; no other pair is touched. *)
Lemma _compute_div_pass_exact model x ys acc w :
  exists w1 new,
    fold_each ys acc (_compute_div_step model x) w
    = Return (cached_sum (div_hash (self w1)) x ys acc) w1
    /\ self w1 = with_div_hash (div_hash (self w1)) (self w)
    /\ random w1 = random w
    /\ console w1 = console w ++ new
    /\ (forall y, y ∈ ys -> is_Some (div_hash (self w1) !! (id x, id y)))
    /\ (forall key, (cos_calls key new <= 1)%nat)
    /\ (forall key, is_Some (div_hash (self w) !! key) ->
          div_hash (self w1) !! key = div_hash (self w) !! key
          /\ cos_calls key new = 0%nat)
    /\ (forall key, div_hash (self w) !! key = None ->
          (forall y, y ∈ ys -> key <> (id x, id y)) ->
          div_hash (self w1) !! key = None /\ cos_calls key new = 0%nat)
    /\ (forall key, div_hash (self w) !! key = None ->
          (exists y, y ∈ ys /\ key = (id x, id y)) ->
          cos_calls key new = 1%nat
          /\ exists y, y ∈ ys /\ key = (id x, id y)
               /\ div_hash (self w1) !! key
                  = Some (compute_cos_between_examples model
                            (inst_point x) (inst_point y))).
Proof.
  revert acc w. induction ys as [|y ys IH]; intros acc w; simpl.
  - exists w, []. rewrite app_nil_r.
    split; [done|]. split; [by destruct w as [[] ? ?]|].
    split; [done|]. split; [done|].
    split; [intros y Hy; by apply elem_of_nil in Hy|].
    split; [intros key; unfold cos_calls; simpl; lia|].
    split; [done|]. split; [done|].
    intros key _ (y & Hy & _). by apply elem_of_nil in Hy.
  - pose proof (_compute_div_step_run model x acc y w) as Hstep. simpl in Hstep.
    unfold bind at 1.
    destruct (div_hash (self w) !! (id x, id y)) as [v|] eqn:Hk; rewrite Hstep.
    + destruct (IH (acc + v)%float w)
        as (w1 & new & Hrun & Hself & Hrand & Hcon & Hall & Hone & Hold & Hout & Hnew).
      assert (Hk1 : div_hash (self w1) !! (id x, id y) = Some v).
      { rewrite <- Hk. apply Hold. by rewrite Hk. }
      exists w1, new. rewrite Hrun.
      unfold cached_sum at 2. simpl. rewrite Hk1. simpl.
      split; [done|]. split; [done|]. split; [done|]. split; [done|].
      split.
      { intros y' [->|Hy']%elem_of_cons; [by rewrite Hk1 | by apply Hall]. }
      split; [done|]. split; [done|]. split.
      { intros key Hnone Hno. apply Hout; [done|].
        intros y' Hy'. apply Hno. apply elem_of_cons; by right. }
      intros key Hnone (y' & Hy' & Hkey).
      apply elem_of_cons in Hy' as [->|Hy']; [congruence|].
      destruct (Hnew key Hnone) as (Hc & y'' & Hy'' & Hkey'' & Hv); [by eauto|].
      split; [done|]. exists y''. split; [|done]. apply elem_of_cons; by right.
    + set (c := compute_cos_between_examples model (inst_point x) (inst_point y)).
      set (w' := {| self := _; random := _; console := _ |}).
      destruct (IH (acc + c)%float w')
        as (w1 & new & Hrun & Hself & Hrand & Hcon & Hall & Hone & Hold & Hout & Hnew).
      assert (Hk' : div_hash (self w') !! (id x, id y) = Some c)
        by (simpl; by rewrite lookup_insert_eq).
      assert (Hne' : forall key, key <> (id x, id y) ->
                div_hash (self w') !! key = div_hash (self w) !! key).
      { intros key Hne. simpl. by rewrite lookup_insert_ne. }
      destruct (Hold (id x, id y)) as [Hk1 Hc0]; [by rewrite Hk'|].
      rewrite Hk' in Hk1.
      exists w1, (Cos_computed (id x, id y) :: new). rewrite Hrun.
      unfold cached_sum at 2. simpl. rewrite Hk1. simpl.
      split; [done|].
      split; [rewrite Hself; by destruct w as [[] ? ?]|].
      split; [done|].
      split; [rewrite Hcon; simpl; by rewrite <- app_assoc|].
      split.
      { intros y' [->|Hy']%elem_of_cons; [by rewrite Hk1 | by apply Hall]. }
      split.
      { intros key. rewrite cos_calls_cons, cos_calls_one.
        destruct (decide ((id x, id y) = key)) as [<-|Hne]; [|apply Hone].
        rewrite Hc0. lia. }
      split.
      { intros key Hsome.
        assert (Hne : key <> (id x, id y)).
        { intros ->. rewrite Hk in Hsome. by destruct Hsome. }
        destruct (Hold key) as [Hv Hc]; [by rewrite Hne'|].
        rewrite Hv, Hne' by done. split; [done|].
        rewrite cos_calls_cons, cos_calls_one, Hc.
        by rewrite decide_False by congruence. }
      split.
      { intros key Hnone Hno.
        assert (Hne : key <> (id x, id y)).
        { apply Hno. apply elem_of_cons; by left. }
        destruct (Hout key) as [Hv Hc].
        { by rewrite Hne'. }
        { intros y' Hy'. apply Hno. apply elem_of_cons; by right. }
        split; [done|].
        rewrite cos_calls_cons, cos_calls_one, Hc.
        by rewrite decide_False by congruence. }
      intros key Hnone (y' & Hy' & Hkey).
      destruct (decide (key = (id x, id y))) as [->|Hne].
      * split.
        { rewrite cos_calls_cons, cos_calls_one, Hc0. by rewrite decide_True. }
        exists y. split; [apply elem_of_cons; by left|]. done.
      * apply elem_of_cons in Hy' as [->|Hy']; [done|].
        destruct (Hnew key) as (Hc & y'' & Hy'' & Hkey'' & Hv);
          [by rewrite Hne' | by eauto |].
        split.
        { rewrite cos_calls_cons, cos_calls_one, Hc.
          by rewrite decide_False by congruence. }
        exists y''. split; [|done]. apply elem_of_cons; by right.
Qed.

(** C7: computing the diversity score of [x] against a reference set twice,
    with no rebuild in between, returns the same value both times, the sum of
    the cached similarities. The first call invokes the classifier's
    similarity exactly once for each identifier pair of [x] with the set that
    was not cached (the value it stores is the model's similarity for that
    pair), not at all for a pair already cached, whose value it keeps, and
    for no other pair. The second call is served from the cache alone: it
    leaves the world, console included, untouched, whatever model it is
    given. *)
Theorem diversity_is_cached (model model' : svm_model) (data : dataset)
    (x : instance) (w : World) :
  exists v w1 new,
    _compute_div model data x w = Return v w1
    /\ _compute_div model' data x w1 = Return v w1
    /\ console w1 = console w ++ new
    /\ (forall key, (cos_calls key new <= 1)%nat)
    /\ (forall key, is_Some (div_hash (self w) !! key) -> cos_calls key new = 0%nat)
    /\ v = cached_sum (div_hash (self w1)) x (instances data) 0%float
    /\ self w1 = with_div_hash (div_hash (self w1)) (self w)
    /\ (forall y, y ∈ instances data ->
          match div_hash (self w) !! (id x, id y) with
          | Some c =>
              div_hash (self w1) !! (id x, id y) = Some c
              /\ cos_calls (id x, id y) new = 0%nat
          | None =>
              cos_calls (id x, id y) new = 1%nat
              /\ exists y', y' ∈ instances data /\ id y' = id y
                   /\ div_hash (self w1) !! (id x, id y)
                      = Some (compute_cos_between_examples model
                                (inst_point x) (inst_point y'))
          end)
    /\ (forall key, (forall y, y ∈ instances data -> key <> (id x, id y)) ->
          cos_calls key new = 0%nat
          /\ div_hash (self w1) !! key = div_hash (self w) !! key).
Proof.
  unfold _compute_div.
  destruct (_compute_div_pass_exact model x (instances data) 0%float w)
    as (w1 & new & Hrun & Hself & Hrand & Hcon & Hall & Hone & Hold & Hout & Hnew).
  exists (cached_sum (div_hash (self w1)) x (instances data) 0%float), w1, new.
  split; [done|]. split; [by apply _compute_div_cached|].
  split; [done|]. split; [done|].
  split; [intros key Hk; by apply Hold|].
  split; [done|]. split; [done|]. split.
  - intros y Hy.
    destruct (div_hash (self w) !! (id x, id y)) as [c|] eqn:Hk.
    + destruct (Hold (id x, id y)) as [Hv Hc]; [by rewrite Hk|].
      by rewrite Hv, Hk.
    + destruct (Hnew (id x, id y) Hk) as (Hc & y' & Hy' & Hkey & Hv); [by eauto|].
      split; [done|]. exists y'. split; [done|]. split; [congruence|done].
  - intros key Hno.
    destruct (div_hash (self w) !! key) as [c|] eqn:Hk.
    + destruct (Hold key) as [Hv Hc]; [by rewrite Hk|]. by rewrite Hv, Hk.
    + destruct (Hout key Hk Hno) as [Hv Hc]. by rewrite Hv.
Qed.

(** *** Rebuilding the models *)

Lemma train_loop_run (l : list (dataset * svm_parameter)) (acc : list svm_model) w :
  models (self w) = Some acc ->
  for_each l
    (fun dp =>
       let sl := get_samples_and_labels dp.1 in
       emit (Trained (length sl.1)) ;;
       models_append (svm_train sl.2 sl.1 dp.2)) w
  = Return tt
      {| self :=
           with_models
             (Some (acc ++ ((fun dp =>
                               svm_train (lbl <$> instances dp.1)
                                 (inst_point <$> instances dp.1) dp.2) <$> l)))
             (self w);
         random := random w;
         console := console w
                    ++ ((fun dp => Trained (length (instances dp.1))) <$> l) |}.
Proof.
  revert acc w. induction l as [|dp l IH]; intros acc w Hm.
  - simpl. rewrite !app_nil_r. destruct w as [s t c]. simpl in *.
    destruct s; simpl in *. by subst.
  - cbn [for_each].
    erewrite bind_Return; last first.
    { erewrite bind_Return by reflexivity.
      unfold models_append. erewrite bind_Return by reflexivity.
      simpl. rewrite Hm. reflexivity. }
    erewrite (IH (acc ++ [_])); [|by simpl].
    simpl. by rewrite length_fmap, <- !app_assoc.
Qed.

(** [rebuild_models()] on a learner with at least one feature space: it
    returns, the models are those trained on the labeled partitions, and
    nothing else of the learner changes. *)
Lemma rebuild_models_run w :
  labeled_datasets (self w) <> [] ->
  rebuild_models false w
  = Return tt
      {| self := rebuilt (self w);
         random := random w;
         console := console w
                    ++ rebuild_events (labeled_datasets (self w)) (params (self w)) |}.
Proof.
  intros Hne. unfold rebuild_models.
  erewrite bind_Return by reflexivity.
  destruct (labeled_datasets (self w)) as [|d0 rest] eqn:Hl; [done|].
  run.
  erewrite bind_Return; [|by apply (train_loop_run _ [])].
  unfold print, emit, rebuilt, train_all, rebuild_events.
  cbn [self random console]. rewrite Hl.
  f_equal. f_equal. by rewrite <- !app_assoc.
Qed.

Lemma rebuilds_app (l1 l2 : list event) :
  rebuilds (l1 ++ l2) = (rebuilds l1 + rebuilds l2)%nat.
Proof. unfold rebuilds. by rewrite filter_app, length_app. Qed.

Lemma queries_app (l1 l2 : list event) : queries (l1 ++ l2) = queries l1 ++ queries l2.
Proof. apply omap_app. Qed.

Lemma counters_app (l1 l2 : list event) :
  counters (l1 ++ l2) = counters l1 ++ counters l2.
Proof. apply omap_app. Qed.

Lemma trained_events_seen (l : list (dataset * svm_parameter)) :
  let evs := (fun dp : dataset * svm_parameter =>
                Trained (length (instances dp.1))) <$> l in
  queries evs = [] /\ counters evs = [] /\ rebuilds evs = 0%nat.
Proof.
  induction l as [|dp l (Hq & Hc & Hr)]; [done|].
  repeat split; [exact Hq | exact Hc |].
  unfold rebuilds in *. rewrite fmap_cons, filter_cons. exact Hr.
Qed.

Lemma rebuild_events_seen datasets ps :
  datasets <> [] ->
  queries (rebuild_events datasets ps) = []
  /\ counters (rebuild_events datasets ps) = []
  /\ rebuilds (rebuild_events datasets ps) = 1%nat.
Proof.
  intros Hne. destruct datasets as [|d0 rest]; [done|].
  unfold rebuild_events.
  destruct (trained_events_seen (zip (d0 :: rest) ps)) as (Hq & Hc & Hr).
  repeat split.
  - rewrite !queries_app, Hq. done.
  - rewrite !counters_app, Hc. done.
  - rewrite !rebuilds_app, Hr. done.
Qed.

(** *** The active-learning loop (C1, C9) *)

Lemma for_zip_length {A B} (body : A -> B -> A * B) xs ys :
  length (for_zip body xs ys).1 = length xs
  /\ length (for_zip body xs ys).2 = length ys.
Proof.
  revert ys. induction xs as [|x xs IH]; intros [|y ys]; simpl; try done.
  destruct (IH ys) as [-> ->]. done.
Qed.

Lemma after_selection_labeled r s :
  labeled_datasets s <> [] -> labeled_datasets (after_selection r s) <> [].
Proof.
  intros Hne. destruct r as [[|i ids]|]; simpl; try done.
  intros Hnil. apply (f_equal length) in Hnil.
  rewrite (proj2 (for_zip_length _ _ _)) in Hnil.
  by destruct (labeled_datasets s).
Qed.

Lemma label_selected_run r w :
  label_selected r w
  = Return tt {| self := after_selection r (self w);
                 random := random w; console := console w |}.
Proof. destruct w as [s t c]. by destruct r as [[|i ids]|]. Qed.

Lemma number_labeled_run w :
  labeled_datasets (self w) <> [] ->
  exists n, number_labeled w = Return n w.
Proof.
  intros Hne. unfold number_labeled.
  destruct (labeled_datasets (self w)) as [|d0 rest] eqn:Hl; [done|].
  exists (length (instances d0)). run. by rewrite Hl.
Qed.

(** One iteration of the loop, when the strategy returns: what it returned is
    dealt with, the models are rebuilt if asked, and the console shows the
    counter, one query for a batch, and the rebuild if there was one. *)
Lemma active_learn_iteration_run q c N b flag w r w2 :
  q b {| self := self w; random := random w;
         console := console w ++ [Printed (labeled_out_of c N)] |}
  = Return r w2 ->
  labeled_datasets (self w2) <> [] ->
  let s3 := after_selection r (self w2) in
  exists new,
    active_learn_iteration q c N b flag w
    = Return tt {| self := if flag then rebuilt s3 else s3;
                   random := random w2;
                   console := console w ++ new |}
    /\ queries new = [b] /\ counters new = [c]
    /\ rebuilds new = if flag then 1%nat else 0%nat.
Proof.
  intros Hq Hne s3.
  assert (Hne3 : labeled_datasets s3 <> []) by by apply after_selection_labeled.
  unfold active_learn_iteration.
  erewrite bind_Return by reflexivity.
  erewrite bind_Return; [|unfold call_query; cbn [self random console]; by rewrite Hq].
  erewrite bind_Return by apply label_selected_run.
  cbn [self random console]. fold s3.
  destruct flag.
  - erewrite bind_Return; [|apply rebuild_models_run; by cbn [self]].
    cbn [self random console].
    match goal with
    | |- context [bind number_labeled _ ?w0] =>
        destruct (number_labeled_run w0) as [n Hn]; [done|]
    end.
    erewrite bind_Return by exact Hn.
    destruct (rebuild_events_seen (labeled_datasets s3) (params s3) Hne3)
      as (Hrq & Hrc & Hrr).
    eexists. split.
    { unfold print, emit. cbn [self random console].
      rewrite <- !app_assoc. reflexivity. }
    rewrite !queries_app, !counters_app, !rebuilds_app, Hrq, Hrc, Hrr. done.
  - match goal with
    | |- context [bind number_labeled _ ?w0] =>
        destruct (number_labeled_run w0) as [n Hn]; [done|]
    end.
    erewrite bind_Return by exact Hn.
    eexists. split.
    { unfold print, emit. cbn [self random console].
      rewrite <- !app_assoc. reflexivity. }
    done.
Qed.

Lemma ceil_div_spec (n b : Z) :
  (0 < b)%Z -> (b * (ceil_div n b - 1) < n <= b * ceil_div n b)%Z.
Proof.
  intros Hb. unfold ceil_div.
  pose proof (Z.div_mod (n + b - 1) b) as Hdm.
  pose proof (Z.mod_pos_bound (n + b - 1) b Hb) as Hmod. lia.
Qed.

Lemma iterations_done N b c : (0 < b)%Z -> ~ (c < N)%Z -> iterations N b c = 0%nat.
Proof.
  intros Hb Hc. unfold iterations.
  pose proof (ceil_div_spec (N - c) b Hb). nia.
Qed.

Lemma iterations_step N b c :
  (0 < b)%Z -> (c < N)%Z -> iterations N b c = S (iterations N b (c + b)).
Proof.
  intros Hb Hc. unfold iterations.
  pose proof (ceil_div_spec (N - c) b Hb).
  pose proof (ceil_div_spec (N - (c + b)) b Hb).
  assert (ceil_div (N - c) b = ceil_div (N - (c + b)) b + 1)%Z by nia.
  assert (0 <= ceil_div (N - (c + b)) b)%Z by nia.
  lia.
Qed.

(** The loop, given an invariant of its iterations: with fuel for the
    iterations still to make, it returns after exactly that many. *)
Lemma active_learn_loop_runs (Inv : nat -> World -> Prop) q N b flag :
  (0 < b)%Z ->
  (forall i w, (Z.of_nat i * b < N)%Z -> Inv i w ->
     exists w', active_learn_iteration q (Z.of_nat i * b) N b flag w = Return tt w'
                /\ Inv (S i) w') ->
  forall n i fuel w,
    iterations N b (Z.of_nat i * b) = n -> (n <= fuel)%nat -> Inv i w ->
    exists w', active_learn_loop fuel q (Z.of_nat i * b) N b flag w = Return tt w'
               /\ Inv (i + n)%nat w'.
Proof.
  intros Hb Hstep n. induction n as [|n IH]; intros i fuel w Hn Hfuel Hinv.
  - assert (Hc : ~ (Z.of_nat i * b < N)%Z).
    { intros Hc. rewrite (iterations_step N b _ Hb Hc) in Hn. done. }
    exists w. rewrite Nat.add_0_r. split; [|done].
    destruct fuel; simpl; by rewrite (proj2 (Z.ltb_ge _ _)) by lia.
  - assert (Hc : (Z.of_nat i * b < N)%Z).
    { destruct (Z.lt_ge_cases (Z.of_nat i * b) N) as [|Hge]; [done|].
      rewrite iterations_done in Hn by lia. done. }
    destruct fuel as [|fuel]; [lia|].
    destruct (Hstep i w Hc Hinv) as (w1 & Hrun & Hinv1).
    rewrite (iterations_step N b _ Hb Hc) in Hn. injection Hn as Hn.
    replace (Z.of_nat i * b + b)%Z with (Z.of_nat (S i) * b)%Z in Hn by lia.
    destruct (IH (S i) fuel w1 Hn ltac:(lia) Hinv1) as (w' & Hloop & Hinv').
    exists w'. replace (i + S n)%nat with (S i + n)%nat by lia. split; [|done].
    simpl. rewrite (proj2 (Z.ltb_lt _ _) Hc).
    erewrite bind_Return by exact Hrun.
    replace (Z.of_nat i * b + b)%Z with (Z.of_nat (S i) * b)%Z by lia.
    exact Hloop.
Qed.

(** Without a strategy the loop does not get past its first query: the
    default query function raises, and so does [active_learn]. *)
Lemma active_learn_without_strategy fuel N b flag w :
  (0 < N)%Z ->
  active_learn (S fuel) base_q_function N b flag w
  = Raise (Exception "no query function provided!")
      {| self := self w; random := random w;
         console := console w ++ [Printed (labeled_out_of 0 N); Queried b] |}.
Proof.
  intros HN. unfold active_learn.
  apply bind_Raise. simpl. rewrite (proj2 (Z.ltb_lt 0 N) HN).
  apply bind_Raise. unfold active_learn_iteration.
  erewrite bind_Return by reflexivity.
  apply bind_Raise. unfold call_query. simpl. by rewrite <- app_assoc.
Qed.

(** C9: for [N > 0] and [b > 0], whatever the query function returns (a full
    batch, fewer identifiers, none, or nothing at all after labeling by
    itself), as long as it returns, [active_learn(N, b)] asks it for a batch
    exactly [ceil(N/b)] times and then stops: the counter it prints goes
    [0, b, 2b, ...], one step of [b] per iteration, and does not depend on
    what was moved. *)
Theorem active_learn_counts_batches
    (q : Z -> M (option (list Z))) (N b : Z) (flag : bool) (w : World) :
  (0 < N)%Z -> (0 < b)%Z ->
  labeled_datasets (self w) <> [] ->
  (forall k w0, labeled_datasets (self w0) <> [] ->
     exists r w1, q k w0 = Return r w1 /\ labeled_datasets (self w1) <> []) ->
  forall fuel, (Z.to_nat (ceil_div N b) <= fuel)%nat ->
  exists w' new,
    active_learn fuel q N b flag w = Return tt w'
    /\ console w' = console w ++ new
    /\ queries new = replicate (Z.to_nat (ceil_div N b)) b
    /\ counters new
       = (fun i => (Z.of_nat i * b)%Z) <$> seq 0 (Z.to_nat (ceil_div N b)).
Proof.
  intros HN Hb Hne Hq fuel Hfuel.
  set (Inv := fun (i : nat) (w' : World) =>
    labeled_datasets (self w') <> []
    /\ exists new, console w' = console w ++ new
                   /\ queries new = replicate i b
                   /\ counters new = (fun j => (Z.of_nat j * b)%Z) <$> seq 0 i).
  destruct (active_learn_loop_runs Inv q N b flag Hb) with
    (n := Z.to_nat (ceil_div N b)) (i := 0%nat) (fuel := fuel) (w := w)
    as (w1 & Hloop & Hne1 & new & Hcon & Hqs & Hcs).
  - intros i w0 Hc (Hne0 & new & Hcon & Hqs & Hcs).
    destruct (Hq b {| self := self w0; random := random w0;
                      console := console w0
                                 ++ [Printed (labeled_out_of (Z.of_nat i * b) N)] |})
      as (r & w2 & Hrun & Hne2); [done|].
    destruct (active_learn_iteration_run q _ N b flag w0 r w2 Hrun Hne2)
      as (new1 & Hit & Hq1 & Hc1 & _).
    eexists. split; [exact Hit|]. split.
    + cbn [self]. destruct flag; by apply after_selection_labeled.
    + exists (new ++ new1). cbn [console].
      rewrite Hcon, <- app_assoc, queries_app, counters_app, Hqs, Hcs, Hq1, Hc1.
      rewrite replicate_S_end, seq_S, fmap_app. done.
  - unfold iterations. simpl. by rewrite Z.sub_0_r.
  - done.
  - split; [done|]. exists []. by rewrite app_nil_r.
  - unfold active_learn. simpl in Hloop.
    erewrite bind_Return by exact Hloop.
    erewrite bind_Return by (by apply rebuild_models_run).
    destruct (rebuild_events_seen (labeled_datasets (self w1)) (params (self w1)) Hne1)
      as (Hrq & Hrc & _).
    eexists. eexists. split; [reflexivity|].
    cbn [console]. rewrite Hcon, <- !app_assoc. split; [reflexivity|].
    rewrite !queries_app, !counters_app, Hrq, Hrc, Hqs, Hcs.
    simpl. by rewrite !app_nil_r.
Qed.

(** *** Moving examples between partitions *)

Lemma for_zip_zip {A B} (body : A -> B -> A * B) xs ys :
  zip (for_zip body xs ys).1 (for_zip body xs ys).2
  = (fun xy => body xy.1 xy.2) <$> zip xs ys.
Proof.
  revert ys. induction xs as [|x xs IH]; intros [|y ys]; simpl; try done.
  rewrite IH. by destruct (body x y).
Qed.

Lemma for_zip_fst {A B} (body : A -> B -> A * B) xs ys :
  length xs = length ys ->
  (for_zip body xs ys).1 = (fun xy => (body xy.1 xy.2).1) <$> zip xs ys.
Proof.
  revert ys. induction xs as [|x xs IH]; intros [|y ys] Hlen; simpl in *; try done.
  rewrite IH by lia. done.
Qed.

Lemma for_zip_snd {A B} (body : A -> B -> A * B) xs ys :
  length xs = length ys ->
  (for_zip body xs ys).2 = (fun xy => (body xy.1 xy.2).2) <$> zip xs ys.
Proof.
  revert ys. induction xs as [|x xs IH]; intros [|y ys] Hlen; simpl in *; try done.
  rewrite IH by lia. done.
Qed.

Lemma elem_of_id_set i d : i ∈ id_set d <-> i ∈ get_instance_ids d.
Proof. unfold id_set. apply elem_of_list_to_set. Qed.

Lemma get_instance_ids_filter (P : instance -> Prop) `{!forall x, Decision (P x)}
    (l : list instance) i :
  i ∈ id <$> filter P l <-> exists x, x ∈ l /\ P x /\ id x = i.
Proof.
  rewrite list_elem_of_fmap. split.
  - intros (x & -> & Hx). apply list_elem_of_filter in Hx as [? ?]. eauto.
  - intros (x & Hx & HP & <-). exists x. split; [done|].
    apply list_elem_of_filter. done.
Qed.

Lemma NoDup_ids_filter (P : instance -> Prop) `{!forall x, Decision (P x)} l :
  NoDup (id <$> l) -> NoDup (id <$> filter P l).
Proof.
  intros Hnd. eapply sublist_NoDup; [exact Hnd|].
  apply fmap_sublist, sublist_filter.
Qed.

(** Removing distinct identifiers that are all present, from a dataset whose
    identifiers are unique, removes one example per identifier. *)
Lemma length_removed (ids : list Z) (l : list instance) :
  NoDup (id <$> l) -> NoDup ids -> (forall i, i ∈ ids -> i ∈ id <$> l) ->
  length (filter (fun inst => id inst ∈ ids) l) = length ids.
Proof.
  intros Hl Hids Hin.
  rewrite <- (length_fmap id). apply Permutation_length.
  apply NoDup_Permutation; [by apply NoDup_ids_filter | done |].
  intros i. rewrite list_elem_of_fmap. split.
  - intros (x & -> & Hx). by apply list_elem_of_filter in Hx as [? ?].
  - intros Hi. pose proof (Hin i Hi) as Hi'.
    apply list_elem_of_fmap in Hi' as (x & -> & Hx).
    exists x. split; [done|]. by apply list_elem_of_filter.
Qed.

Lemma moved_trans a b s s' s'' :
  moved a s s' -> moved b s' s'' -> moved (a + b) s s''.
Proof.
  intros (Hu & Hl & H1) (Hu' & Hl' & H2).
  split; [congruence|]. split; [congruence|].
  eapply Forall2_trans; [|exact H1|exact H2].
  intros ul ul' ul'' (m1 & Hm1 & Hl1 & Hp1) (m2 & Hm2 & Hl2 & Hp2).
  exists (m1 ++ m2). rewrite length_app, Hl2, Hl1, <- !app_assoc.
  repeat split; [lia|].
  by rewrite Hp1, Hp2.
Qed.

Lemma pool_ok_ids s u :
  pool_ok s -> u ∈ unlabeled_datasets s -> id_set u = pool_ids s.
Proof.
  intros (_ & Hne & _ & Hsame) Hu. unfold pool_ids.
  destruct (unlabeled_datasets s) as [|u0 rest] eqn:Hus; [done|].
  apply Hsame; [done|]. apply elem_of_cons; by left.
Qed.

(** Labeling distinct identifiers of the pool moves that many examples in
    every feature space and leaves a pool that is still well formed. *)
Lemma move_to_labeled_moves (ids : list Z) (s : BaseLearner) :
  pool_ok s -> NoDup ids -> (forall i, i ∈ ids -> i ∈ pool_ids s) ->
  pool_ok (move_to_labeled ids s)
  /\ moved (length ids) s (move_to_labeled ids s)
  /\ pool_size (move_to_labeled ids s) = (pool_size s - Z.of_nat (length ids))%Z.
Proof.
  intros Hok Hnd Hin.
  pose proof Hok as (Hlen & Hne & Hnds & Hsame).
  set (body := fun unlabeled_dataset labeled_dataset : dataset =>
                 ((remove_instances ids unlabeled_dataset).2,
                  add_instances (remove_instances ids unlabeled_dataset).1
                    labeled_dataset)).
  assert (Hus : unlabeled_datasets (move_to_labeled ids s)
                = (fun ul => (body ul.1 ul.2).1)
                    <$> zip (unlabeled_datasets s) (labeled_datasets s))
    by (by apply for_zip_fst).
  assert (Hls : labeled_datasets (move_to_labeled ids s)
                = (fun ul => (body ul.1 ul.2).2)
                    <$> zip (unlabeled_datasets s) (labeled_datasets s))
    by (by apply for_zip_snd).
  assert (Hsp : forall u, u ∈ unlabeled_datasets s ->
            NoDup (id <$> instances u) /\ (forall i, i ∈ ids -> i ∈ id <$> instances u)).
  { intros u Hu. split.
    - by apply (proj1 (Forall_forall _ _) Hnds).
    - intros i Hi. apply (elem_of_id_set i u).
      rewrite (pool_ok_ids s u Hok Hu). by apply Hin. }
  assert (Hlens : length (unlabeled_datasets (move_to_labeled ids s))
                  = length (unlabeled_datasets s)
                  /\ length (labeled_datasets (move_to_labeled ids s))
                     = length (labeled_datasets s))
    by apply for_zip_length.
  destruct Hlens as [Hlu Hll].
  split; [|split].
  - split; [congruence|]. split.
    { intros Hnil. rewrite Hnil in Hlu. by destruct (unlabeled_datasets s). }
    split.
    + rewrite Hus. apply Forall_fmap, Forall_forall. intros [u l] Hul.
      apply elem_of_zip_l in Hul. simpl.
      apply NoDup_ids_filter. by apply Hsp.
    + assert (Hset : forall u', u' ∈ unlabeled_datasets (move_to_labeled ids s) ->
                forall i, i ∈ id_set u' <-> i ∈ pool_ids s /\ i ∉ ids).
      { intros u' Hu' i. rewrite Hus in Hu'.
        apply list_elem_of_fmap in Hu' as ([u l] & -> & Hul).
        apply elem_of_zip_l in Hul. simpl in *.
        rewrite elem_of_id_set. unfold get_instance_ids. simpl.
        rewrite get_instance_ids_filter.
        rewrite <- (pool_ok_ids s u Hok Hul), elem_of_id_set.
        unfold get_instance_ids. rewrite list_elem_of_fmap.
        split.
        - intros (x & Hx & Hnot & <-). split; [eauto|done].
        - intros [(x & -> & Hx) Hnot]. eauto. }
      intros u1 u2 Hu1 Hu2. apply set_eq. intros i.
      rewrite (Hset u1 Hu1 i), (Hset u2 Hu2 i). done.
  - split; [done|]. split; [done|].
    unfold move_to_labeled. simpl. rewrite for_zip_zip.
    apply Forall2_fmap_r, Forall_Forall2_diag, Forall_forall.
    intros [u l] Hul. apply elem_of_zip_l in Hul.
    destruct (Hsp u Hul) as [Hndu Hinu].
    exists (filter (fun inst => id inst ∈ ids) (instances u)). simpl.
    split; [by apply length_removed|]. split; [done|].
    symmetry. apply filter_app_complement.
  - unfold pool_size. rewrite Hus.
    destruct (unlabeled_datasets s) as [|u0 us] eqn:Hu; [done|].
    destruct (labeled_datasets s) as [|l0 ls] eqn:Hl; [done|].
    simpl.
    destruct (Hsp u0) as [Hndu Hinu]; [apply elem_of_cons; by left|].
    pose proof (length_removed ids (instances u0) Hndu Hnd Hinu) as Hrem.
    pose proof (filter_app_complement (fun inst => id inst ∈ ids) (instances u0)) as Hp.
    apply Permutation_length in Hp. rewrite length_app in Hp. lia.
Qed.

Lemma moved_refl s : moved 0 s s.
Proof.
  split; [done|]. split; [done|].
  apply Forall_Forall2_diag, Forall_forall. intros ul _.
  exists []. by rewrite app_nil_r.
Qed.

(** C1: with a batch size [b > 0], a query function that returns exactly [b]
    distinct identifiers of the pool at each call, and a pool holding at
    least [ceil(N/b)*b] examples, [active_learn(N, b)] returns, and exactly
    [ceil(N/b)*b] examples have gone from the unlabeled to the labeled
    partition of every feature space; whatever the per-iteration flag, the
    last thing the call does is one rebuild over the final labeled
    partitions, so the models it leaves are those trained on them. *)
Theorem active_learn_labels_budget
    (q : Z -> M (option (list Z))) (N b : Z) (flag : bool) (w : World) :
  (0 < b)%Z ->
  pool_ok (self w) ->
  (ceil_div N b * b <= pool_size (self w))%Z ->
  selects q b ->
  forall fuel, (Z.to_nat (ceil_div N b) <= fuel)%nat ->
  exists w' before,
    active_learn fuel q N b flag w = Return tt w'
    /\ moved (Z.to_nat (ceil_div N b * b)) (self w) (self w')
    /\ console w'
       = console w ++ before
         ++ rebuild_events (labeled_datasets (self w')) (params (self w'))
         ++ [Printed loop_completed]
    /\ rebuilds before = (if flag then Z.to_nat (ceil_div N b) else 0%nat)
    /\ rebuilds (rebuild_events (labeled_datasets (self w')) (params (self w')))
       = 1%nat
    /\ models (self w')
       = Some (train_all (labeled_datasets (self w')) (params (self w'))).
Proof.
  intros Hb Hok Hpool Hsel fuel Hfuel.
  set (n := Z.to_nat (ceil_div N b)) in *.
  set (Inv := fun (i : nat) (w' : World) =>
    pool_ok (self w')
    /\ pool_size (self w') = (pool_size (self w) - Z.of_nat i * b)%Z
    /\ moved (i * Z.to_nat b) (self w) (self w')
    /\ exists new, console w' = console w ++ new
                   /\ rebuilds new = if flag then i else 0%nat).
  destruct (active_learn_loop_runs Inv q N b flag Hb) with
    (n := n) (i := 0%nat) (fuel := fuel) (w := w)
    as (w1 & Hloop & Hok1 & _ & Hmoved & new & Hcon & Hreb).
  - intros i w0 Hc (Hok0 & Hsize & Hmv & new & Hcon & Hreb).
    pose proof (ceil_div_spec N b Hb) as Hceil.
    set (w0p := {| self := self w0; random := random w0;
                   console := console w0
                              ++ [Printed (labeled_out_of (Z.of_nat i * b) N)] |}).
    destruct (Hsel w0p) as (ids & w2 & Hrun & Hu2 & Hl2 & Hlen & Hnd & Hin);
      [done | unfold w0p; cbn [self];
              assert (Z.of_nat i < ceil_div N b)%Z by nia; nia |].
    unfold w0p in Hu2, Hl2, Hin, Hrun. cbn [self] in Hu2, Hl2, Hin.
    assert (Hok2 : pool_ok (self w2)).
    { unfold pool_ok in *. by rewrite Hu2, Hl2. }
    assert (Hne2 : labeled_datasets (self w2) <> []).
    { destruct Hok2 as (Hlen2 & Hne2 & _). intros Hnil. rewrite Hnil in Hlen2.
      by destruct (unlabeled_datasets (self w2)). }
    destruct (active_learn_iteration_run q _ N b flag w0 (Some ids) w2 Hrun Hne2)
      as (new1 & Hit & _ & _ & Hr1).
    assert (Hsel2 : after_selection (Some ids) (self w2) = move_to_labeled ids (self w2)).
    { destruct ids; [simpl in Hlen; lia | done]. }
    rewrite Hsel2 in Hit.
    destruct (move_to_labeled_moves ids (self w2) Hok2 Hnd) as (Hok3 & Hmv3 & Hsize3).
    { intros j Hj. unfold pool_ids. rewrite Hu2. by apply Hin. }
    eexists. split; [exact Hit|].
    assert (Hparts : forall s3 : BaseLearner,
              unlabeled_datasets (if flag then rebuilt s3 else s3) = unlabeled_datasets s3
              /\ labeled_datasets (if flag then rebuilt s3 else s3) = labeled_datasets s3)
      by (intros s3; by destruct flag).
    destruct (Hparts (move_to_labeled ids (self w2))) as [Hpu Hpl].
    unfold Inv. cbn [self console].
    split; [unfold pool_ok in *; by rewrite Hpu, Hpl|].
    split.
    { unfold pool_size in *. rewrite Hpu, Hsize3, Hu2, Hsize. lia. }
    split.
    { replace (S i * Z.to_nat b)%nat with (i * Z.to_nat b + length ids)%nat by lia.
      eapply moved_trans; [exact Hmv|].
      unfold moved in *. by rewrite Hpu, Hpl, <- Hu2, <- Hl2. }
    exists (new ++ new1). rewrite Hcon, <- app_assoc, rebuilds_app, Hreb, Hr1.
    split; [done|]. destruct flag; lia.
  - unfold iterations. by rewrite Z.mul_0_l, Z.sub_0_r.
  - done.
  - split; [done|]. split; [lia|]. split; [apply moved_refl|].
    exists []. rewrite app_nil_r. by destruct flag.
  - assert (Hne1 : labeled_datasets (self w1) <> []).
    { destruct Hok1 as (Hlen1 & Hne1 & _). intros Hnil. rewrite Hnil in Hlen1.
      by destruct (unlabeled_datasets (self w1)). }
    unfold active_learn. simpl in Hloop, Hmoved.
    erewrite bind_Return by exact Hloop.
    erewrite bind_Return by (by apply rebuild_models_run).
    eexists. exists new. split; [reflexivity|].
    cbn [self console].
    split.
    { assert (Hnb : Z.to_nat (ceil_div N b * b) = (n * Z.to_nat b)%nat).
      { subst n. destruct (Z.le_gt_cases 0 (ceil_div N b)) as [Hpos|Hneg].
        - rewrite Z2Nat.inj_mul by lia. done.
        - rewrite (Z2Nat.nonpos (ceil_div N b)) by lia.
          rewrite Z2Nat.nonpos by nia. done. }
      rewrite Hnb. exact Hmoved. }
    split; [by rewrite Hcon, <- !app_assoc|].
    split; [done|].
    split; [|done].
    by apply (rebuild_events_seen (labeled_datasets (self w1)) (params (self w1))).
Qed.

(** *** Undersampling to balance (C5) *)

Lemma filter_ext_in {A} (P Q : A -> Prop)
    `{!forall x, Decision (P x)} `{!forall x, Decision (Q x)} (l : list A) :
  (forall x, x ∈ l -> P x <-> Q x) -> filter P l = filter Q l.
Proof.
  induction l as [|x l IH]; intros Hpq; [done|].
  rewrite !filter_cons.
  assert (Hx : P x <-> Q x) by (apply Hpq, elem_of_cons; by left).
  rewrite IH by (intros y Hy; apply Hpq, elem_of_cons; by right).
  destruct (decide (P x)), (decide (Q x)); tauto.
Qed.

Lemma NoDup_ids_inj (l : list instance) a b :
  NoDup (id <$> l) -> a ∈ l -> b ∈ l -> id a = id b -> a = b.
Proof.
  induction l as [|x l IH]; intros Hnd Ha Hb Hid; [by apply elem_of_nil in Ha|].
  rewrite fmap_cons in Hnd. apply NoDup_cons in Hnd as [Hx Hnd].
  apply elem_of_cons in Ha as [->|Ha]; apply elem_of_cons in Hb as [->|Hb].
  - done.
  - exfalso. apply Hx. rewrite Hid. by apply list_elem_of_fmap_2.
  - exfalso. apply Hx. rewrite <- Hid. by apply list_elem_of_fmap_2.
  - by apply IH.
Qed.

Lemma NoDup_of_submseteq (l k : list Z) : l ⊆+ k -> NoDup k -> NoDup l.
Proof.
  intros Hsub Hnd. apply submseteq_Permutation in Hsub as [k' Hk].
  rewrite Hk in Hnd. by apply NoDup_app in Hnd as [? _].
Qed.

Lemma same_examples_refl d0 : NoDup (get_instance_ids d0) -> same_examples d0 d0.
Proof.
  intros Hnd. split; [done|]. split; [done|].
  intros a b Ha Hb Hid. by rewrite (NoDup_ids_inj (instances d0) a b).
Qed.

(** The identifiers of a class are the same in a space and in space 0. *)
Lemma class_ids_same d0 d (c : bool) i :
  NoDup (get_instance_ids d0) -> same_examples d0 d ->
  i ∈ id <$> filter (fun x => is_minority x = c) (instances d)
  <-> i ∈ id <$> filter (fun x => is_minority x = c) (instances d0).
Proof.
  intros Hnd0 (Hnd & Hset & Hcls).
  rewrite !get_instance_ids_filter. split.
  - intros (b & Hb & Hc & <-).
    assert (Hi : id b ∈ id_set d0).
    { rewrite <- Hset. apply elem_of_id_set. by apply list_elem_of_fmap_2. }
    apply elem_of_id_set, list_elem_of_fmap in Hi as (a & Hid & Ha).
    exists a. split; [done|]. split; [|done].
    rewrite (Hcls a b); done.
  - intros (a & Ha & Hc & <-).
    assert (Hi : id a ∈ id_set d).
    { rewrite Hset. apply elem_of_id_set. by apply list_elem_of_fmap_2. }
    apply elem_of_id_set, list_elem_of_fmap in Hi as (b & Hid & Hb).
    exists b. split; [done|]. split; [|done].
    rewrite <- (Hcls a b); done.
Qed.

Lemma class_count_same d0 d (c : bool) :
  NoDup (get_instance_ids d0) -> same_examples d0 d ->
  length (id <$> filter (fun x => is_minority x = c) (instances d))
  = length (id <$> filter (fun x => is_minority x = c) (instances d0)).
Proof.
  intros Hnd0 Hsame. apply Permutation_length, NoDup_Permutation.
  - apply NoDup_ids_filter. by destruct Hsame.
  - by apply NoDup_ids_filter.
  - intros i. by apply class_ids_same.
Qed.

(** Removing majority identifiers of space 0, drawn without replacement, from
    a space that holds the same examples. *)
Lemma space_undersampled (picked : list Z) d0 d :
  NoDup (get_instance_ids d0) -> same_examples d0 d ->
  picked ⊆+ majority_ids d0 ->
  (number_of_majority_examples d0 - Z.of_nat (length picked)
   = number_of_minority_examples d0)%Z ->
  undersampled picked
    (number_of_minority_examples d0)
    d {| instances := filter (fun inst => id inst ∉ picked) (instances d) |}.
Proof.
  intros Hnd0 Hsame Hsub Hbal.
  pose proof Hsame as (Hnd & Hset & Hcls).
  assert (Hndp : NoDup picked).
  { eapply NoDup_of_submseteq; [exact Hsub|]. by apply NoDup_ids_filter. }
  assert (Hmaj : forall i, i ∈ picked -> i ∈ majority_ids d).
  { intros i Hi. apply (class_ids_same d0 d false i Hnd0 Hsame).
    eapply elem_of_submseteq; [exact Hi | exact Hsub]. }
  assert (Hcls_picked : forall inst, inst ∈ instances d -> id inst ∈ picked ->
            is_minority inst = false).
  { intros inst Hinst Hi. specialize (Hmaj _ Hi).
    apply get_instance_ids_filter in Hmaj as (b & Hb & Hc & Hid).
    by rewrite <- (NoDup_ids_inj (instances d) b inst Hnd Hb Hinst Hid). }
  split; [done|]. split; [done|].
  split; [|split].
  - simpl.
    pose proof (filter_app_complement (fun inst => id inst ∈ picked) (instances d)) as Hp.
    apply Permutation_length in Hp. rewrite length_app in Hp.
    rewrite (length_removed picked (instances d)) in Hp; [lia | done | done |].
    intros i Hi. specialize (Hmaj _ Hi).
    apply get_instance_ids_filter in Hmaj as (b & Hb & _ & <-).
    by apply list_elem_of_fmap_2.
  - unfold number_of_majority_examples, majority_ids in *. simpl.
    rewrite !length_fmap in *.
    rewrite list_filter_filter.
    rewrite (filter_ext_in _ (fun x => (id x ∉ picked) /\ is_minority x = false)) by tauto.
    rewrite <- list_filter_filter.
    set (L := filter (fun x => is_minority x = false) (instances d)).
    pose proof (filter_app_complement (fun inst => id inst ∈ picked) L) as Hp.
    apply Permutation_length in Hp. rewrite length_app in Hp.
    rewrite (length_removed picked L) in Hp; [| by apply NoDup_ids_filter | done |].
    + pose proof (class_count_same d0 d false Hnd0 Hsame) as Hc.
      rewrite !length_fmap in Hc. fold L in Hc. lia.
    + intros i Hi. by apply Hmaj.
  - unfold number_of_minority_examples, minority_ids. simpl.
    rewrite list_filter_filter.
    rewrite (filter_ext_in _ (fun x => is_minority x = true) (instances d)).
    + pose proof (class_count_same d0 d true Hnd0 Hsame) as Hc. by rewrite Hc.
    + intros x Hx. split; [tauto|]. intros Hmin. split; [done|].
      intros Hi. rewrite (Hcls_picked x Hx Hi) in Hmin. done.
Qed.

(** C5 (as the code has it): on a learner in lockstep (unique identifiers,
    the same examples with the same classes in every feature space) whose
    feature space 0 has [M] majority and [m] minority labeled examples with
    [0 < m < M], [undersample_labeled_datasets()] returns copies from which
    the same [M - m] identifiers, all of the majority class, have been removed
    in every feature space, so that each copy is left with [m] examples of
    each class; the learner, its labeled partitions included, is unchanged. *)
Theorem undersample_balances_copies (w : World) (d0 : dataset) (rest : list dataset) :
  labeled_datasets (self w) = d0 :: rest ->
  (0 < number_of_minority_examples d0 < number_of_majority_examples d0)%Z ->
  NoDup (get_instance_ids d0) ->
  Forall (same_examples d0) rest ->
  exists copies w' removed_ids,
    undersample_labeled_datasets None w = Return copies w'
    /\ self w' = self w
    /\ Z.of_nat (length removed_ids)
       = (number_of_majority_examples d0 - number_of_minority_examples d0)%Z
    /\ NoDup removed_ids
    /\ Forall2 (undersampled removed_ids (number_of_minority_examples d0))
         (d0 :: rest) copies.
Proof.
  intros Hl Hm Hnd0 Hrest.
  assert (Hne : instances d0 <> []).
  { intros Hnil. unfold number_of_minority_examples, minority_ids in Hm.
    rewrite Hnil in Hm. simpl in Hm. lia. }
  pose proof (undersample_labeled_datasets_run None w d0 rest Hl Hne) as Hrun.
  simpl in Hrun. unfold removal_count in Hrun. simpl in Hrun.
  rewrite (proj2 (andb_true_iff _ _)) in Hrun; last first.
  { split; [apply Z.ltb_lt | apply Z.gtb_lt]; lia. }
  destruct Hrun as (picked & w' & Hrun & Hself & Hlen & Hsub).
  assert (Hbal : (number_of_majority_examples d0 - Z.of_nat (length picked)
                  = number_of_minority_examples d0)%Z) by lia.
  assert (Hin0 : forall i, i ∈ picked -> i ∈ id <$> instances d0).
  { intros i Hi. pose proof (elem_of_submseteq _ _ _ Hi Hsub) as Hmaj.
    apply get_instance_ids_filter in Hmaj as (a & Ha & _ & <-).
    by apply list_elem_of_fmap_2. }
  exists ({| instances := filter (fun inst => id inst ∉ picked) (instances d0) |}
          :: ((fun d => {| instances := filter (fun inst => id inst ∉ picked)
                                          (instances d) |}) <$> rest)),
         w', picked.
  split.
  { rewrite Hrun. f_equal. f_equal. apply list_fmap_ext. intros _ d _.
    simpl. f_equal. apply list_filter_iff. intros inst.
    rewrite get_instance_ids_filter. split.
    - intros Hnot Hi. apply Hnot.
      destruct (proj1 (list_elem_of_fmap _ _ _) (Hin0 _ Hi)) as (a & Hid & Ha).
      exists a. rewrite <- Hid. done.
    - intros Hnot (a & _ & Ha & Hid). apply Hnot. by rewrite <- Hid. }
  split; [done|]. split; [lia|]. split.
  { eapply NoDup_of_submseteq; [exact Hsub|]. by apply NoDup_ids_filter. }
  constructor.
  - apply space_undersampled; try done. by apply same_examples_refl.
  - apply Forall2_fmap_r, Forall_Forall2_diag.
    eapply Forall_impl; [exact Hrest|]. intros d Hd. simpl.
    by apply space_undersampled.
Qed.

(** *** Lockstep (C6) *)

#[local] Instance same_partitions_preorder : PreOrder same_partitions.
Proof.
  split.
  - intros w. by unfold same_partitions.
  - intros w1 w2 w3 [? ?] [? ?]. split; congruence.
Qed.

Lemma same_partitions_frame w t c :
  same_partitions w {| self := self w; random := t; console := c |}.
Proof. by unfold same_partitions. Qed.

Lemma same_partitions_keeps_lockstep w w' :
  same_partitions w w' -> keeps_lockstep w w'.
Proof. intros [Hu Hl]. unfold keeps_lockstep, lockstep. by rewrite Hu, Hl. Qed.

Lemma preserves_weaken {A} (R R' : World -> World -> Prop) (c : M A) :
  (forall w w', R w w' -> R' w w') -> preserves R c -> preserves R' c.
Proof.
  intros HR Hc w. specialize (Hc w). destruct (c w); try done; by apply HR.
Qed.

Lemma preserves_ends {A} (R : World -> World -> Prop) (c : M A) :
  preserves R c -> preserves_if_ends R c.
Proof. intros Hc w. specialize (Hc w). by destruct (c w). Qed.

Lemma preserves_if_ends_bind {A B} (R : World -> World -> Prop) `{!Transitive R}
    (c : M A) (k : A -> M B) :
  preserves_if_ends R c -> (forall a, preserves_if_ends R (k a)) ->
  preserves_if_ends R (bind c k).
Proof.
  intros Hc Hk w. unfold bind. specialize (Hc w).
  destruct (c w) as [a w1|e w1|]; try done.
  specialize (Hk a w1). destruct (k a w1); try done; by etrans.
Qed.

Lemma rebuild_models_same_partitions undersample_first :
  preserves same_partitions (rebuild_models undersample_first).
Proof.
  unfold rebuild_models, models_append.
  repeat first
    [ eapply preserves_weaken;
      [|apply undersample_labeled_datasets_same_self];
      intros ? ? Hs; unfold same_self in Hs; unfold same_partitions; by rewrite Hs
    | step_preserves ];
    first [ apply same_partitions_frame | by intros ? ].
Qed.

Lemma id_set_kept (ids : list Z) (l : list instance) :
  id_set {| instances := filter (fun inst => id inst ∉ ids) l |}
  = id_set {| instances := l |} ∖ list_to_set ids.
Proof.
  apply set_eq. intros i.
  rewrite elem_of_difference, !elem_of_id_set, elem_of_list_to_set.
  unfold get_instance_ids. simpl. rewrite get_instance_ids_filter. simpl.
  rewrite list_elem_of_fmap. split.
  - intros (x & Hx & Hnot & <-). eauto.
  - intros [(x & -> & Hx) Hnot]. eauto.
Qed.

Lemma id_set_added (ids : list Z) (l l' : list instance) :
  id_set {| instances := l' ++ filter (fun inst => id inst ∈ ids) l |}
  = id_set {| instances := l' |} ∪ (id_set {| instances := l |} ∩ list_to_set ids).
Proof.
  apply set_eq. intros i.
  rewrite elem_of_union, elem_of_intersection, !elem_of_id_set, elem_of_list_to_set.
  unfold get_instance_ids. simpl. rewrite fmap_app, elem_of_app.
  rewrite get_instance_ids_filter. simpl. split.
  - intros [?|(x & Hx & Hin & <-)]; [by left|right].
    split; [by apply list_elem_of_fmap_2 | done].
  - intros [?|[Hi Hin]]; [by left|right].
    apply list_elem_of_fmap in Hi as (x & -> & Hx). eauto.
Qed.

Lemma id_set_instances d : id_set {| instances := instances d |} = id_set d.
Proof. by destruct d. Qed.

(** Moving identifiers between the partitions of every feature space keeps
    the feature spaces in lockstep, in either direction. *)
Lemma move_to_labeled_lockstep ids s :
  lockstep s -> lockstep (move_to_labeled ids s).
Proof.
  intros (Hlen & Hl & Hu).
  unfold lockstep, move_to_labeled. simpl.
  rewrite for_zip_fst, for_zip_snd by done.
  split; [by rewrite !length_fmap|].
  split; intros d1 d2 Hd1 Hd2;
    apply list_elem_of_fmap in Hd1 as ([u1 l1] & -> & H1);
    apply list_elem_of_fmap in Hd2 as ([u2 l2] & -> & H2);
    pose proof (elem_of_zip_l _ _ _ _ H1); pose proof (elem_of_zip_r _ _ _ _ H1);
    pose proof (elem_of_zip_l _ _ _ _ H2); pose proof (elem_of_zip_r _ _ _ _ H2);
    simpl.
  - unfold add_instances. simpl. rewrite !id_set_added, !id_set_instances.
    by rewrite (Hl l1 l2), (Hu u1 u2).
  - rewrite !id_set_kept, !id_set_instances. by rewrite (Hu u1 u2).
Qed.

Lemma move_to_unlabeled_lockstep ids s :
  lockstep s -> lockstep (move_to_unlabeled ids s).
Proof.
  intros (Hlen & Hl & Hu).
  unfold lockstep, move_to_unlabeled. simpl.
  rewrite for_zip_fst, for_zip_snd by done.
  split; [by rewrite !length_fmap|].
  split; intros d1 d2 Hd1 Hd2;
    apply list_elem_of_fmap in Hd1 as ([u1 l1] & -> & H1);
    apply list_elem_of_fmap in Hd2 as ([u2 l2] & -> & H2);
    pose proof (elem_of_zip_l _ _ _ _ H1); pose proof (elem_of_zip_r _ _ _ _ H1);
    pose proof (elem_of_zip_l _ _ _ _ H2); pose proof (elem_of_zip_r _ _ _ _ H2);
    simpl.
  - rewrite !id_set_kept, !id_set_instances. by rewrite (Hl l1 l2).
  - unfold add_instances. simpl. rewrite !id_set_added, !id_set_instances.
    by rewrite (Hl l1 l2), (Hu u1 u2).
Qed.

(** Restoring the true label of the example at an index changes no
    identifier. *)
Lemma restore_at_ids idx us ls :
  Forall2 (fun l l' => get_instance_ids l' = get_instance_ids l)
    ls (restore_at idx us ls).1.
Proof.
  revert us. induction ls as [|l ls IH]; intros [|u us]; simpl;
    try (apply Forall_Forall2_diag, Forall_forall; done).
  destruct (instances l !! idx) as [inst|] eqn:Hi; simpl.
  - constructor; [|apply IH].
    unfold get_instance_ids. simpl.
    rewrite list_fmap_insert. simpl.
    apply list_insert_id. rewrite list_lookup_fmap, Hi. done.
  - apply Forall_Forall2_diag, Forall_forall; done.
Qed.

Lemma restore_at_lockstep idx s :
  lockstep s ->
  lockstep (with_datasets (unlabeled_datasets s)
              (restore_at idx (unlabeled_datasets s) (labeled_datasets s)).1 s).
Proof.
  intros (Hlen & Hl & Hu).
  pose proof (restore_at_ids idx (unlabeled_datasets s) (labeled_datasets s)) as Hids.
  unfold lockstep. simpl.
  split; [by rewrite <- (Forall2_length _ _ _ Hids)|].
  split; [|done].
  assert (Hback : forall d', d' ∈ (restore_at idx (unlabeled_datasets s)
                                     (labeled_datasets s)).1 ->
            exists d, d ∈ labeled_datasets s /\ id_set d' = id_set d).
  { intros d' Hd'. apply list_elem_of_lookup in Hd' as [i Hi].
    destruct (Forall2_lookup_r _ _ _ _ _ Hids Hi) as (d & Hd & Heq).
    exists d. split; [by eapply list_elem_of_lookup_2|].
    unfold id_set. by rewrite Heq. }
  intros d1 d2 Hd1 Hd2.
  destruct (Hback d1 Hd1) as (e1 & He1 & ->).
  destruct (Hback d2 Hd2) as (e2 & He2 & ->).
  by apply Hl.
Qed.

Lemma label_instances_in_all_datasets_lockstep ids :
  preserves keeps_lockstep (label_instances_in_all_datasets ids).
Proof.
  apply preserves_modify_self. intros w Hw. by apply move_to_labeled_lockstep.
Qed.

Lemma label_all_data_lockstep : preserves keeps_lockstep label_all_data.
Proof.
  unfold label_all_data.
  repeat first [apply label_instances_in_all_datasets_lockstep | step_preserves].
Qed.

Lemma pick_balanced_initial_training_set_lockstep k :
  preserves keeps_lockstep (pick_balanced_initial_training_set k).
Proof.
  unfold pick_balanced_initial_training_set,
    pick_random_minority_instances, pick_random_majority_instances.
  repeat first [apply label_instances_in_all_datasets_lockstep | step_preserves];
    apply keeps_lockstep_frame.
Qed.

Lemma unlabel_instances_lockstep ids :
  preserves keeps_lockstep (unlabel_instances ids).
Proof.
  unfold unlabel_instances.
  apply preserves_bind; [apply _ | apply preserves_get_self; apply _ | intros s].
  apply preserves_bind; [apply _ | apply preserves_index0; apply _ | intros d0].
  apply preserves_bind; [apply _ | | intros _].
  - apply preserves_for_each; [apply _|]. intros x.
    intros w. unfold bind, get_self.
    destruct (labeled_datasets (self w)) as [|d0' rest] eqn:Hl; simpl;
      [by unfold keeps_lockstep|].
    destruct (instances d0' !! x) as [inst|]; simpl; [|by unfold keeps_lockstep].
    destruct (bool_decide (id inst ∈ ids)); simpl; [|by unfold keeps_lockstep].
    rewrite <- Hl.
    destruct (restore_at x (unlabeled_datasets (self w))
                (labeled_datasets (self w))).2; simpl;
      intros Hw; by apply restore_at_lockstep.
  - apply preserves_modify_self. intros w Hw. by apply move_to_unlabeled_lockstep.
Qed.

Lemma active_learn_iteration_lockstep q c N b flag :
  lockstep_strategy q ->
  preserves_if_ends keeps_lockstep (active_learn_iteration q c N b flag).
Proof.
  intros Hq. unfold active_learn_iteration.
  apply preserves_if_ends_bind; [apply _ | |intros _].
  { apply preserves_ends, preserves_emit, keeps_lockstep_frame. }
  apply preserves_if_ends_bind; [apply _ | |intros r].
  { intros w. unfold call_query. specialize (Hq b w).
    destruct (q b w); done. }
  apply preserves_ends.
  assert (Hnum : preserves keeps_lockstep number_labeled)
    by (unfold number_labeled; repeat step_preserves).
  assert (Hreb : preserves keeps_lockstep (rebuild_models false)).
  { eapply preserves_weaken; [|apply rebuild_models_same_partitions].
    apply same_partitions_keeps_lockstep. }
  unfold label_selected.
  repeat first
    [ apply label_instances_in_all_datasets_lockstep
    | apply Hnum | apply Hreb | step_preserves ];
    apply keeps_lockstep_frame.
Qed.

Lemma active_learn_lockstep fuel q N b flag :
  lockstep_strategy q ->
  preserves_if_ends keeps_lockstep (active_learn fuel q N b flag).
Proof.
  intros Hq. unfold active_learn.
  apply preserves_if_ends_bind; [apply _ | |intros _].
  - generalize 0%Z. induction fuel as [|fuel IH]; intros c; simpl.
    + destruct (c <? N)%Z; intros w; simpl; [done | by unfold keeps_lockstep].
    + destruct (c <? N)%Z; [|intros w; simpl; by unfold keeps_lockstep].
      apply preserves_if_ends_bind; [apply _ | |intros _; apply IH].
      by apply active_learn_iteration_lockstep.
  - apply preserves_ends.
    step_preserves.
    + eapply preserves_weaken; [|apply rebuild_models_same_partitions].
      apply same_partitions_keeps_lockstep.
    + step_preserves. apply keeps_lockstep_frame.
Qed.

(** C6: starting from a learner whose feature spaces hold the same
    identifiers (and each has both partitions), every state reached through
    [label_instances_in_all_datasets], [label_all_data], [unlabel_instances],
    [active_learn] (with a strategy that itself keeps the spaces in lockstep)
    and [pick_balanced_initial_training_set], whether the calls return or
    raise, has the same identifier set in the labeled partition of every
    feature space, and the same in the unlabeled partition of every feature
    space. *)
Theorem lockstep_invariant (w0 w : World) :
  lockstep (self w0) ->
  reachable w0 w ->
  (forall di dj, di ∈ labeled_datasets (self w) -> dj ∈ labeled_datasets (self w) ->
                 id_set di = id_set dj)
  /\ (forall di dj, di ∈ unlabeled_datasets (self w) ->
                    dj ∈ unlabeled_datasets (self w) ->
                    id_set di = id_set dj).
Proof.
  intros H0w Hreach.
  cut (lockstep (self w)); [by intros (_ & ? & ?)|].
  induction Hreach as [|w w' op Hreach IH Hadm Hrun]; [done|].
  assert (Hop : preserves_if_ends keeps_lockstep (perform op)).
  { destruct op; simpl in *.
    - apply preserves_ends, label_instances_in_all_datasets_lockstep.
    - apply preserves_ends, label_all_data_lockstep.
    - apply preserves_ends, unlabel_instances_lockstep.
    - by apply active_learn_lockstep.
    - apply preserves_ends.
      repeat first [apply pick_balanced_initial_training_set_lockstep | step_preserves]. }
  specialize (Hop w). destruct (perform op w); simpl in Hrun; try done;
    injection Hrun as <-; by apply Hop.
Qed.

(** *** Strategies and votes used in the examples *)

Lemma take_first_selects (b : Z) : (0 <= b)%Z -> selects take_first b.
Proof.
  intros Hb w Hok Hsize.
  pose proof Hok as (_ & Hne & Hnds & _).
  unfold pool_size, pool_ids in *. unfold take_first, bind, get_self.
  destruct (unlabeled_datasets (self w)) as [|u0 rest] eqn:Hu; [done|].
  simpl. eexists _, w. split; [reflexivity|].
  apply Forall_cons in Hnds as [Hnd0 _].
  repeat split; try done.
  - rewrite length_take. unfold get_instance_ids. rewrite length_fmap. lia.
  - eapply sublist_NoDup; [exact Hnd0|]. apply sublist_take.
  - intros i Hi. apply elem_of_id_set.
    by apply (subseteq_take (Z.to_nat b)).
Qed.

(** With two distinct predicted values, [majority_predict] answers the one
    that comes first in the iteration order of the set, whatever the counts:
    [_arg_max] over two candidates returns index 0 in every case. *)
Lemma majority_predict_two_values m ms X w a b :
  models (self w) = Some (m :: ms) ->
  set_iter ((fun mx => model_predict mx.1 mx.2) <$> zip (m :: ms) X) = [a; b] ->
  majority_predict X w = Return a w.
Proof.
  intros Hm Hset. unfold majority_predict, bind, get_self.
  rewrite Hm, Hset. unfold _arg_max. simpl.
  by destruct (_ >? _)%Z.
Qed.

Lemma take_first_lockstep : lockstep_strategy take_first.
Proof.
  intros k. apply preserves_ends. unfold take_first. repeat step_preserves.
Qed.

(** *** The index [_arg_max] returns *)

(** The state of the loop of [_arg_max] after the positions up to [k] have
    been compared: the value kept is the maximum so far, and the index kept
    is the one before the first position of that maximum (or 0). *)
Lemma _arg_max_loop {A} (f : A -> Z) (ls : list A) x0 k :
  ls !! 0%nat = Some x0 -> (k < length ls)%nat ->
  exists j xj,
    fold_left
      (fun '(return_index, max_val) i =>
         match ls !! (i + 1)%nat with
         | Some y => if (f y >? max_val)%Z then (i, f y) else (return_index, max_val)
         | None => (return_index, max_val)
         end)
      (seq 0 k) (0%nat, f x0)
    = (Nat.pred j, f xj)
    /\ (j <= k)%nat
    /\ ls !! j = Some xj
    /\ (forall i x, (i <= k)%nat -> ls !! i = Some x -> (f x <= f xj)%Z)
    /\ (forall i x, (i < j)%nat -> ls !! i = Some x -> (f x < f xj)%Z).
Proof.
  intros H0 Hk. induction k as [|k IH].
  - exists 0%nat, x0. simpl. repeat split; try done; [|lia].
    intros i x Hi Hx. replace i with 0%nat in Hx by lia. rewrite H0 in Hx.
    injection Hx as ->. lia.
  - destruct IH as (j & xj & Hfold & Hj & Hxj & Hmax & Hfirst); [lia|].
    rewrite seq_S, fold_left_app, Hfold. simpl.
    destruct (lookup_lt_is_Some_2 ls (k + 1)) as [y Hy]; [lia|].
    rewrite Hy. destruct (Z.gtb_spec (f y) (f xj)) as [Hgt|Hle].
    + exists (S k), y. replace (S k) with (k + 1)%nat by lia.
      replace (Nat.pred (k + 1)) with k by lia.
      repeat split; try done.
      * intros i x Hi Hx. destruct (decide (i = k + 1)%nat) as [->|Hne].
        -- rewrite Hy in Hx. injection Hx as ->. lia.
        -- specialize (Hmax i x ltac:(lia) Hx). lia.
      * intros i x Hi Hx. specialize (Hmax i x ltac:(lia) Hx). lia.
    + exists j, xj. repeat split; try done; [lia|].
      intros i x Hi Hx. destruct (decide (i = k + 1)%nat) as [->|Hne].
      * rewrite Hy in Hx. injection Hx as ->. lia.
      * apply (Hmax i x); [lia|done].
Qed.

Lemma _arg_max_run {A} (f : A -> Z) (ls : list A) :
  ls <> [] ->
  exists j, _arg_max ls f = inr (Nat.pred j) /\ first_arg_max f ls j.
Proof.
  intros Hne. destruct ls as [|x0 rest]; [done|].
  destruct (_arg_max_loop f (x0 :: rest) x0 (length (x0 :: rest) - 1) eq_refl)
    as (j & xj & Hfold & Hj & Hxj & Hmax & Hfirst).
  { simpl. lia. }
  exists j. split.
  - unfold _arg_max. by rewrite Hfold.
  - exists xj. split; [done|]. split; [|done].
    intros i x Hx. apply (Hmax i x); [|done].
    apply lookup_lt_Some in Hx. lia.
Qed.

(** X1: [_arg_max(ls, f)] raises [IndexError] on an empty list; on any other
    list it returns the index just before the first position at which [f]
    is maximal, and index 0 when that position is 0. So it is the promised
    index only when the first element is already maximal, and it is never
    the last index of a list of two or more. *)
Theorem _arg_max_is_one_short {A} (f : A -> Z) (ls : list A) :
  (ls = [] -> _arg_max ls f = inl IndexError)
  /\ (ls <> [] ->
      exists j r,
        first_arg_max f ls j
        /\ _arg_max ls f = inr r
        /\ r = Nat.pred j
        /\ (first_arg_max f ls r <-> j = 0%nat)
        /\ ((2 <= length ls)%nat -> (r + 1 < length ls)%nat)).
Proof.
  split; [by intros ->|].
  intros Hne. destruct (_arg_max_run f ls Hne) as (j & Hrun & Hj).
  exists j, (Nat.pred j). repeat split; try done.
  - intros (xr & Hxr & Hmaxr & _).
    destruct Hj as (xj & Hxj & _ & Hfirst).
    destruct j as [|j]; [done|]. simpl in Hxr.
    specialize (Hfirst j xr ltac:(lia) Hxr).
    specialize (Hmaxr (S j) xj Hxj). lia.
  - by intros ->.
  - intros Hlen. destruct Hj as (xj & Hxj & _).
    apply lookup_lt_Some in Hxj. lia.
Qed.

(** *** What the aggregation policies answer *)

Lemma fold_left_max_spec (l : list Z) (x : Z) :
  fold_left Z.max l x ∈ x :: l
  /\ (forall y, y ∈ x :: l -> (y <= fold_left Z.max l x)%Z).
Proof.
  revert x. induction l as [|z l IH]; intros x; simpl.
  - split; [apply elem_of_cons; by left|].
    intros y Hy. apply list_elem_of_singleton in Hy as ->. lia.
  - destruct (IH (Z.max x z)) as [Hin Hmax]. split.
    + apply elem_of_cons in Hin as [Heq|Hin].
      * rewrite Heq. destruct (Z.max_spec x z) as [[_ ->]|[_ ->]].
        -- apply elem_of_cons; right. apply elem_of_cons; by left.
        -- apply elem_of_cons; by left.
      * apply elem_of_cons; right. apply elem_of_cons; by right.
    + intros y Hy.
      assert (Hxz : (Z.max x z <= fold_left Z.max l (Z.max x z))%Z)
        by (apply Hmax, elem_of_cons; by left).
      apply elem_of_cons in Hy as [->|Hy]; [lia|].
      apply elem_of_cons in Hy as [->|Hy]; [lia|].
      apply Hmax, elem_of_cons. by right.
Qed.

Lemma predictions_nonempty m ms (X : list point) :
  X <> [] -> predictions (m :: ms) X <> [].
Proof. by destruct X. Qed.

Lemma cautious_predict_run (w : World) m ms (X : list point) :
  models (self w) = Some (m :: ms) -> X <> [] ->
  exists v,
    cautious_predict X w = Return v w
    /\ v ∈ predictions (m :: ms) X
    /\ (forall v', v' ∈ predictions (m :: ms) X -> (v' <= v)%Z).
Proof.
  intros Hm HX. unfold cautious_predict, bind, get_self. rewrite Hm.
  fold (predictions (m :: ms) X).
  pose proof (predictions_nonempty m ms X HX) as Hne.
  destruct (predictions (m :: ms) X) as [|v0 l]; [done|].
  destruct (fold_left_max_spec l v0) as [Hin Hmax].
  exists (fold_left Z.max l v0). by repeat split.
Qed.

(** X2: with at least one model built, [cautious_predict(X)] answers the
    largest of the labels the models predict for the feature vectors of [X]
    (a label one of them did predict, and none predicted a larger one) and
    leaves the learner as it was; with no feature vector it raises
    [ValueError]. *)
Theorem cautious_predict_is_max (w : World) m ms (X : list point) :
  models (self w) = Some (m :: ms) ->
  (X = [] -> cautious_predict X w = Raise ValueError w)
  /\ (X <> [] ->
      exists v,
        cautious_predict X w = Return v w
        /\ v ∈ predictions (m :: ms) X
        /\ (forall v', v' ∈ predictions (m :: ms) X -> (v' <= v)%Z)).
Proof.
  intros Hm. split.
  - intros ->. unfold cautious_predict, bind, get_self. by rewrite Hm.
  - intros HX. by apply cautious_predict_run.
Qed.

(** X3: with at least one model built and a set whose iteration lists the
    votes, [majority_predict(X)] answers a label that one of the models
    predicted, so a unanimous vote is answered as it is, and leaves the
    learner as it was; with no feature vector it raises [IndexError]. *)
Theorem majority_predict_answers_a_vote (w : World) m ms (X : list point) :
  models (self w) = Some (m :: ms) ->
  (forall v, v ∈ set_iter (predictions (m :: ms) X) <-> v ∈ predictions (m :: ms) X) ->
  (X = [] -> majority_predict X w = Raise IndexError w)
  /\ (X <> [] ->
      exists v,
        majority_predict X w = Return v w
        /\ v ∈ predictions (m :: ms) X
        /\ (forall v0, (forall v', v' ∈ predictions (m :: ms) X -> v' = v0) -> v = v0)).
Proof.
  intros Hm Hset. unfold majority_predict, bind, get_self. rewrite Hm.
  fold (predictions (m :: ms) X).
  split.
  - intros ->. change (predictions (m :: ms) []) with ([] : list Z) in *.
    destruct (set_iter []) as [|v l] eqn:Hs; [done|].
    exfalso. apply (elem_of_nil v), Hset, elem_of_cons. by left.
  - intros HX. pose proof (predictions_nonempty m ms X HX) as Hne.
    assert (Hsne : set_iter (predictions (m :: ms) X) <> []).
    { intros Hnil. destruct (predictions (m :: ms) X) as [|v0 l] eqn:Hp; [done|].
      apply (elem_of_nil v0). rewrite <- Hnil. apply Hset, elem_of_cons. by left. }
    destruct (_arg_max_run (fun x => count (predictions (m :: ms) X) x) _ Hsne)
      as (j & Hrun & (xj & Hxj & _)).
    rewrite Hrun. simpl.
    destruct (lookup_lt_is_Some_2 (set_iter (predictions (m :: ms) X)) (Nat.pred j))
      as [v Hv].
    { apply lookup_lt_Some in Hxj. lia. }
    rewrite Hv. exists v.
    assert (Hin : v ∈ predictions (m :: ms) X).
    { apply Hset. by eapply list_elem_of_lookup_2. }
    split; [done|]. split; [done|]. intros v0 Hall. by apply Hall.
Qed.

Lemma cpython_set_iter_binary_from (votes : list Z) (a b : bool) :
  binary votes ->
  foldl (fun acc v => insert_by_slot v acc) (binary_set a b) votes
  = binary_set (a || bool_decide (1%Z ∈ votes)) (b || bool_decide ((-1)%Z ∈ votes)).
Proof.
  intros Hbin. revert a b. induction Hbin as [|v votes Hv Hbin IH]; intros a b.
  - simpl. by rewrite !orb_false_r.
  - simpl. destruct Hv as [-> | ->].
    + replace (insert_by_slot 1 (binary_set a b)) with (binary_set true b)
        by (by destruct a, b).
      rewrite IH. f_equal.
      * rewrite (bool_decide_true (1%Z ∈ 1%Z :: votes)) by (apply elem_of_cons; by left).
        by rewrite orb_true_r.
      * f_equal. apply bool_decide_ext. rewrite elem_of_cons.
        split; [by right|]. by intros [?|?].
    + replace (insert_by_slot (-1) (binary_set a b)) with (binary_set a true)
        by (by destruct a, b).
      rewrite IH. f_equal.
      * f_equal. apply bool_decide_ext. rewrite elem_of_cons.
        split; [by right|]. by intros [?|?].
      * rewrite (bool_decide_true ((-1)%Z ∈ (-1)%Z :: votes))
          by (apply elem_of_cons; by left).
        by rewrite orb_true_r.
Qed.

Lemma cpython_set_iter_binary (votes : list Z) :
  binary votes ->
  cpython_set_iter votes
  = binary_set (bool_decide (1%Z ∈ votes)) (bool_decide ((-1)%Z ∈ votes)).
Proof. intros Hbin. apply (cpython_set_iter_binary_from votes false false Hbin). Qed.

(** X4: under CPython, on votes in the binary encoding, [majority_predict]
    answers +1 as soon as one model votes +1, however many vote -1, and -1
    only when all vote -1: it answers exactly what [cautious_predict]
    answers. *)
Theorem majority_predict_is_cautious_on_binary_votes
    (w : World) m ms (X : list point) :
  models (self w) = Some (m :: ms) ->
  X <> [] ->
  binary (predictions (m :: ms) X) ->
  exists v,
    majority_predict (runtime := cpython) X w = Return v w
    /\ cautious_predict X w = Return v w
    /\ (v = 1%Z <-> 1%Z ∈ predictions (m :: ms) X)
    /\ (v = (-1)%Z <-> 1%Z ∉ predictions (m :: ms) X).
Proof.
  intros Hm HX Hbin.
  destruct (cautious_predict_run w m ms X Hm HX) as (v & Hcau & Hin & Hmax).
  assert (Hv : v = 1%Z \/ v = (-1)%Z)
    by (by apply (proj1 (Forall_forall _ _) Hbin)).
  assert (Hpos : v = 1%Z <-> 1%Z ∈ predictions (m :: ms) X).
  { split; [by intros <-|]. intros H1. specialize (Hmax _ H1). lia. }
  exists v. split; [|split; [done|split; [done|]]]; last first.
  { rewrite <- Hpos. lia. }
  unfold majority_predict, bind, get_self. rewrite Hm.
  fold (predictions (m :: ms) X). cbn [set_iter cpython].
  rewrite (cpython_set_iter_binary _ Hbin).
  destruct (bool_decide (1%Z ∈ predictions (m :: ms) X)) eqn:H1.
  - apply bool_decide_eq_true in H1. apply Hpos in H1 as ->.
    destruct (bool_decide ((-1)%Z ∈ predictions (m :: ms) X));
      unfold binary_set, _arg_max; simpl; [by destruct (_ >? _)%Z | done].
  - apply bool_decide_eq_false in H1.
    assert (v = (-1)%Z) as -> by (rewrite <- Hpos in H1; lia).
    rewrite (bool_decide_true _ Hin). done.
Qed.

(** *** The similarity cache, entry by entry *)

(** X5: [_compute_cos(model, x, y)] memoises on the identifier pair. On a
    miss it calls the model once, stores the value under the pair and
    answers it; on a hit it answers the stored value and changes nothing.
    Either way a second call, with any model, answers the same value without
    touching the world, and the distance cache is never involved. *)
Theorem _compute_cos_memoises (model model' : svm_model) (x y : instance) (w : World) :
  exists v w1,
    _compute_cos model x y w = Return v w1
    /\ _compute_cos model' x y w1 = Return v w1
    /\ div_hash (self w1) !! (id x, id y) = Some v
    /\ dist_hash (self w1) = dist_hash (self w)
    /\ match div_hash (self w) !! (id x, id y) with
       | Some v0 => v = v0 /\ w1 = w
       | None =>
           v = compute_cos_between_examples model (inst_point x) (inst_point y)
           /\ console w1 = console w ++ [Cos_computed (id x, id y)]
           /\ div_hash (self w1) = <[(id x, id y) := v]> (div_hash (self w))
       end.
Proof.
  destruct (div_hash (self w) !! (id x, id y)) as [v0|] eqn:Hk.
  - exists v0, w. rewrite !(_compute_cos_cached _ x y v0 w Hk). done.
  - eexists _, _. split.
    { unfold _compute_cos, bind, get_self, has_key, hash_get. rewrite Hk. simpl.
      rewrite lookup_insert_eq. reflexivity. }
    split.
    { apply _compute_cos_cached. simpl. by rewrite lookup_insert_eq. }
    simpl. by rewrite lookup_insert_eq.
Qed.

(** X6: after [_compute_div(model, data, x)] every pair of [x] with an
    example of [data] is in the cache, the value returned is the sum, from
    0.0 and in the order of [data], of the cached values, and
    [_compute_cos], with any model, answers each of those pairs from the
    cache without touching the world. *)
Theorem _compute_div_fills_the_cache (model model' : svm_model) (data : dataset)
    (x : instance) (w : World) :
  exists v w1,
    _compute_div model data x w = Return v w1
    /\ v = cached_sum (div_hash (self w1)) x (instances data) 0%float
    /\ (forall y, y ∈ instances data ->
          exists c, div_hash (self w1) !! (id x, id y) = Some c
                    /\ _compute_cos model' x y w1 = Return c w1).
Proof.
  unfold _compute_div.
  destruct (_compute_div_pass model x (instances data) 0%float w)
    as (w1 & new & Hrun & Hsub & Hall & _).
  eexists _, w1. split; [exact Hrun|]. split; [done|].
  intros y Hy. destruct (Hall y Hy) as [c Hc].
  exists c. split; [done|]. by apply _compute_cos_cached.
Qed.

(** *** The distance cache and the minimum distance *)

Lemma dist_calls_app key (l1 l2 : list event) :
  dist_calls key (l1 ++ l2) = (dist_calls key l1 + dist_calls key l2)%nat.
Proof. unfold dist_calls. by rewrite filter_app, length_app. Qed.

Lemma dist_calls_cons key e (l : list event) :
  dist_calls key (e :: l) = (dist_calls key [e] + dist_calls key l)%nat.
Proof. apply (dist_calls_app key [e] l). Qed.

Lemma dist_calls_one key key' :
  dist_calls key [Dist_computed key'] = if decide (key' = key) then 1%nat else 0%nat.
Proof.
  unfold dist_calls. rewrite filter_cons, filter_nil.
  destruct (decide (key' = key)) as [->|Hne].
  - by rewrite decide_True.
  - rewrite decide_False; [done|]. congruence.
Qed.

Lemma _get_dist_from_l_unfold model data x :
  _get_dist_from_l model data x
  = fold_each (instances data) None (_get_dist_from_l_step model x).
Proof. reflexivity. Qed.

Lemma _get_dist_from_l_step_run model x min_dist y w :
  let key := (id x, id y) in
  match dist_hash (self w) !! key with
  | Some d => _get_dist_from_l_step model x min_dist y w = Return (closer min_dist d) w
  | None =>
      let d := compute_dist_between_examples model (inst_point x) (inst_point y) in
      _get_dist_from_l_step model x min_dist y w
      = Return (closer min_dist d)
          {| self := with_dist_hash (<[key := d]> (dist_hash (self w))) (self w);
             random := random w;
             console := console w ++ [Dist_computed key] |}
  end.
Proof.
  intros key. unfold _get_dist_from_l_step, closer, bind, get_self, has_key, hash_get.
  destruct (dist_hash (self w) !! key) as [d|] eqn:Hk; subst key; rewrite Hk; simpl.
  - rewrite Hk. unfold ret. simpl. by destruct (_ || _).
  - rewrite lookup_insert_eq. unfold ret. simpl. by destruct (_ || _).
Qed.

Lemma _get_dist_from_l_pass model x ys acc w :
  exists w1 new,
    fold_each ys acc (_get_dist_from_l_step model x) w
    = Return (cached_min (dist_hash (self w1)) x ys acc) w1
    /\ dist_hash (self w) ⊆ dist_hash (self w1)
    /\ (forall y, y ∈ ys -> is_Some (dist_hash (self w1) !! (id x, id y)))
    /\ div_hash (self w1) = div_hash (self w)
    /\ console w1 = console w ++ new
    /\ (forall key, (dist_calls key new <= 1)%nat)
    /\ (forall key, is_Some (dist_hash (self w) !! key) -> dist_calls key new = 0%nat).
Proof.
  revert acc w. induction ys as [|y ys IH]; intros acc w; simpl.
  - exists w, []. rewrite app_nil_r. repeat split; try done.
    + intros y Hy. by apply elem_of_nil in Hy.
    + intros key. unfold dist_calls. simpl. lia.
  - pose proof (_get_dist_from_l_step_run model x acc y w) as Hstep. simpl in Hstep.
    unfold bind at 1.
    destruct (dist_hash (self w) !! (id x, id y)) as [d|] eqn:Hk; rewrite Hstep.
    + destruct (IH (closer acc d) w)
        as (w1 & new & Hrun & Hsub & Hall & Hdiv & Hcon & Hone & Hzero).
      exists w1, new. rewrite Hrun.
      assert (Hk1 : dist_hash (self w1) !! (id x, id y) = Some d)
        by (by eapply lookup_weaken).
      unfold cached_min at 2. simpl. rewrite Hk1. simpl.
      repeat split; try done.
      intros y' [->|Hy']%elem_of_cons; [by rewrite Hk1 | by apply Hall].
    + set (d := compute_dist_between_examples model (inst_point x) (inst_point y)).
      set (w' := {| self := _; random := _; console := _ |}).
      destruct (IH (closer acc d) w')
        as (w1 & new & Hrun & Hsub & Hall & Hdiv & Hcon & Hone & Hzero).
      assert (Hk' : dist_hash (self w') !! (id x, id y) = Some d)
        by (simpl; by rewrite lookup_insert_eq).
      assert (Hk1 : dist_hash (self w1) !! (id x, id y) = Some d)
        by (by eapply lookup_weaken).
      exists w1, (Dist_computed (id x, id y) :: new). rewrite Hrun.
      unfold cached_min at 2. simpl. rewrite Hk1. simpl.
      repeat split; try done.
      * etrans; [|exact Hsub]. simpl. by apply insert_subseteq.
      * intros y' [->|Hy']%elem_of_cons; [by rewrite Hk1 | by apply Hall].
      * rewrite Hcon. simpl. by rewrite <- app_assoc.
      * intros key. rewrite dist_calls_cons, dist_calls_one.
        destruct (decide ((id x, id y) = key)) as [<-|Hne]; [|apply Hone].
        rewrite Hzero; [lia|]. by rewrite Hk'.
      * intros key [v Hv].
        rewrite dist_calls_cons, dist_calls_one.
        destruct (decide ((id x, id y) = key)) as [<-|Hne]; [congruence|].
        rewrite Hzero; [lia|]. simpl. rewrite lookup_insert_ne; by eauto.
Qed.

Lemma _get_dist_from_l_cached model x ys acc w :
  (forall y, y ∈ ys -> is_Some (dist_hash (self w) !! (id x, id y))) ->
  fold_each ys acc (_get_dist_from_l_step model x) w
  = Return (cached_min (dist_hash (self w)) x ys acc) w.
Proof.
  revert acc. induction ys as [|y ys IH]; intros acc Hall; simpl; [done|].
  pose proof (_get_dist_from_l_step_run model x acc y w) as Hstep. simpl in Hstep.
  destruct (Hall y) as [v Hv]; [apply elem_of_cons; by left|].
  unfold bind at 1. rewrite Hv in Hstep. rewrite Hstep, IH.
  - unfold cached_min at 2. simpl. by rewrite Hv.
  - intros y' Hy'. apply Hall. apply elem_of_cons; by right.
Qed.

(** A pass of [_get_dist_from_l], pair by pair: what it leaves in the cache
    and how often it calls the model. *)
Lemma _get_dist_from_l_pass_exact model x ys acc w :
  exists w1 new,
    fold_each ys acc (_get_dist_from_l_step model x) w
    = Return (cached_min (dist_hash (self w1)) x ys acc) w1
    /\ self w1 = with_dist_hash (dist_hash (self w1)) (self w)
    /\ random w1 = random w
    /\ console w1 = console w ++ new
    /\ (forall y, y ∈ ys -> is_Some (dist_hash (self w1) !! (id x, id y)))
    /\ (forall key, (dist_calls key new <= 1)%nat)
    /\ (forall key, is_Some (dist_hash (self w) !! key) ->
          dist_hash (self w1) !! key = dist_hash (self w) !! key
          /\ dist_calls key new = 0%nat)
    /\ (forall key, dist_hash (self w) !! key = None ->
          (forall y, y ∈ ys -> key <> (id x, id y)) ->
          dist_hash (self w1) !! key = None /\ dist_calls key new = 0%nat)
    /\ (forall key, dist_hash (self w) !! key = None ->
          (exists y, y ∈ ys /\ key = (id x, id y)) ->
          dist_calls key new = 1%nat
          /\ exists y, y ∈ ys /\ key = (id x, id y)
               /\ dist_hash (self w1) !! key
                  = Some (compute_dist_between_examples model
                            (inst_point x) (inst_point y))).
Proof.
  revert acc w. induction ys as [|y ys IH]; intros acc w; simpl.
  - exists w, []. rewrite app_nil_r.
    split; [done|]. split; [by destruct w as [[] ? ?]|].
    split; [done|]. split; [done|].
    split; [intros y Hy; by apply elem_of_nil in Hy|].
    split; [intros key; unfold dist_calls; simpl; lia|].
    split; [done|]. split; [done|].
    intros key _ (y & Hy & _). by apply elem_of_nil in Hy.
  - pose proof (_get_dist_from_l_step_run model x acc y w) as Hstep. simpl in Hstep.
    unfold bind at 1.
    destruct (dist_hash (self w) !! (id x, id y)) as [v|] eqn:Hk; rewrite Hstep.
    + destruct (IH (closer acc v) w)
        as (w1 & new & Hrun & Hself & Hrand & Hcon & Hall & Hone & Hold & Hout & Hnew).
      assert (Hk1 : dist_hash (self w1) !! (id x, id y) = Some v).
      { rewrite <- Hk. apply Hold. by rewrite Hk. }
      exists w1, new. rewrite Hrun.
      unfold cached_min at 2. simpl. rewrite Hk1. simpl.
      split; [done|]. split; [done|]. split; [done|]. split; [done|].
      split.
      { intros y' [->|Hy']%elem_of_cons; [by rewrite Hk1 | by apply Hall]. }
      split; [done|]. split; [done|]. split.
      { intros key Hnone Hno. apply Hout; [done|].
        intros y' Hy'. apply Hno. apply elem_of_cons; by right. }
      intros key Hnone (y' & Hy' & Hkey).
      apply elem_of_cons in Hy' as [->|Hy']; [congruence|].
      destruct (Hnew key Hnone) as (Hc & y'' & Hy'' & Hkey'' & Hv); [by eauto|].
      split; [done|]. exists y''. split; [|done]. apply elem_of_cons; by right.
    + set (c := compute_dist_between_examples model (inst_point x) (inst_point y)).
      set (w' := {| self := _; random := _; console := _ |}).
      destruct (IH (closer acc c) w')
        as (w1 & new & Hrun & Hself & Hrand & Hcon & Hall & Hone & Hold & Hout & Hnew).
      assert (Hk' : dist_hash (self w') !! (id x, id y) = Some c)
        by (simpl; by rewrite lookup_insert_eq).
      assert (Hne' : forall key, key <> (id x, id y) ->
                dist_hash (self w') !! key = dist_hash (self w) !! key).
      { intros key Hne. simpl. by rewrite lookup_insert_ne. }
      destruct (Hold (id x, id y)) as [Hk1 Hc0]; [by rewrite Hk'|].
      rewrite Hk' in Hk1.
      exists w1, (Dist_computed (id x, id y) :: new). rewrite Hrun.
      unfold cached_min at 2. simpl. rewrite Hk1. simpl.
      split; [done|].
      split; [rewrite Hself; by destruct w as [[] ? ?]|].
      split; [done|].
      split; [rewrite Hcon; simpl; by rewrite <- app_assoc|].
      split.
      { intros y' [->|Hy']%elem_of_cons; [by rewrite Hk1 | by apply Hall]. }
      split.
      { intros key. rewrite dist_calls_cons, dist_calls_one.
        destruct (decide ((id x, id y) = key)) as [<-|Hne]; [|apply Hone].
        rewrite Hc0. lia. }
      split.
      { intros key Hsome.
        assert (Hne : key <> (id x, id y)).
        { intros ->. rewrite Hk in Hsome. by destruct Hsome. }
        destruct (Hold key) as [Hv Hc]; [by rewrite Hne'|].
        rewrite Hv, Hne' by done. split; [done|].
        rewrite dist_calls_cons, dist_calls_one, Hc.
        by rewrite decide_False by congruence. }
      split.
      { intros key Hnone Hno.
        assert (Hne : key <> (id x, id y)).
        { apply Hno. apply elem_of_cons; by left. }
        destruct (Hout key) as [Hv Hc].
        { by rewrite Hne'. }
        { intros y' Hy'. apply Hno. apply elem_of_cons; by right. }
        split; [done|].
        rewrite dist_calls_cons, dist_calls_one, Hc.
        by rewrite decide_False by congruence. }
      intros key Hnone (y' & Hy' & Hkey).
      destruct (decide (key = (id x, id y))) as [->|Hne].
      * split.
        { rewrite dist_calls_cons, dist_calls_one, Hc0. by rewrite decide_True. }
        exists y. split; [apply elem_of_cons; by left|]. done.
      * apply elem_of_cons in Hy' as [->|Hy']; [done|].
        destruct (Hnew key) as (Hc & y'' & Hy'' & Hkey'' & Hv);
          [by rewrite Hne' | by eauto |].
        split.
        { rewrite dist_calls_cons, dist_calls_one, Hc.
          by rewrite decide_False by congruence. }
        exists y''. split; [|done]. apply elem_of_cons; by right.
Qed.

(** X7: [_get_dist_from_l(model, data, x)] memoises on the identifier pair in
    [dist_hash] and touches nothing else of the learner. The first call
    invokes the model's distance exactly once for each identifier pair of
    [x] with the reference set that was not cached, and stores the model's
    distance for that pair; a pair already cached costs no call and keeps
    its value; no other pair is touched. What it returns is computed from
    the cached distances, and a second call, with any model, returns the
    same result and leaves the world untouched. *)
Theorem _get_dist_from_l_is_cached (model model' : svm_model) (data : dataset)
    (x : instance) (w : World) :
  exists r w1 new,
    _get_dist_from_l model data x w = Return r w1
    /\ _get_dist_from_l model' data x w1 = Return r w1
    /\ div_hash (self w1) = div_hash (self w)
    /\ console w1 = console w ++ new
    /\ (forall key, (dist_calls key new <= 1)%nat)
    /\ (forall key, is_Some (dist_hash (self w) !! key) -> dist_calls key new = 0%nat)
    /\ r = cached_min (dist_hash (self w1)) x (instances data) None
    /\ self w1 = with_dist_hash (dist_hash (self w1)) (self w)
    /\ (forall y, y ∈ instances data ->
          match dist_hash (self w) !! (id x, id y) with
          | Some d =>
              dist_hash (self w1) !! (id x, id y) = Some d
              /\ dist_calls (id x, id y) new = 0%nat
          | None =>
              dist_calls (id x, id y) new = 1%nat
              /\ exists y', y' ∈ instances data /\ id y' = id y
                   /\ dist_hash (self w1) !! (id x, id y)
                      = Some (compute_dist_between_examples model
                                (inst_point x) (inst_point y'))
          end)
    /\ (forall key, (forall y, y ∈ instances data -> key <> (id x, id y)) ->
          dist_calls key new = 0%nat
          /\ dist_hash (self w1) !! key = dist_hash (self w) !! key).
Proof.
  rewrite !_get_dist_from_l_unfold.
  destruct (_get_dist_from_l_pass_exact model x (instances data) None w)
    as (w1 & new & Hrun & Hself & Hrand & Hcon & Hall & Hone & Hold & Hout & Hnew).
  exists (cached_min (dist_hash (self w1)) x (instances data) None), w1, new.
  split; [done|]. split; [by apply _get_dist_from_l_cached|].
  split; [by rewrite Hself|]. split; [done|]. split; [done|].
  split; [intros key Hk; by apply Hold|].
  split; [done|]. split; [done|]. split.
  - intros y Hy.
    destruct (dist_hash (self w) !! (id x, id y)) as [c|] eqn:Hk.
    + destruct (Hold (id x, id y)) as [Hv Hc]; [by rewrite Hk|].
      by rewrite Hv, Hk.
    + destruct (Hnew (id x, id y) Hk) as (Hc & y' & Hy' & Hkey & Hv); [by eauto|].
      split; [done|]. exists y'. split; [done|]. split; [congruence|done].
  - intros key Hno.
    destruct (dist_hash (self w) !! key) as [c|] eqn:Hk.
    + destruct (Hold key) as [Hv Hc]; [by rewrite Hk|]. by rewrite Hv, Hk.
    + destruct (Hout key Hk Hno) as [Hv Hc]. by rewrite Hv.
Qed.

Lemma closer_cases (m : option float) (d : float) :
  closer m d = Some d
  \/ exists m', m = Some m' /\ closer m d = Some m' /\ PrimFloat.eqb m' 0%float = false.
Proof.
  unfold closer. destruct m as [m'|]; simpl; [|by left].
  destruct (PrimFloat.eqb m' 0%float) eqn:Hz; simpl; [by left|].
  destruct (PrimFloat.ltb d m'); [by left|]. right. by exists m'.
Qed.

Lemma cached_min_snoc h x ys y acc :
  cached_min h x (ys ++ [y]) acc
  = closer (cached_min h x ys acc) (default 0%float (h !! (id x, id y))).
Proof. unfold cached_min. by rewrite foldl_app. Qed.

Lemma cached_min_result h x ys :
  (forall y, y ∈ ys -> is_Some (h !! (id x, id y))) ->
  ys <> [] ->
  exists d y,
    cached_min h x ys None = Some d
    /\ y ∈ ys
    /\ h !! (id x, id y) = Some d
    /\ (PrimFloat.eqb d 0%float = true ->
        exists ys' y', ys = ys' ++ [y'] /\ h !! (id x, id y') = Some d).
Proof.
  induction ys as [|y' ys' IH] using rev_ind; intros Hall Hne; [done|].
  destruct (Hall y') as [d' Hd']; [apply elem_of_app; right; by apply elem_of_cons; left|].
  rewrite cached_min_snoc, Hd'. simpl.
  destruct (closer_cases (cached_min h x ys' None) d')
    as [Hc | (m' & Hm & Hc & Hnz)]; rewrite Hc.
  - exists d', y'. split; [done|].
    split; [apply elem_of_app; right; by apply elem_of_cons; left|].
    split; [done|]. intros _. by exists ys', y'.
  - destruct ys' as [|y0 ys0]; [done|].
    destruct IH as (d & y & Hmin & Hy & Hd & _); [|done|].
    { intros y Hy. apply Hall. apply elem_of_app. by left. }
    rewrite Hm in Hmin. injection Hmin as <-.
    exists m', y. split; [done|]. split; [apply elem_of_app; by left|].
    split; [done|]. intros Hz. congruence.
Qed.

(** X8: [_get_dist_from_l(model, data, x)] returns [None] for an empty
    reference set and otherwise the cached distance of [x] to one of its
    examples. A distance equal to zero is returned only when it is the
    distance to the last example of the set: as [not min_dist] also holds for
    0.0, a zero found earlier is replaced by the distance that follows it. *)
Theorem _get_dist_from_l_result (model : svm_model) (data : dataset)
    (x : instance) (w : World) :
  exists r w1,
    _get_dist_from_l model data x w = Return r w1
    /\ (instances data = [] -> r = None /\ w1 = w)
    /\ (instances data <> [] ->
        exists d y,
          r = Some d
          /\ y ∈ instances data
          /\ dist_hash (self w1) !! (id x, id y) = Some d
          /\ (PrimFloat.eqb d 0%float = true ->
              exists ys y', instances data = ys ++ [y']
                            /\ dist_hash (self w1) !! (id x, id y') = Some d)).
Proof.
  rewrite _get_dist_from_l_unfold.
  destruct (_get_dist_from_l_pass model x (instances data) None w)
    as (w1 & new & Hrun & Hsub & Hall & _).
  eexists _, w1. split; [exact Hrun|]. split.
  - intros Hnil. rewrite Hnil in Hrun. simpl in Hrun.
    unfold ret in Hrun. injection Hrun as <-. by rewrite Hnil.
  - intros Hne. by apply cached_min_result.
Qed.

(** *** The loop at the edges of its arguments *)

(** X9: with a budget [N <= 0] the loop body never runs: [active_learn]
    queries no strategy and moves nothing, needs no fuel, and does its one
    rebuild; on a learner without a feature space that rebuild raises
    [IndexError] and nothing has changed. *)
Theorem active_learn_with_no_budget
    (fuel : nat) (q : Z -> M (option (list Z))) (N b : Z) (flag : bool) (w : World) :
  (N <= 0)%Z ->
  (labeled_datasets (self w) <> [] ->
     active_learn fuel q N b flag w
     = Return tt
         {| self := rebuilt (self w);
            random := random w;
            console := console w
                       ++ rebuild_events (labeled_datasets (self w)) (params (self w))
                       ++ [Printed loop_completed] |})
  /\ (labeled_datasets (self w) = [] ->
      active_learn fuel q N b flag w = Raise IndexError w).
Proof.
  intros HN.
  assert (Hloop : active_learn_loop fuel q 0 N b flag w = Return tt w).
  { destruct fuel; simpl; by rewrite (proj2 (Z.ltb_ge 0 N)) by lia. }
  unfold active_learn. split.
  - intros Hne. erewrite bind_Return by exact Hloop.
    erewrite bind_Return by (by apply rebuild_models_run).
    unfold print, emit. cbn [self random console]. by rewrite <- app_assoc.
  - intros Hnil. erewrite bind_Return by exact Hloop.
    apply bind_Raise. unfold rebuild_models.
    erewrite bind_Return by reflexivity. rewrite Hnil. reflexivity.
Qed.

Lemma bind_OutOfFuel {A B} (c : M A) (k : A -> M B) w :
  c w = OutOfFuel -> bind c k w = OutOfFuel.
Proof. intros Hc. unfold bind. by rewrite Hc. Qed.

(** X10: with a budget [N > 0] and a batch size [b <= 0] the counter never
    reaches the budget: as long as the strategy returns (and a feature space
    remains), [active_learn] does not terminate, whatever the fuel. *)
Theorem active_learn_never_ends
    (q : Z -> M (option (list Z))) (N b : Z) (flag : bool) (w : World) :
  (0 < N)%Z -> (b <= 0)%Z ->
  labeled_datasets (self w) <> [] ->
  (forall k w0, labeled_datasets (self w0) <> [] ->
     exists r w1, q k w0 = Return r w1 /\ labeled_datasets (self w1) <> []) ->
  forall fuel, active_learn fuel q N b flag w = OutOfFuel.
Proof.
  intros HN Hb Hne Hq fuel. unfold active_learn. apply bind_OutOfFuel.
  cut (forall c w, (c < N)%Z -> labeled_datasets (self w) <> [] ->
         active_learn_loop fuel q c N b flag w = OutOfFuel).
  { intros Hloop. by apply Hloop. }
  clear w Hne.
  induction fuel as [|fuel IH]; intros c w Hc Hne; simpl;
    rewrite (proj2 (Z.ltb_lt c N) Hc); [done|].
  destruct (Hq b {| self := self w; random := random w;
                    console := console w ++ [Printed (labeled_out_of c N)] |})
    as (r & w2 & Hrun & Hne2); [done|].
  destruct (active_learn_iteration_run q c N b flag w r w2 Hrun Hne2)
    as (new1 & Hit & _).
  erewrite bind_Return by exact Hit.
  apply IH; [lia|]. cbn [self].
  destruct flag; by apply after_selection_labeled.
Qed.

(** *** Rebuilding and undersampling at their edges *)

(** A loop depends on its body only at the elements it visits. *)
Lemma for_each_ext {A} (l : list A) (f g : A -> M unit) w :
  (forall x w', x ∈ l -> f x w' = g x w') ->
  for_each l f w = for_each l g w.
Proof.
  revert w. induction l as [|a l IH]; intros w Hfg; [done|].
  cbn [for_each]. unfold bind.
  rewrite (Hfg a w) by (by left).
  destruct (g a w) as [[] w1|e w1|]; [|done|done].
  apply IH. intros x w' Hx. apply Hfg. by right.
Qed.

(** The training loop when training may raise: with no failure it is the
    loop of [rebuild_models]; a failure stops it where it occurs, with the
    models appended so far. *)
Lemma train_loop_with_ok training_error (l : list (dataset * svm_parameter)) w :
  Forall (fun dp => training_fails training_error dp = None) l ->
  for_each l
    (fun dp =>
       let sl := get_samples_and_labels dp.1 in
       emit (Trained (length sl.1)) ;;
       match training_error sl.2 sl.1 dp.2 with
       | Some e => raise e
       | None => models_append (svm_train sl.2 sl.1 dp.2)
       end) w
  = for_each l
      (fun dp =>
         let sl := get_samples_and_labels dp.1 in
         emit (Trained (length sl.1)) ;;
         models_append (svm_train sl.2 sl.1 dp.2)) w.
Proof.
  intros Hok. apply for_each_ext. intros dp w' Hdp.
  pose proof (proj1 (Forall_forall _ _) Hok dp Hdp) as Hnone.
  unfold training_fails in Hnone. cbn [get_samples_and_labels fst snd].
  by rewrite Hnone.
Qed.

Lemma train_loop_with_fails training_error
    (trained : list (dataset * svm_parameter)) job later e
    (acc : list svm_model) w :
  models (self w) = Some acc ->
  Forall (fun dp => training_fails training_error dp = None) trained ->
  training_fails training_error job = Some e ->
  for_each (trained ++ job :: later)
    (fun dp =>
       let sl := get_samples_and_labels dp.1 in
       emit (Trained (length sl.1)) ;;
       match training_error sl.2 sl.1 dp.2 with
       | Some e => raise e
       | None => models_append (svm_train sl.2 sl.1 dp.2)
       end) w
  = Raise e
      {| self := with_models (Some (acc ++ (model_for <$> trained))) (self w);
         random := random w;
         console := console w
                    ++ ((fun dp : dataset * svm_parameter =>
                           Trained (length (instances dp.1))) <$> trained)
                    ++ [Trained (length (instances job.1))] |}.
Proof.
  intros Hm Hok Hjob. revert acc w Hm.
  induction trained as [|dp trained IH]; intros acc w Hm.
  - cbn [app for_each fmap list_fmap]. apply bind_Raise.
    erewrite bind_Return by reflexivity.
    unfold training_fails in Hjob. cbn [get_samples_and_labels fst snd].
    rewrite Hjob. unfold raise, emit. cbn [self random console].
    rewrite length_fmap, app_nil_r. f_equal. f_equal.
    destruct w as [s t c]. cbn in *. destruct s; cbn in *. by subst.
  - apply Forall_cons in Hok as [Hdp Hok].
    cbn [app for_each].
    erewrite bind_Return; last first.
    { erewrite bind_Return by reflexivity.
      unfold training_fails in Hdp. cbn [get_samples_and_labels fst snd].
      rewrite Hdp. unfold models_append. erewrite bind_Return by reflexivity.
      cbn [self emit models]. rewrite Hm. reflexivity. }
    erewrite (IH Hok (acc ++ [_])); [|by cbn].
    cbn [self random console with_models params unlabeled_datasets
         labeled_datasets models div_hash dist_hash name emit].
    rewrite length_fmap, fmap_cons, <- !app_assoc. reflexivity.
Qed.

(** [rebuild_models()] when training fails for the first time at [job]: the
    models trained before are all that [models] holds. *)
Lemma rebuild_models_with_fails training_error w d0 rest trained job later e :
  labeled_datasets (self w) = d0 :: rest ->
  zip (labeled_datasets (self w)) (params (self w)) = trained ++ job :: later ->
  Forall (fun dp => training_fails training_error dp = None) trained ->
  training_fails training_error job = Some e ->
  rebuild_models_with training_error false w
  = Raise e
      {| self := with_models (Some (model_for <$> trained)) (self w);
         random := random w;
         console := console w
                    ++ [Printed (training_models_on (length (instances d0)))]
                    ++ ((fun dp : dataset * svm_parameter =>
                           Trained (length (instances dp.1))) <$> trained)
                    ++ [Trained (length (instances job.1))] |}.
Proof.
  intros HL Hzip Hok Hjob. unfold rebuild_models_with.
  erewrite bind_Return by reflexivity.
  rewrite HL in Hzip |- *.
  run. apply bind_Raise.
  cbn [self params with_models]. rewrite Hzip.
  erewrite (train_loop_with_fails training_error trained job later e []);
    [|reflexivity|done|done].
  unfold print, emit. cbn [self random console app].
  by rewrite <- !app_assoc.
Qed.

(** [rebuild_models()] when no training fails. *)
Lemma rebuild_models_with_ok training_error w :
  labeled_datasets (self w) <> [] ->
  Forall (fun dp => training_fails training_error dp = None)
    (zip (labeled_datasets (self w)) (params (self w))) ->
  rebuild_models_with training_error false w
  = Return tt
      {| self := rebuilt (self w);
         random := random w;
         console := console w
                    ++ rebuild_events (labeled_datasets (self w)) (params (self w)) |}.
Proof.
  intros Hne Hok. unfold rebuild_models_with.
  erewrite bind_Return by reflexivity.
  destruct (labeled_datasets (self w)) as [|d0 rest] eqn:HL; [done|].
  run.
  erewrite bind_Return; last first.
  { rewrite train_loop_with_ok by exact Hok. by apply (train_loop_run _ []). }
  unfold print, emit, rebuilt, train_all, rebuild_events.
  cbn [self random console]. rewrite HL.
  f_equal. f_equal. by rewrite <- !app_assoc.
Qed.

(** X11: [rebuild_models], with a classifier whose training may raise, is
    not atomic. A failure before the training loop (no feature space, or
    the undersampling raising) leaves the learner, its previous models
    included, as it was. A failure of the training for some feature space
    propagates with [models] holding just the models trained before it: the
    previous models are gone and the list is shorter than the feature
    spaces. When no training fails the call returns, having replaced
    [models] and nothing else; and when training cannot fail the method is
    [rebuild_models] as embedded for the other properties. *)
Theorem rebuild_models_failure_modes
    (training_error : list Z -> list point -> svm_parameter -> option exn)
    (w : World) :
  (forall undersample_first,
     rebuild_models_with (fun _ _ _ => None) undersample_first w
     = rebuild_models undersample_first w)
  /\ (labeled_datasets (self w) = [] ->
      rebuild_models_with training_error false w = Raise IndexError w)
  /\ (forall e w1,
        undersample_labeled_datasets None
          {| self := self w; random := random w;
             console := console w ++ [Printed undersampling_before_building] |}
        = Raise e w1 ->
        rebuild_models_with training_error true w = Raise e w1
        /\ self w1 = self w)
  /\ (forall d0 rest trained job later e,
        labeled_datasets (self w) = d0 :: rest ->
        zip (labeled_datasets (self w)) (params (self w)) = trained ++ job :: later ->
        Forall (fun dp => training_fails training_error dp = None) trained ->
        training_fails training_error job = Some e ->
        exists w',
          rebuild_models_with training_error false w = Raise e w'
          /\ self w' = with_models (Some (model_for <$> trained)) (self w)
          /\ (length (model_for <$> trained) < length (labeled_datasets (self w)))%nat
          /\ console w'
             = console w
               ++ [Printed (training_models_on (length (instances d0)))]
               ++ ((fun dp : dataset * svm_parameter =>
                      Trained (length (instances dp.1))) <$> trained)
               ++ [Trained (length (instances job.1))])
  /\ (labeled_datasets (self w) <> [] ->
      Forall (fun dp => training_fails training_error dp = None)
        (zip (labeled_datasets (self w)) (params (self w))) ->
      rebuild_models_with training_error false w
      = Return tt
          {| self := rebuilt (self w);
             random := random w;
             console := console w
                        ++ rebuild_events (labeled_datasets (self w))
                             (params (self w)) |}).
Proof.
  split; [intros undersample_first; reflexivity|].
  split.
  { intros Hnil. unfold rebuild_models_with.
    erewrite bind_Return by reflexivity. by rewrite Hnil. }
  split.
  { intros e w1 Hu. split.
    - unfold rebuild_models_with. apply bind_Raise.
      erewrite bind_Return by reflexivity. apply bind_Raise. exact Hu.
    - pose proof (undersample_labeled_datasets_same_self None
                    {| self := self w; random := random w;
                       console := console w ++ [Printed undersampling_before_building] |})
        as Hs.
      rewrite Hu in Hs. exact Hs. }
  split; [|by apply rebuild_models_with_ok].
  intros d0 rest trained job later e HL Hzip Hok Hjob.
  eexists. split; [by eapply rebuild_models_with_fails|].
  cbn [self console]. split; [done|]. split; [|done].
  apply (f_equal length) in Hzip.
  rewrite length_zip_with, length_app in Hzip. cbn [length] in Hzip.
  rewrite length_fmap. lia.
Qed.

(** X12: [undersample_labeled_datasets(k)] raises "No labeled data has been
    provided!" when there is no labeled partition or the first one is empty;
    and an explicit non-zero [k] outside [0 < k < majority count] (negative,
    or as large as the majority count) is a silent no-op: the copies are the
    labeled partitions, and nothing is printed or drawn. *)
Theorem undersample_labeled_datasets_guards (k : option Z) (w : World) :
  ((labeled_datasets (self w) = []
    \/ exists d0 rest, labeled_datasets (self w) = d0 :: rest /\ instances d0 = []) ->
     undersample_labeled_datasets k w
     = Raise (Exception "No labeled data has been provided!") w)
  /\ (forall d0 rest k',
        labeled_datasets (self w) = d0 :: rest -> instances d0 <> [] ->
        k = Some k' -> k' <> 0%Z ->
        ~ (0 < k' < number_of_majority_examples d0)%Z ->
        undersample_labeled_datasets k w = Return (labeled_datasets (self w)) w).
Proof.
  split.
  - intros [Hnil | (d0 & rest & Hl & Hnil)];
      unfold undersample_labeled_datasets, bind, get_self.
    + by rewrite Hnil.
    + by rewrite Hl, Hnil.
  - intros d0 rest k' Hl Hne -> Hk Hguard.
    unfold undersample_labeled_datasets, bind, get_self. rewrite Hl.
    destruct (Nat.eqb_spec (length (instances d0)) 0) as [Hz|_].
    { by apply length_zero_iff_nil in Hz. }
    simpl. rewrite (proj2 (Z.eqb_neq k' 0) Hk). simpl.
    rewrite copy_dataset_eq, copied_datasets_eq.
    destruct (Z.ltb_spec k' (number_of_majority_examples d0)) as [Hlt|Hge];
      [|done].
    destruct (Z.gtb_spec k' 0) as [Hpos|Hnp]; [lia|done].
Qed.

(** X13: an exception raised by the strategy at the first query goes through
    [active_learn] as it is: the controller has printed the counter, labels
    nothing, does not rebuild the models and does not print that the loop
    completed; the learner is as the strategy left it. *)
Theorem active_learn_propagates_strategy_error
    (fuel : nat) (q : Z -> M (option (list Z))) (N b : Z) (flag : bool)
    (w : World) (e : exn) (w1 : World) :
  (0 < N)%Z ->
  q b {| self := self w; random := random w;
         console := console w ++ [Printed (labeled_out_of 0 N)] |}
  = Raise e w1 ->
  active_learn (S fuel) q N b flag w
  = Raise e {| self := self w1; random := random w1;
               console := console w ++ [Printed (labeled_out_of 0 N); Queried b] |}.
Proof.
  intros HN Hq. unfold active_learn.
  apply bind_Raise. simpl. rewrite (proj2 (Z.ltb_lt 0 N) HN).
  apply bind_Raise. unfold active_learn_iteration.
  erewrite bind_Return by reflexivity.
  apply bind_Raise. unfold call_query. cbn [self random console].
  rewrite Hq. cbn [console]. by rewrite <- app_assoc.
Qed.

(** *** Random selection outside the pool's size *)

Lemma drop_tl {A} (n : nat) (l : list A) : drop n (tl l) = drop (S n) l.
Proof. destruct l; [by destruct n|done]. Qed.

Lemma draw_exhausts (k : nat) (ids sel : list Z) (w : World) :
  (length ids < k)%nat ->
  draw k ids sel w
  = Raise IndexError
      {| self := self w; random := drop (length ids) (random w);
         console := console w |}.
Proof.
  revert ids sel w. induction k as [|k IH]; intros ids sel w Hk; [lia|].
  cbn [draw]. destruct ids as [|i ids].
  - destruct w as [s t c]. reflexivity.
  - destruct (random_choice_spec (i :: ids) w) as (x & Hx & Hc); [done|].
    erewrite bind_Return by exact Hc.
    pose proof (list_remove_perm x (i :: ids) Hx) as Hperm.
    apply Permutation_length in Hperm. cbn [length] in Hperm, Hk.
    rewrite IH by lia.
    cbn [self random console]. rewrite drop_tl.
    by replace (S (length (list_remove x (i :: ids)))) with (length (i :: ids))
      by (cbn [length]; lia).
Qed.

(** X14: [get_random_unlabeled_ids(k)] outside [0 <= k <= pool size]. Without
    a feature space it raises [IndexError]; for [k <= 0] it returns the
    empty list and draws nothing; for [k] above the size of feature space 0's
    pool it draws the whole pool, one random number each, and then raises
    [IndexError] on the empty list. The learner is unchanged in each case. *)
Theorem get_random_unlabeled_ids_out_of_range (k : Z) (w : World) :
  (unlabeled_datasets (self w) = [] ->
     get_random_unlabeled_ids k w = Raise IndexError w)
  /\ (forall d0 rest,
        unlabeled_datasets (self w) = d0 :: rest ->
        ((k <= 0)%Z -> get_random_unlabeled_ids k w = Return [] w)
        /\ ((Z.of_nat (length (instances d0)) < k)%Z ->
            get_random_unlabeled_ids k w
            = Raise IndexError
                {| self := self w;
                   random := drop (length (instances d0)) (random w);
                   console := console w |})).
Proof.
  split.
  - intros Hnil. unfold get_random_unlabeled_ids.
    erewrite bind_Return by reflexivity. by rewrite Hnil.
  - intros d0 rest Hu. unfold get_random_unlabeled_ids.
    erewrite bind_Return by reflexivity. rewrite Hu.
    erewrite bind_Return by reflexivity. split.
    + intros Hk. by replace (Z.to_nat k) with 0%nat by lia.
    + intros Hk. rewrite draw_exhausts.
      * unfold get_instance_ids. by rewrite length_fmap.
      * unfold get_instance_ids. rewrite length_fmap. lia.
Qed.

(** *** A learner just built *)

(** X15: a learner just built over any datasets has no labeled example, so
    [rebuild_models()] hands the classifier an empty training set for every
    dataset. If the classifier trains on no example, the call returns with
    one such model per dataset; if it raises, the error propagates and
    [models] is left as the empty list, whatever the constructor was given.
    Without a dataset the call raises [IndexError], and
    [rebuild_models(True)] raises "No labeled data has been provided!"
    before anything is assigned, leaving [models] as the constructor set
    it. *)
Theorem new_learner_rebuilds_on_nothing
    (training_error : list Z -> list point -> svm_parameter -> option exn)
    (datasets : list dataset) (ms : option (list svm_model)) (tape : list nat) :
  (datasets = [] ->
     rebuild_models_with training_error false (world_of (__init__ datasets ms) tape)
     = Raise IndexError (world_of (__init__ datasets ms) tape))
  /\ (datasets <> [] -> training_error [] [] default_parameter = None ->
      exists w',
        rebuild_models_with training_error false
          (world_of (__init__ datasets ms) tape) = Return tt w'
        /\ models (self w')
           = Some ((fun _ => svm_train [] [] default_parameter) <$> datasets)
        /\ unlabeled_datasets (self w') = datasets
        /\ Forall (fun l => instances l = []) (labeled_datasets (self w')))
  /\ (datasets <> [] ->
      forall e, training_error [] [] default_parameter = Some e ->
      exists w',
        rebuild_models_with training_error false
          (world_of (__init__ datasets ms) tape) = Raise e w'
        /\ models (self w') = Some []
        /\ unlabeled_datasets (self w') = datasets)
  /\ exists w',
       rebuild_models_with training_error true (world_of (__init__ datasets ms) tape)
       = Raise (Exception "No labeled data has been provided!") w'
       /\ self w' = attrs (__init__ datasets ms)
       /\ models (self w') = ms.
Proof.
  assert (Hzip : zip (labeled_datasets (attrs (__init__ datasets ms)))
                     (params (attrs (__init__ datasets ms)))
                 = (fun _ => ({| instances := [] |}, default_parameter)) <$> datasets).
  { cbn. rewrite zip_with_fmap_l, zip_with_fmap_r, zip_with_diag. done. }
  split; [|split; [|split]].
  - intros ->. reflexivity.
  - intros Hne Hte. eexists. split.
    + apply rebuild_models_with_ok; [cbn; by destruct datasets|].
      cbn [world_of self]. rewrite Hzip.
      apply Forall_fmap, Forall_forall. intros d _. exact Hte.
    + cbn. split; [|split; [done|]].
      * f_equal. unfold train_all. rewrite zip_with_fmap_l, zip_with_fmap_r.
        rewrite zip_with_diag. rewrite <- list_fmap_compose. done.
      * apply Forall_fmap, Forall_forall. done.
  - intros Hne e Hte. destruct datasets as [|d ds]; [done|].
    eexists. split.
    + apply (rebuild_models_with_fails training_error
               (world_of (__init__ (d :: ds) ms) tape)
               {| instances := [] |} ((fun _ => {| instances := [] |}) <$> ds)
               [] ({| instances := [] |}, default_parameter)
               ((fun _ => ({| instances := [] |}, default_parameter)) <$> ds) e).
      * reflexivity.
      * cbn [world_of self]. rewrite Hzip. reflexivity.
      * apply Forall_nil_2.
      * exact Hte.
    + cbn. done.
  - exists {| self := attrs (__init__ datasets ms); random := tape;
              console := [Printed undersampling_before_building] |}.
    split; [|split; reflexivity].
    unfold rebuild_models_with. apply bind_Raise.
    erewrite bind_Return by reflexivity. apply bind_Raise.
    unfold undersample_labeled_datasets, bind, get_self. cbn.
    by destruct datasets.
Qed.

(** *** Moving examples between the partitions *)

Lemma for_zip_lookup {A B} (body : A -> B -> A * B) xs ys i x y :
  xs !! i = Some x -> ys !! i = Some y ->
  (for_zip body xs ys).1 !! i = Some (body x y).1
  /\ (for_zip body xs ys).2 !! i = Some (body x y).2.
Proof.
  revert ys i. induction xs as [|x0 xs IH]; intros [|y0 ys] [|i] Hx Hy;
    simpl in *; try done.
  - injection Hx as ->. injection Hy as ->. done.
  - by apply IH.
Qed.

Lemma for_zip_unpaired {A B} (body : A -> B -> A * B) xs ys i :
  (ys !! i = None -> (for_zip body xs ys).1 !! i = xs !! i)
  /\ (xs !! i = None -> (for_zip body xs ys).2 !! i = ys !! i).
Proof.
  revert ys i. induction xs as [|x0 xs IH]; intros [|y0 ys] [|i];
    simpl in *; try done; apply IH.
Qed.

Lemma filter_none {A} (P : A -> Prop) `{!forall x, Decision (P x)} (l : list A) :
  (forall x, x ∈ l -> ~ P x) -> filter P l = [].
Proof.
  intros Hno. induction l as [|x l IH]; [done|].
  rewrite filter_cons_False by (apply Hno; by left).
  apply IH. intros y Hy. apply Hno. by right.
Qed.

Lemma filter_all {A} (P : A -> Prop) `{!forall x, Decision (P x)} (l : list A) :
  (forall x, x ∈ l -> P x) -> filter P l = l.
Proof.
  intros Hall. induction l as [|x l IH]; [done|].
  rewrite filter_cons_True by (apply Hall; by left).
  f_equal. apply IH. intros y Hy. apply Hall. by right.
Qed.

(** X16: [label_instances_in_all_datasets(inst_ids)] always returns, prints
    and draws nothing, and leaves the models as they were (stale until a
    rebuild). In each feature space that has both partitions the examples are
    conserved: the unlabeled partition keeps, in order, the examples whose
    identifier is not listed, and the labeled one keeps all it had and gets
    the others appended; where no example of the pool is listed nothing
    changes. A partition without a partner in the other list (the [zip]
    stops at the shorter one) is not visited. *)
Theorem label_instances_conserves_examples (inst_ids : list Z) (w : World) :
  exists w',
    label_instances_in_all_datasets inst_ids w = Return tt w'
    /\ random w' = random w /\ console w' = console w
    /\ models (self w') = models (self w)
    /\ length (unlabeled_datasets (self w')) = length (unlabeled_datasets (self w))
    /\ length (labeled_datasets (self w')) = length (labeled_datasets (self w))
    /\ (forall i u l,
          unlabeled_datasets (self w) !! i = Some u ->
          labeled_datasets (self w) !! i = Some l ->
          exists u' l',
            unlabeled_datasets (self w') !! i = Some u'
            /\ labeled_datasets (self w') !! i = Some l'
            /\ instances u' ++ instances l' ≡ₚ instances u ++ instances l
            /\ instances u' = filter (fun inst => id inst ∉ inst_ids) (instances u)
            /\ instances l `prefix_of` instances l'
            /\ ((forall inst, inst ∈ instances u -> id inst ∉ inst_ids) ->
                u' = u /\ l' = l))
    /\ (forall i, labeled_datasets (self w) !! i = None ->
          unlabeled_datasets (self w') !! i = unlabeled_datasets (self w) !! i)
    /\ (forall i, unlabeled_datasets (self w) !! i = None ->
          labeled_datasets (self w') !! i = labeled_datasets (self w) !! i).
Proof.
  eexists. split; [reflexivity|].
  cbn [self random console move_to_labeled with_datasets
       unlabeled_datasets labeled_datasets models].
  repeat (split; [done || apply for_zip_length|]).
  split; [|split; intros i Hi; by apply for_zip_unpaired].
  intros i u l Hu Hl.
  set (body := fun unlabeled_dataset labeled_dataset : dataset =>
                 ((remove_instances inst_ids unlabeled_dataset).2,
                  add_instances (remove_instances inst_ids unlabeled_dataset).1
                    labeled_dataset)).
  destruct (for_zip_lookup body _ _ i u l Hu Hl) as [Hu' Hl'].
  eexists _, _. split; [exact Hu'|]. split; [exact Hl'|].
  subst body. unfold add_instances, remove_instances. cbn [instances fst snd].
  split; [|split; [done|split]].
  - etrans; [apply Permutation_app_comm|]. rewrite <- app_assoc.
    etrans; [|apply Permutation_app_comm].
    apply Permutation_app_head.
    apply (filter_app_complement (fun inst => id inst ∈ inst_ids)).
  - by eexists.
  - intros Hno. destruct u as [us], l as [ls]. cbn [instances] in *.
    rewrite filter_all by done.
    rewrite filter_none by (intros x Hx Hin; by apply (Hno x)).
    by rewrite app_nil_r.
Qed.

(** X17: [label_all_data()] raises [IndexError] without a feature space; on a
    pool whose feature spaces hold the same identifiers it returns, every
    unlabeled partition is left empty and each labeled partition has got the
    whole unlabeled partition of its feature space appended, in order; the
    models are not rebuilt. *)
Theorem label_all_data_empties_the_pool (w : World) :
  (unlabeled_datasets (self w) = [] -> label_all_data w = Raise IndexError w)
  /\ (pool_ok (self w) ->
      exists w',
        label_all_data w = Return tt w'
        /\ Forall (fun u => instances u = []) (unlabeled_datasets (self w'))
        /\ Forall2 (fun ul l' => instances l' = instances ul.2 ++ instances ul.1)
             (zip (unlabeled_datasets (self w)) (labeled_datasets (self w)))
             (labeled_datasets (self w'))
        /\ models (self w') = models (self w)
        /\ random w' = random w /\ console w' = console w).
Proof.
  split.
  - intros Hnil. unfold label_all_data.
    erewrite bind_Return by reflexivity. by rewrite Hnil.
  - intros Hok. pose proof Hok as (Hlen & Hne & Hnd & Hsame).
    unfold label_all_data. erewrite bind_Return by reflexivity.
    destruct (unlabeled_datasets (self w)) as [|u0 us] eqn:Hu; [done|].
    erewrite bind_Return by reflexivity.
    eexists. split; [reflexivity|].
    cbn [self random console move_to_labeled with_datasets
         unlabeled_datasets labeled_datasets models].
    rewrite Hu.
    assert (Hin : forall u, u ∈ u0 :: us ->
              forall inst, inst ∈ instances u -> id inst ∈ id <$> instances u0).
    { intros u Hu' inst Hinst.
      apply (elem_of_id_set (id inst) u0).
      rewrite <- (Hsame u u0 Hu' ltac:(by left)).
      apply elem_of_id_set. by apply list_elem_of_fmap_2. }
    rewrite for_zip_fst, for_zip_snd by done.
    split; [|split; [|done]].
    + apply Forall_fmap, Forall_forall. intros [u l] Hul.
      apply elem_of_zip_l in Hul. cbn.
      apply filter_none. intros x Hx Hnot. apply Hnot. by apply (Hin u).
    + apply Forall2_fmap_r, Forall_Forall2_diag, Forall_forall.
      intros [u l] Hul. apply elem_of_zip_l in Hul. cbn. f_equal.
      apply filter_all. intros x Hx. by apply (Hin u).
Qed.

(** X18: [pick_balanced_initial_training_set(k)] raises [IndexError] without
    a feature space. When feature space 0's pool holds at least [k] examples
    of each class it returns [2k] identifiers, [k] of minority examples
    followed by [k] of majority examples, none taken twice within a class,
    and has labeled exactly the identifiers it returns, in every feature
    space, printing nothing. *)
Theorem pick_balanced_initial_training_set_picks (k : Z) (w : World) :
  (unlabeled_datasets (self w) = [] ->
     pick_balanced_initial_training_set k w = Raise IndexError w)
  /\ (forall d0 rest,
        unlabeled_datasets (self w) = d0 :: rest ->
        (0 <= k)%Z ->
        (k <= number_of_minority_examples d0)%Z ->
        (k <= number_of_majority_examples d0)%Z ->
        exists minority_ids_to_label majority_ids_to_label w',
          pick_balanced_initial_training_set k w
          = Return (minority_ids_to_label ++ majority_ids_to_label) w'
          /\ Z.of_nat (length minority_ids_to_label) = k
          /\ Z.of_nat (length majority_ids_to_label) = k
          /\ minority_ids_to_label ⊆+ minority_ids d0
          /\ majority_ids_to_label ⊆+ majority_ids d0
          /\ self w'
             = move_to_labeled (minority_ids_to_label ++ majority_ids_to_label) (self w)
          /\ console w' = console w).
Proof.
  split.
  - intros Hnil. unfold pick_balanced_initial_training_set.
    erewrite bind_Return by reflexivity. by rewrite Hnil.
  - intros d0 rest Hu Hk Hmin Hmaj.
    unfold pick_balanced_initial_training_set.
    erewrite bind_Return by reflexivity. rewrite Hu.
    erewrite bind_Return by reflexivity.
    unfold pick_random_minority_instances, pick_random_majority_instances.
    destruct (draw_spec (Z.to_nat k) (minority_ids d0) [] w)
      as (mins & w1 & Hd1 & Hs1 & Hc1 & Hl1 & Hsub1).
    { unfold number_of_minority_examples in Hmin. lia. }
    destruct (draw_spec (Z.to_nat k) (majority_ids d0) [] w1)
      as (majs & w2 & Hd2 & Hs2 & Hc2 & Hl2 & Hsub2).
    { unfold number_of_majority_examples in Hmaj. lia. }
    simpl in Hd1, Hd2.
    erewrite bind_Return by exact Hd1.
    erewrite bind_Return by exact Hd2.
    exists mins, majs. eexists. split; [reflexivity|].
    cbn [self console].
    repeat split; try done; try lia; congruence.
Qed.

(** *** Taking labels back *)

Lemma restored_upto_lookup ids j l x :
  instances l !! j = Some x -> instances (restored_upto ids j l) !! j = Some x.
Proof.
  intros Hx. unfold restored_upto. cbn [instances].
  pose proof (lookup_lt_Some _ _ _ Hx) as Hlt.
  rewrite lookup_app_r by (rewrite length_fmap, length_take; lia).
  rewrite length_fmap, length_take, Nat.min_l, Nat.sub_diag by lia.
  by rewrite lookup_drop, Nat.add_0_r.
Qed.

Lemma restored_upto_S ids j l x :
  instances l !! j = Some x ->
  instances (restored_upto ids (S j) l)
  = <[j := restore_if ids x]> (instances (restored_upto ids j l)).
Proof.
  intros Hx. unfold restored_upto. cbn [instances].
  pose proof (lookup_lt_Some _ _ _ Hx) as Hlt.
  rewrite (take_S_r _ _ _ Hx), (drop_S _ _ _ Hx), fmap_app.
  rewrite insert_app_r_alt by (rewrite length_fmap, length_take; lia).
  rewrite length_fmap, length_take, Nat.min_l, Nat.sub_diag by lia.
  by rewrite <- app_assoc.
Qed.

Lemma restored_upto_0 ids l : restored_upto ids 0 l = l.
Proof. by destruct l. Qed.

Lemma restored_upto_all ids j l :
  (length (instances l) <= j)%nat ->
  restored_upto ids j l = {| instances := restore_if ids <$> instances l |}.
Proof.
  intros Hj. unfold restored_upto.
  by rewrite take_ge, drop_ge, app_nil_r by done.
Qed.

Lemma restoring_0 ids w : restoring ids 0 w = w.
Proof.
  destruct w as [s t c]. unfold restoring. cbn [self random console]. f_equal.
  destruct s. unfold with_datasets. cbn. f_equal.
  rewrite <- (list_fmap_id labeled_datasets0) at 2.
  apply Forall_fmap_ext, Forall_forall. intros l _. apply restored_upto_0.
Qed.

Lemma restore_at_in_range j us ls :
  length us = length ls ->
  Forall (fun l => is_Some (instances l !! j)) ls ->
  restore_at j us ls
  = ((fun l => match instances l !! j with
               | Some inst =>
                   {| instances := <[j := restore_label inst]> (instances l) |}
               | None => l
               end) <$> ls, true).
Proof.
  revert us. induction ls as [|l ls IH]; intros [|u us] Hlen Hall;
    simpl in *; try done.
  apply Forall_cons in Hall as [[inst Hi] Hall]. rewrite Hi.
  rewrite (IH us) by (lia || done). done.
Qed.

Lemma id_restore_if ids x : id (restore_if ids x) = id x.
Proof. unfold restore_if. by destruct (bool_decide _). Qed.

Lemma filter_restored_out ids (l : list instance) :
  filter (fun inst => id inst ∉ ids) (restore_if ids <$> l)
  = filter (fun inst => id inst ∉ ids) l.
Proof.
  induction l as [|x l IH]; [done|]. rewrite fmap_cons.
  destruct (decide (id x ∈ ids)) as [Hin|Hout].
  - rewrite !filter_cons_False; [done| |]; rewrite ?id_restore_if; by intros ?.
  - rewrite !filter_cons_True by (by rewrite ?id_restore_if).
    rewrite IH. unfold restore_if. by rewrite bool_decide_false.
Qed.

Lemma filter_restored_in ids (l : list instance) :
  filter (fun inst => id inst ∈ ids) (restore_if ids <$> l)
  = restore_label <$> filter (fun inst => id inst ∈ ids) l.
Proof.
  induction l as [|x l IH]; [done|]. rewrite fmap_cons.
  destruct (decide (id x ∈ ids)) as [Hin|Hout].
  - rewrite !filter_cons_True by (by rewrite ?id_restore_if).
    rewrite IH, fmap_cons. unfold restore_if. by rewrite bool_decide_true.
  - rewrite !filter_cons_False; [done| |]; by rewrite ?id_restore_if.
Qed.

(** The first loop of [unlabel_instances], from position [j] on. *)
Lemma unlabel_loop ids w d0 rest n :
  aligned (self w) -> labeled_datasets (self w) = d0 :: rest ->
  forall j, (j + n <= length (instances d0))%nat ->
  for_each (seq j n)
    (fun inst_index =>
       s <- get_self ;;
       d0 <- index0 (labeled_datasets s) ;;
       match instances d0 !! inst_index with
       | None => raise IndexError
       | Some inst =>
           if bool_decide (id inst ∈ ids)
           then
             let restored :=
               restore_at inst_index (unlabeled_datasets s) (labeled_datasets s) in
             modify_self (with_datasets (unlabeled_datasets s) restored.1) ;;
             if restored.2 then ret tt else raise IndexError
           else ret tt
       end) (restoring ids j w)
  = Return tt (restoring ids (j + n) w).
Proof.
  intros [Hlen Hal] HL. induction n as [|n IH]; intros j Hj.
  - simpl. by rewrite Nat.add_0_r.
  - cbn [seq for_each].
    destruct (lookup_lt_is_Some_2 (instances d0) j ltac:(lia)) as [x Hx].
    assert (Hall : forall l, l ∈ labeled_datasets (self w) ->
              exists y, instances l !! j = Some y /\ id y = id x).
    { intros l Hl.
      pose proof (Hal d0 l ltac:(rewrite HL; by left) Hl) as Heq.
      assert (Hy : (id <$> instances l) !! j = Some (id x)).
      { fold (get_instance_ids l). rewrite Heq. unfold get_instance_ids.
        by rewrite list_lookup_fmap, Hx. }
      rewrite list_lookup_fmap in Hy.
      destruct (instances l !! j) as [y|]; simpl in Hy; [|done].
      injection Hy as Hy. eauto. }
    assert (Hnext : forall l, l ∈ labeled_datasets (self w) ->
              (id x ∈ ids ->
               match instances (restored_upto ids j l) !! j with
               | Some inst =>
                   {| instances := <[j := restore_label inst]>
                                     (instances (restored_upto ids j l)) |}
               | None => restored_upto ids j l
               end = restored_upto ids (S j) l)
              /\ (id x ∉ ids -> restored_upto ids j l = restored_upto ids (S j) l)).
    { intros l Hl. destruct (Hall l Hl) as (y & Hy & Hid).
      pose proof (restored_upto_S ids j l y Hy) as HS.
      unfold restore_if in HS. rewrite Hid in HS.
      split; intros Hx'.
      - rewrite (restored_upto_lookup ids j l y Hy).
        rewrite bool_decide_true in HS by done.
        rewrite <- HS. by destruct (restored_upto ids (S j) l).
      - rewrite bool_decide_false in HS by done.
        rewrite list_insert_id in HS by (by apply restored_upto_lookup).
        destruct (restored_upto ids (S j) l), (restored_upto ids j l).
        cbn [instances] in HS. by rewrite HS. }
    erewrite bind_Return; [rewrite IH by lia; f_equal; f_equal; lia|].
    erewrite bind_Return by reflexivity.
    cbn [restoring self labeled_datasets unlabeled_datasets with_datasets].
    rewrite HL, fmap_cons.
    erewrite bind_Return by reflexivity.
    rewrite (restored_upto_lookup ids j d0 x Hx).
    rewrite <- fmap_cons, <- HL.
    destruct (bool_decide_reflect (id x ∈ ids)) as [Hin|Hout].
    + rewrite restore_at_in_range; last first.
      { apply Forall_fmap, Forall_forall. intros l Hl.
        destruct (Hall l Hl) as (y & Hy & _).
        exists y. by apply restored_upto_lookup. }
      { by rewrite length_fmap. }
      cbn [fst snd].
      erewrite bind_Return by reflexivity.
      unfold ret, restoring.
      cbn [self random console with_datasets params unlabeled_datasets
           labeled_datasets models div_hash dist_hash name].
      f_equal. f_equal. unfold with_datasets. f_equal.
      rewrite <- list_fmap_compose.
      apply Forall_fmap_ext, Forall_forall. intros l Hl.
      by apply (Hnext l Hl).
    + unfold ret, restoring. f_equal. f_equal. unfold with_datasets. f_equal.
      apply Forall_fmap_ext, Forall_forall. intros l Hl.
      by apply (Hnext l Hl).
Qed.

(** X19: [unlabel_instances(inst_ids)] raises [IndexError] without a feature
    space. On labeled partitions aligned by position it returns; in every
    feature space the labeled examples whose identifier is listed leave the
    labeled partition and are appended to the unlabeled one with [lbl] set
    back to the true label and the synthetic-label flag cleared, while the
    examples that stay labeled, and those already unlabeled, are untouched.
    Nothing is printed or drawn, and the models are not rebuilt. *)
Theorem unlabel_instances_restores_labels (inst_ids : list Z) (w : World) :
  (labeled_datasets (self w) = [] ->
     unlabel_instances inst_ids w = Raise IndexError w)
  /\ (aligned (self w) -> labeled_datasets (self w) <> [] ->
      exists w',
        unlabel_instances inst_ids w = Return tt w'
        /\ random w' = random w /\ console w' = console w
        /\ models (self w') = models (self w)
        /\ labeled_datasets (self w')
           = (fun l => {| instances := filter (fun inst => id inst ∉ inst_ids)
                                         (instances l) |})
               <$> labeled_datasets (self w)
        /\ unlabeled_datasets (self w')
           = (fun ul =>
                {| instances :=
                     instances ul.1
                     ++ (restore_label
                           <$> filter (fun inst => id inst ∈ inst_ids)
                                 (instances ul.2)) |})
               <$> zip (unlabeled_datasets (self w)) (labeled_datasets (self w))).
Proof.
  split.
  - intros Hnil. unfold unlabel_instances.
    erewrite bind_Return by reflexivity. by rewrite Hnil.
  - intros Hal Hne.
    destruct (labeled_datasets (self w)) as [|d0 rest] eqn:HL; [done|].
    pose proof (unlabel_loop inst_ids w d0 rest (length (instances d0)) Hal HL 0
                  ltac:(lia)) as Hloop.
    rewrite restoring_0 in Hloop. cbn [Nat.add] in Hloop.
    unfold unlabel_instances.
    erewrite bind_Return by reflexivity. rewrite HL.
    erewrite bind_Return by reflexivity.
    erewrite bind_Return by exact Hloop.
    eexists. split; [reflexivity|].
    destruct Hal as [Hlen Hal]. rewrite HL in Hlen, Hal.
    cbn [restoring move_to_unlabeled self random console with_datasets
         unlabeled_datasets labeled_datasets models].
    rewrite HL.
    do 3 (split; [done|]).
    assert (Hall : restored_upto inst_ids (length (instances d0)) <$> d0 :: rest
                   = (fun l => {| instances := restore_if inst_ids <$> instances l |})
                       <$> d0 :: rest).
    { apply Forall_fmap_ext, Forall_forall. intros l Hl.
      apply restored_upto_all.
      pose proof (Hal d0 l ltac:(by left) Hl) as Heq.
      apply (f_equal length) in Heq. unfold get_instance_ids in Heq.
      rewrite !length_fmap in Heq. lia. }
    rewrite Hall.
    rewrite for_zip_fst, for_zip_snd by (by rewrite length_fmap).
    rewrite zip_with_fmap_r.
    split.
    + apply list_eq. intros i.
      rewrite !list_lookup_fmap, lookup_zip_with.
      destruct ((d0 :: rest) !! i) as [l|] eqn:Hl.
      * destruct (lookup_lt_is_Some_2 (unlabeled_datasets (self w)) i) as [u Hu].
        { rewrite Hlen. by eapply lookup_lt_Some. }
        rewrite Hu. cbn. by rewrite filter_restored_out.
      * by destruct (unlabeled_datasets (self w) !! i).
    + apply list_eq. intros i.
      rewrite !list_lookup_fmap, !lookup_zip_with.
      destruct (unlabeled_datasets (self w) !! i) as [u|]; [|done].
      destruct ((d0 :: rest) !! i) as [l|]; [|done].
      cbn. unfold add_instances. cbn. by rewrite filter_restored_in.
Qed.

(** *** Undersampling by a given count *)

(** X20: [undersample_labeled_datasets(k)] with an explicit [k] inside
    [0 < k < majority count] (identifiers unique in feature space 0) prints
    only the removal message, draws [k] distinct identifiers of majority
    examples of feature space 0 and returns copies without the examples so
    identified, in every feature space; copy 0 has exactly [k] examples
    fewer, and the learner is unchanged. *)
Theorem undersample_labeled_datasets_explicit_k
    (k : Z) (w : World) (d0 : dataset) (rest : list dataset) :
  labeled_datasets (self w) = d0 :: rest ->
  (0 < k < number_of_majority_examples d0)%Z ->
  NoDup (get_instance_ids d0) ->
  exists removed_ids w',
    undersample_labeled_datasets (Some k) w
    = Return
        ({| instances := filter (fun inst => id inst ∉ removed_ids) (instances d0) |}
         :: ((fun d => {| instances := filter (fun inst => id inst ∉ removed_ids)
                                         (instances d) |}) <$> rest))
        w'
    /\ self w' = self w
    /\ console w'
       = console w
         ++ [Printed (removing_majority_instances k (number_of_majority_examples d0))]
    /\ Z.of_nat (length removed_ids) = k
    /\ NoDup removed_ids
    /\ removed_ids ⊆+ majority_ids d0
    /\ length (instances d0)
       = (length (filter (fun inst => id inst ∉ removed_ids) (instances d0))
          + Z.to_nat k)%nat.
Proof.
  intros Hl Hk Hnd.
  assert (Hne : instances d0 <> []).
  { intros Hnil. unfold number_of_majority_examples, majority_ids in Hk.
    rewrite Hnil in Hk. simpl in Hk. lia. }
  unfold undersample_labeled_datasets, bind, get_self. rewrite Hl.
  destruct (Nat.eqb_spec (length (instances d0)) 0) as [Hz|_].
  { by apply length_zero_iff_nil in Hz. }
  rewrite copied_datasets_eq. cbn [falsy].
  rewrite (proj2 (Z.eqb_neq k 0)) by lia. cbn [ret default].
  unfold Datatypes.id.
  rewrite (proj2 (Z.ltb_lt _ _)), (proj2 (Z.gtb_lt _ _)) by lia.
  cbn [andb print emit self random console].
  unfold undersample, bind.
  match goal with
  | |- context [draw ?n ?ids ?sel ?w0] =>
      destruct (draw_spec n ids sel w0)
        as (picked & w' & Hd & Hs & Hcon & Hlen & Hsub);
      [ unfold number_of_majority_examples in *; lia | ]
  end.
  rewrite Hd. cbn [app ret remove_instances fst snd].
  assert (Hndp : NoDup picked).
  { eapply NoDup_of_submseteq; [exact Hsub|]. by apply NoDup_ids_filter. }
  assert (Hin0 : forall i, i ∈ picked -> i ∈ id <$> instances d0).
  { intros i Hi. pose proof (elem_of_submseteq _ _ _ Hi Hsub) as Hmaj.
    apply get_instance_ids_filter in Hmaj as (a & Ha & _ & <-).
    by apply list_elem_of_fmap_2. }
  exists picked, w'. split.
  { f_equal. f_equal. apply list_fmap_ext. intros _ d _.
    simpl. f_equal. apply list_filter_iff. intros inst.
    rewrite get_instance_ids_filter. split.
    - intros Hnot Hi. apply Hnot.
      destruct (proj1 (list_elem_of_fmap _ _ _) (Hin0 _ Hi)) as (a & Hid & Ha).
      exists a. rewrite <- Hid. done.
    - intros Hnot (a & _ & Ha & Hid). apply Hnot. by rewrite <- Hid. }
  split; [done|]. split; [done|]. split; [lia|]. split; [done|]. split; [done|].
  pose proof (filter_app_complement (fun inst => id inst ∈ picked) (instances d0)) as Hp.
  apply Permutation_length in Hp. rewrite length_app in Hp.
  rewrite (length_removed picked (instances d0)) in Hp by done. lia.
Qed.
End Properties.

(** ** The properties at concrete inputs *)

Section Examples.
#[local] Existing Instance toy_classifier.
#[local] Existing Instance cpython.
#[local] Existing Instance positive_minority.

(** C3 (the code at a failing input): with three feature spaces whose models
    predict -1, -1 and +1, [majority_predict] answers +1, the label with one
    vote out of three: [_arg_max] finds the higher count of -1 at position 1
    of [[1; -1]] and keeps index 0. *)
Theorem majority_predict_answers_minority_vote :
  cpython_set_iter [-1; -1; 1]%Z = [1; -1]%Z
  /\ count [-1; -1; 1]%Z 1%Z = 1%Z
  /\ count [-1; -1; 1]%Z (-1)%Z = 2%Z
  /\ _arg_max [1; -1]%Z (count [-1; -1; 1]%Z) = inr 0%nat
  /\ majority_predict three_points (voters [-1; -1; 1]%Z)
     = Return 1%Z (voters [-1; -1; 1]%Z).
Proof. repeat split; reflexivity. Qed.

(** C8 at concrete inputs: a learner just built has no models and both
    policies raise; with three models built neither raises that error. *)
Lemma aggregation_needs_models_witness :
  (no_models (self new_world)
   /\ majority_predict three_points new_world = Raise no_models_error new_world
   /\ cautious_predict three_points new_world = Raise no_models_error new_world)
  /\ (~ no_models (self (voters [-1; -1; 1]%Z))
      /\ majority_predict three_points (voters [-1; -1; 1]%Z)
         <> Raise no_models_error (voters [-1; -1; 1]%Z)
      /\ cautious_predict three_points (voters [-1; -1; 1]%Z)
         <> Raise no_models_error (voters [-1; -1; 1]%Z)).
Proof.
  split.
  - assert (Hno : no_models (self new_world)) by (by left).
    split; [exact Hno|].
    exact (proj1 (aggregation_needs_models new_world three_points) Hno).
  - assert (Hbuilt : ~ no_models (self (voters [-1; -1; 1]%Z)))
      by (intros [Hn|Hn]; discriminate Hn).
    split; [exact Hbuilt|].
    exact (proj2 (aggregation_needs_models (voters [-1; -1; 1]%Z) three_points)
             Hbuilt (voters [-1; -1; 1]%Z)).
Defined.

(** C4, the claim at a concrete input: asked for two identifiers of a pool of
    six, the query function of a learner just built returns none and raises. *)
Lemma default_query_function_is_not_random :
  pool_size (self new_world) = 6%Z
  /\ query_function new_learner 2%Z new_world
     = Raise (Exception "no query function provided!") new_world
  /\ ~ (exists ids w', query_function new_learner 2%Z new_world = Return (Some ids) w').
Proof.
  split; [reflexivity|]. split; [reflexivity|].
  intros (ids & w' & Hrun). discriminate Hrun.
Qed.

(** C4 at a concrete input: the default raises; [get_random_unlabeled_ids(2)]
    on the pool of six returns two of its identifiers. *)
Lemma default_query_function_raises_witness :
  query_function (__init__ [pool] None) 2%Z new_world
    = Raise (Exception "no query function provided!") new_world
  /\ unlabeled_datasets (self new_world) = [pool]
  /\ (0 <= 2 <= Z.of_nat (length (instances pool)))%Z
  /\ exists ids w',
       get_random_unlabeled_ids 2%Z new_world = Return ids w'
       /\ self w' = self new_world
       /\ console w' = console new_world
       /\ Z.of_nat (length ids) = 2%Z
       /\ ids ⊆+ get_instance_ids pool.
Proof.
  assert (Hu : unlabeled_datasets (self new_world) = [pool]) by reflexivity.
  assert (Hk : (0 <= 2 <= Z.of_nat (length (instances pool)))%Z) by (simpl; lia).
  destruct (default_query_function_raises [pool] None 2%Z new_world) as [Hraise Hrandom].
  split; [exact Hraise|]. split; [exact Hu|]. split; [exact Hk|].
  exact (Hrandom pool [] Hu Hk).
Defined.

(** C2, the claim at a concrete input: a similarity computed with the old
    model is cached; the models are rebuilt; the entry is still in the cache,
    and [_compute_cos] with the new model answers the old model's 1 where the
    new model computes 0. *)
Lemma rebuild_leaves_stale_cache :
  exists w1 w2 new_model,
    _compute_cos old_model (example 1 1) (example 2 (-1)) stale_world
      = Return 1%float w1
    /\ rebuild_models false w1 = Return tt w2
    /\ models (self w2) = Some [new_model]
    /\ new_model <> old_model
    /\ compute_cos_between_examples new_model
         (inst_point (example 1 1)) (inst_point (example 2 (-1))) = 0%float
    /\ div_hash (self w2) !! (1, 2)%Z = Some 1%float
    /\ div_hash (self w2) <> ∅
    /\ _compute_cos new_model (example 1 1) (example 2 (-1)) w2 = Return 1%float w2.
Proof.
  eexists _, _, _.
  split; [reflexivity|]. split; [reflexivity|]. split; [reflexivity|].
  split; [discriminate|]. split; [reflexivity|]. split; [reflexivity|].
  split; [|reflexivity].
  intros Hempty. apply (f_equal (fun h => h !! (1, 2)%Z)) in Hempty.
  discriminate Hempty.
Qed.

(** C2 at a concrete input: the entry cached before the rebuild is served
    after it. *)
Lemma rebuild_models_keeps_caches_witness :
  let w1 := {| self := with_div_hash {[ (1, 2)%Z := 1%float ]} (self stale_world);
               random := []; console := [] |} in
  div_hash (self w1) !! (id (example 1 1), id (example 2 (-1))) = Some 1%float
  /\ exists w2,
       rebuild_models false w1 = Return tt w2
       /\ div_hash (self w2) = div_hash (self w1)
       /\ dist_hash (self w2) = dist_hash (self w1)
       /\ _compute_cos [1; -1]%Z (example 1 1) (example 2 (-1)) w2 = Return 1%float w2.
Proof.
  intros w1.
  assert (Hcached : div_hash (self w1) !! (id (example 1 1), id (example 2 (-1)))
                    = Some 1%float) by reflexivity.
  split; [exact Hcached|].
  pose proof (rebuild_models_keeps_caches false w1) as Hkeep.
  destruct (rebuild_models false w1) as [[] w2|e w2|] eqn:Hrun;
    [|discriminate Hrun|discriminate Hrun].
  destruct Hkeep as (Hdiv & Hdist & Hserved).
  exists w2. split; [reflexivity|]. split; [exact Hdiv|]. split; [exact Hdist|].
  exact (Hserved [1; -1]%Z (example 1 1) (example 2 (-1)) 1%float Hcached).
Defined.

(** C10 at concrete inputs: with one example of each class the recomputed
    count is 0 and nothing is removed; with one minority and three majority
    examples the recomputed count is 2 and [k = 0] removes two examples. *)
Lemma undersample_zero_is_unspecified_witness :
  (undersample_labeled_datasets (Some 0%Z) (labeled_world [balanced] None)
   = undersample_labeled_datasets None (labeled_world [balanced] None)
   /\ exists w',
        undersample_labeled_datasets (Some 0%Z) (labeled_world [balanced] None)
        = Return [balanced] w'
        /\ ~ (0 < number_of_majority_examples balanced
                   - number_of_minority_examples balanced
               < number_of_majority_examples balanced)%Z)
  /\ (exists copies w',
        undersample_labeled_datasets (Some 0%Z) (labeled_world [unbalanced] None)
        = Return copies w'
        /\ (0 < number_of_majority_examples unbalanced
                 - number_of_minority_examples unbalanced
             < number_of_majority_examples unbalanced)%Z
        /\ copies <> [unbalanced]).
Proof.
  split.
  - destruct (undersample_zero_is_unspecified (labeled_world [balanced] None))
      as [Hsame Hguard].
    split; [exact Hsame|].
    eexists. split; [reflexivity|].
    exact (proj1 (Hguard balanced [] [balanced] _ eq_refl eq_refl) eq_refl).
  - destruct (undersample_zero_is_unspecified (labeled_world [unbalanced] None))
      as [_ Hguard].
    destruct (undersample_labeled_datasets (Some 0%Z) (labeled_world [unbalanced] None))
      as [copies w'|e w'|] eqn:Hrun;
      [ | exfalso; vm_compute in Hrun; discriminate Hrun
        | exfalso; vm_compute in Hrun; discriminate Hrun ].
    exists copies, w'. split; [reflexivity|].
    assert (Hk : (0 < number_of_majority_examples unbalanced
                      - number_of_minority_examples unbalanced
                  < number_of_majority_examples unbalanced)%Z)
      by (vm_compute; split; reflexivity).
    split; [exact Hk|].
    intros Heq.
    exact (proj1 (Hguard unbalanced [] copies w' eq_refl eq_refl) Heq Hk).
Defined.

(** C7 at a concrete input: the diversity of example 1 against the two
    labeled examples, computed twice. *)
Lemma diversity_is_cached_witness :
  exists v w1 new,
    _compute_div old_model balanced (example 1 1) stale_world = Return v w1
    /\ _compute_div [1; -1]%Z balanced (example 1 1) w1 = Return v w1
    /\ console w1 = console stale_world ++ new
    /\ (forall key, (cos_calls key new <= 1)%nat)
    /\ (forall key, is_Some (div_hash (self stale_world) !! key) ->
                    cos_calls key new = 0%nat)
    /\ v = cached_sum (div_hash (self w1)) (example 1 1) (instances balanced) 0%float
    /\ self w1 = with_div_hash (div_hash (self w1)) (self stale_world)
    /\ (forall y, y ∈ instances balanced ->
          match div_hash (self stale_world) !! (id (example 1 1), id y) with
          | Some c =>
              div_hash (self w1) !! (id (example 1 1), id y) = Some c
              /\ cos_calls (id (example 1 1), id y) new = 0%nat
          | None =>
              cos_calls (id (example 1 1), id y) new = 1%nat
              /\ exists y', y' ∈ instances balanced /\ id y' = id y
                   /\ div_hash (self w1) !! (id (example 1 1), id y)
                      = Some (compute_cos_between_examples old_model
                                (inst_point (example 1 1)) (inst_point y'))
          end)
    /\ (forall key,
          (forall y, y ∈ instances balanced -> key <> (id (example 1 1), id y)) ->
          cos_calls key new = 0%nat
          /\ div_hash (self w1) !! key = div_hash (self stale_world) !! key).
Proof.
  exact (diversity_is_cached old_model [1; -1]%Z balanced (example 1 1) stale_world).
Defined.

(** C5, the claim at concrete inputs. Without a minority example (M = 2,
    m = 0) the recomputed count 2 fails the guard [k < M]: nothing is removed
    and the copy keeps its two majority examples. And when a second feature
    space holds other identifiers, the identifier removed from feature
    space 0 removes nothing there. *)
Lemma undersample_removes_nothing :
  (number_of_majority_examples majority_only = 2%Z
   /\ number_of_minority_examples majority_only = 0%Z
   /\ exists w',
        undersample_labeled_datasets None (labeled_world [majority_only] None)
        = Return [majority_only] w'
        /\ number_of_majority_examples majority_only
           <> number_of_minority_examples majority_only)
  /\ (number_of_majority_examples one_of_three = 2%Z
      /\ number_of_minority_examples one_of_three = 1%Z
      /\ exists c0 w',
           undersample_labeled_datasets None
             (labeled_world [one_of_three; other_ids] None)
           = Return [c0; other_ids] w'
           /\ get_instance_ids c0 = [1; 3]%Z
           /\ number_of_majority_examples other_ids = 2%Z).
Proof.
  split.
  - split; [reflexivity|]. split; [reflexivity|].
    eexists. split; [reflexivity|]. discriminate.
  - split; [reflexivity|]. split; [reflexivity|].
    eexists _, _. split; [vm_compute; reflexivity|]. split; reflexivity.
Qed.

Lemma unbalanced_same_examples : same_examples unbalanced unbalanced'.
Proof.
  split; [|split].
  - apply (bool_decide_unpack _). vm_compute. exact I.
  - reflexivity.
  - intros a b Ha Hb Hid. simpl in Ha, Hb.
    repeat (apply elem_of_cons in Ha as [->|Ha]);
      [ | | | | by apply elem_of_nil in Ha ];
      repeat (apply elem_of_cons in Hb as [->|Hb]);
      try (by apply elem_of_nil in Hb);
      first [ reflexivity | vm_compute in Hid; discriminate Hid ].
Defined.

(** C5 at a concrete input: two feature spaces with one minority and three
    majority examples each. *)
Lemma undersample_balances_copies_witness :
  labeled_datasets (self (labeled_world [unbalanced; unbalanced'] None))
    = [unbalanced; unbalanced']
  /\ (0 < number_of_minority_examples unbalanced
        < number_of_majority_examples unbalanced)%Z
  /\ NoDup (get_instance_ids unbalanced)
  /\ Forall (same_examples unbalanced) [unbalanced']
  /\ exists copies w' removed_ids,
       undersample_labeled_datasets None
         (labeled_world [unbalanced; unbalanced'] None) = Return copies w'
       /\ self w' = self (labeled_world [unbalanced; unbalanced'] None)
       /\ Z.of_nat (length removed_ids)
          = (number_of_majority_examples unbalanced
             - number_of_minority_examples unbalanced)%Z
       /\ NoDup removed_ids
       /\ Forall2 (undersampled removed_ids (number_of_minority_examples unbalanced))
            [unbalanced; unbalanced'] copies.
Proof.
  assert (Hm : (0 < number_of_minority_examples unbalanced
                  < number_of_majority_examples unbalanced)%Z)
    by (vm_compute; split; reflexivity).
  assert (Hnd : NoDup (get_instance_ids unbalanced))
    by (apply (bool_decide_unpack _); vm_compute; exact I).
  assert (Hrest : Forall (same_examples unbalanced) [unbalanced'])
    by (constructor; [exact unbalanced_same_examples | constructor]).
  split; [reflexivity|]. split; [exact Hm|]. split; [exact Hnd|].
  split; [exact Hrest|].
  exact (undersample_balances_copies
           (labeled_world [unbalanced; unbalanced'] None)
           unbalanced [unbalanced'] eq_refl Hm Hnd Hrest).
Defined.

(** C9 at a concrete input: a void strategy, a budget of 5 by batches of 2:
    three queries, at counters 0, 2 and 4. *)
Lemma active_learn_counts_batches_witness :
  (0 < 5)%Z /\ (0 < 2)%Z
  /\ labeled_datasets (self new_world) <> []
  /\ exists w' new,
       active_learn 3 void_strategy 5 2 false new_world = Return tt w'
       /\ console w' = console new_world ++ new
       /\ queries new = [2; 2; 2]%Z
       /\ counters new = [0; 2; 4]%Z.
Proof.
  assert (Hne : labeled_datasets (self new_world) <> []) by discriminate.
  split; [lia|]. split; [lia|]. split; [exact Hne|].
  apply (active_learn_counts_batches void_strategy 5 2 false new_world);
    [lia | lia | exact Hne | | vm_compute; lia].
  intros k w0 Hw0. exists None, w0. split; [reflexivity | exact Hw0].
Defined.

Lemma new_world_pool_ok : pool_ok (self new_world).
Proof.
  split; [reflexivity|]. split; [discriminate|]. split.
  - constructor; [|constructor]. apply (bool_decide_unpack _). vm_compute. exact I.
  - intros u u' Hu Hu'. simpl in Hu, Hu'.
    apply list_elem_of_singleton in Hu as ->.
    apply list_elem_of_singleton in Hu' as ->. reflexivity.
Defined.

(** C1 at a concrete input: a budget of 3 by batches of 2 on the pool of six:
    four examples are moved, the loop does not rebuild, the call ends with one
    rebuild. *)
Lemma active_learn_labels_budget_witness :
  (0 < 2)%Z
  /\ pool_ok (self new_world)
  /\ (ceil_div 3 2 * 2 <= pool_size (self new_world))%Z
  /\ selects take_first 2
  /\ exists w' before,
       active_learn 2 take_first 3 2 false new_world = Return tt w'
       /\ moved 4 (self new_world) (self w')
       /\ console w'
          = console new_world ++ before
            ++ rebuild_events (labeled_datasets (self w')) (params (self w'))
            ++ [Printed loop_completed]
       /\ rebuilds before = 0%nat
       /\ rebuilds (rebuild_events (labeled_datasets (self w')) (params (self w')))
          = 1%nat
       /\ models (self w')
          = Some (train_all (labeled_datasets (self w')) (params (self w'))).
Proof.
  assert (Hpool : (ceil_div 3 2 * 2 <= pool_size (self new_world))%Z)
    by (vm_compute; discriminate).
  assert (Hsel : selects take_first 2) by (apply take_first_selects; lia).
  split; [lia|]. split; [exact new_world_pool_ok|]. split; [exact Hpool|].
  split; [exact Hsel|].
  apply (active_learn_labels_budget take_first 3 2 false new_world);
    [lia | exact new_world_pool_ok | exact Hpool | exact Hsel | vm_compute; lia].
Defined.

Lemma two_spaces_lockstep : lockstep (self two_spaces_world).
Proof.
  split; [reflexivity|].
  split; intros di dj Hi Hj; simpl in Hi, Hj;
    repeat (apply elem_of_cons in Hi as [->|Hi]);
    try (by apply elem_of_nil in Hi);
    repeat (apply elem_of_cons in Hj as [->|Hj]);
    try (by apply elem_of_nil in Hj);
    reflexivity.
Defined.

(** C6 at a concrete input: two feature spaces over the pool of six, two
    identifiers labeled by hand, then a loop that labels four more. *)
Lemma lockstep_invariant_witness :
  lockstep (self two_spaces_world)
  /\ reachable two_spaces_world after_loop
  /\ get_instance_ids <$> labeled_datasets (self after_loop)
     = [[1; 2; 3; 4; 5; 6]; [1; 2; 3; 4; 5; 6]]%Z
  /\ (forall di dj,
        di ∈ labeled_datasets (self after_loop) ->
        dj ∈ labeled_datasets (self after_loop) ->
        id_set di = id_set dj)
  /\ (forall di dj,
        di ∈ unlabeled_datasets (self after_loop) ->
        dj ∈ unlabeled_datasets (self after_loop) ->
        id_set di = id_set dj).
Proof.
  assert (Hreach : reachable two_spaces_world after_loop).
  { eapply (reachable_step _ labeled_by_hand after_loop
              (Active_learn 2 take_first 3 2 true)).
    - eapply (reachable_step _ two_spaces_world labeled_by_hand
                (Label_instances_in_all_datasets [1; 2]%Z)).
      + apply reachable_start.
      + exact I.
      + reflexivity.
    - exact take_first_lockstep.
    - vm_compute. reflexivity. }
  split; [exact two_spaces_lockstep|]. split; [exact Hreach|].
  split; [vm_compute; reflexivity|].
  exact (lockstep_invariant two_spaces_world after_loop two_spaces_lockstep Hreach).
Defined.

End Examples.

(** ** The further properties at concrete inputs *)

Section MoreExamples.
#[local] Existing Instance toy_classifier.
#[local] Existing Instance cpython.
#[local] Existing Instance positive_minority.

(** X1 at concrete inputs: the empty list, and counts 1, 3, 2, whose maximum
    is at position 1 while the index returned is 0. *)
Lemma _arg_max_is_one_short_witness :
  _arg_max ([] : list Z) (fun x => x) = inl IndexError
  /\ exists j r,
       first_arg_max (fun x => x) [1; 3; 2]%Z j
       /\ _arg_max [1; 3; 2]%Z (fun x => x) = inr r
       /\ r = Nat.pred j
       /\ (first_arg_max (fun x => x) [1; 3; 2]%Z r <-> j = 0%nat)
       /\ ((2 <= length [1; 3; 2]%Z)%nat -> (r + 1 < length [1; 3; 2]%Z)%nat).
Proof.
  split.
  - exact (proj1 (_arg_max_is_one_short (fun x : Z => x) []) eq_refl).
  - apply (proj2 (_arg_max_is_one_short (fun x : Z => x) [1; 3; 2]%Z)).
    discriminate.
Defined.

(** X2 at a concrete input: three models voting -1, -1, +1. *)
Lemma cautious_predict_is_max_witness :
  models (self (voters [-1; -1; 1]%Z)) = Some ([(-1)%Z] :: [[(-1)%Z]; [1%Z]])
  /\ exists v,
       cautious_predict three_points (voters [-1; -1; 1]%Z)
       = Return v (voters [-1; -1; 1]%Z)
       /\ v ∈ predictions ([(-1)%Z] :: [[(-1)%Z]; [1%Z]]) three_points
       /\ (forall v', v' ∈ predictions ([(-1)%Z] :: [[(-1)%Z]; [1%Z]]) three_points ->
                      (v' <= v)%Z).
Proof.
  split; [reflexivity|].
  apply (proj2 (cautious_predict_is_max (voters [-1; -1; 1]%Z)
                  [(-1)%Z] [[(-1)%Z]; [1%Z]] three_points eq_refl)).
  discriminate.
Defined.

(** X3 at a concrete input: the same three votes, whose set CPython lists as
    +1, -1. *)
Lemma majority_predict_answers_a_vote_witness :
  models (self (voters [-1; -1; 1]%Z)) = Some ([(-1)%Z] :: [[(-1)%Z]; [1%Z]])
  /\ (forall v,
        v ∈ set_iter (predictions ([(-1)%Z] :: [[(-1)%Z]; [1%Z]]) three_points)
        <-> v ∈ predictions ([(-1)%Z] :: [[(-1)%Z]; [1%Z]]) three_points)
  /\ exists v,
       majority_predict three_points (voters [-1; -1; 1]%Z)
       = Return v (voters [-1; -1; 1]%Z)
       /\ v ∈ predictions ([(-1)%Z] :: [[(-1)%Z]; [1%Z]]) three_points
       /\ (forall v0,
             (forall v', v' ∈ predictions ([(-1)%Z] :: [[(-1)%Z]; [1%Z]]) three_points ->
                         v' = v0) -> v = v0).
Proof.
  assert (Hset : forall v,
            v ∈ set_iter (predictions ([(-1)%Z] :: [[(-1)%Z]; [1%Z]]) three_points)
            <-> v ∈ predictions ([(-1)%Z] :: [[(-1)%Z]; [1%Z]]) three_points).
  { intros v. change (v ∈ [1; -1]%Z <-> v ∈ [-1; -1; 1]%Z).
    rewrite !elem_of_cons, !elem_of_nil. tauto. }
  split; [reflexivity|]. split; [exact Hset|].
  apply (proj2 (majority_predict_answers_a_vote (voters [-1; -1; 1]%Z)
                  [(-1)%Z] [[(-1)%Z]; [1%Z]] three_points eq_refl Hset)).
  discriminate.
Defined.

(** X4 at a concrete input: one vote for +1 against two for -1. *)
Lemma majority_predict_is_cautious_on_binary_votes_witness :
  models (self (voters [-1; -1; 1]%Z)) = Some ([(-1)%Z] :: [[(-1)%Z]; [1%Z]])
  /\ three_points <> []
  /\ binary (predictions ([(-1)%Z] :: [[(-1)%Z]; [1%Z]]) three_points)
  /\ exists v,
       majority_predict (runtime := cpython) three_points (voters [-1; -1; 1]%Z)
       = Return v (voters [-1; -1; 1]%Z)
       /\ cautious_predict three_points (voters [-1; -1; 1]%Z)
          = Return v (voters [-1; -1; 1]%Z)
       /\ (v = 1%Z <-> 1%Z ∈ predictions ([(-1)%Z] :: [[(-1)%Z]; [1%Z]]) three_points)
       /\ (v = (-1)%Z
           <-> 1%Z ∉ predictions ([(-1)%Z] :: [[(-1)%Z]; [1%Z]]) three_points).
Proof.
  assert (Hne : three_points <> []) by discriminate.
  assert (Hbin : binary (predictions ([(-1)%Z] :: [[(-1)%Z]; [1%Z]]) three_points)).
  { change (binary [-1; -1; 1]%Z). unfold binary.
    repeat (constructor; [by (left + right)|]). constructor. }
  split; [reflexivity|]. split; [exact Hne|]. split; [exact Hbin|].
  exact (majority_predict_is_cautious_on_binary_votes (voters [-1; -1; 1]%Z)
           [(-1)%Z] [[(-1)%Z]; [1%Z]] three_points eq_refl Hne Hbin).
Defined.

(** X9 at a concrete input: a budget of 0 and the default query function,
    which is never called. *)
Lemma active_learn_with_no_budget_witness :
  (0 <= 0)%Z
  /\ labeled_datasets (self stale_world) <> []
  /\ active_learn 0 base_q_function 0 5 true stale_world
     = Return tt
         {| self := rebuilt (self stale_world);
            random := random stale_world;
            console := console stale_world
                       ++ rebuild_events (labeled_datasets (self stale_world))
                            (params (self stale_world))
                       ++ [Printed loop_completed] |}.
Proof.
  assert (HN : (0 <= 0)%Z) by lia.
  assert (Hne : labeled_datasets (self stale_world) <> []) by discriminate.
  split; [exact HN|]. split; [exact Hne|].
  exact (proj1 (active_learn_with_no_budget 0 base_q_function 0 5 true
                  stale_world HN) Hne).
Defined.

(** X10 at a concrete input: a budget of 1 by batches of 0, with the void
    strategy: a hundred iterations are not enough. *)
Lemma active_learn_never_ends_witness :
  (0 < 1)%Z /\ (0 <= 0)%Z
  /\ labeled_datasets (self stale_world) <> []
  /\ active_learn 100 void_strategy 1 0 true stale_world = OutOfFuel.
Proof.
  assert (HN : (0 < 1)%Z) by lia.
  assert (Hb : (0 <= 0)%Z) by lia.
  assert (Hne : labeled_datasets (self stale_world) <> []) by discriminate.
  split; [exact HN|]. split; [exact Hb|]. split; [exact Hne|].
  apply (active_learn_never_ends void_strategy 1 0 true stale_world HN Hb Hne).
  intros k w0 Hw0. exists None, w0. split; [reflexivity | exact Hw0].
Defined.

(** X12 at concrete inputs: no labeled partition; and [k = 3] on three
    majority examples. *)
Lemma undersample_labeled_datasets_guards_witness :
  undersample_labeled_datasets None (labeled_world [] None)
  = Raise (Exception "No labeled data has been provided!") (labeled_world [] None)
  /\ undersample_labeled_datasets (Some 3%Z) (labeled_world [unbalanced] None)
     = Return [unbalanced] (labeled_world [unbalanced] None).
Proof.
  split.
  - apply (proj1 (undersample_labeled_datasets_guards None (labeled_world [] None))).
    left. reflexivity.
  - apply (proj2 (undersample_labeled_datasets_guards (Some 3%Z)
                    (labeled_world [unbalanced] None))
             unbalanced [] 3%Z eq_refl); [discriminate | reflexivity | lia |].
    vm_compute. intros [_ H]. discriminate H.
Defined.

(** X13 at a concrete input: a learner just built, whose query function is
    the default one. *)
Lemma active_learn_propagates_strategy_error_witness :
  (0 < 1)%Z
  /\ active_learn 1 base_q_function 1 5 true new_world
     = Raise (Exception "no query function provided!")
         {| self := self new_world; random := random new_world;
            console := console new_world
                       ++ [Printed (labeled_out_of 0 1); Queried 5] |}.
Proof.
  assert (HN : (0 < 1)%Z) by lia.
  split; [exact HN|].
  exact (active_learn_propagates_strategy_error 0 base_q_function 1 5 true
           new_world _ _ HN eq_refl).
Defined.

(** X14 at concrete inputs: seven identifiers out of a pool of six, and
    none. *)
Lemma get_random_unlabeled_ids_out_of_range_witness :
  get_random_unlabeled_ids 7 new_world
  = Raise IndexError
      {| self := self new_world;
         random := drop (length (instances pool)) (random new_world);
         console := console new_world |}
  /\ get_random_unlabeled_ids 0 new_world = Return [] new_world.
Proof.
  split.
  - apply (proj2 (proj2 (get_random_unlabeled_ids_out_of_range 7 new_world)
                    pool [] eq_refl)).
    vm_compute. reflexivity.
  - apply (proj1 (proj2 (get_random_unlabeled_ids_out_of_range 0 new_world)
                    pool [] eq_refl)).
    lia.
Defined.

(** X17 at a concrete input: the pool of six examples in one feature
    space. *)
Lemma label_all_data_empties_the_pool_witness :
  pool_ok (self new_world)
  /\ exists w',
       label_all_data new_world = Return tt w'
       /\ Forall (fun u => instances u = []) (unlabeled_datasets (self w'))
       /\ Forall2 (fun ul l' => instances l' = instances ul.2 ++ instances ul.1)
            (zip (unlabeled_datasets (self new_world))
                 (labeled_datasets (self new_world)))
            (labeled_datasets (self w'))
       /\ models (self w') = models (self new_world)
       /\ random w' = random new_world /\ console w' = console new_world.
Proof.
  split; [exact new_world_pool_ok|].
  exact (proj2 (label_all_data_empties_the_pool new_world) new_world_pool_ok).
Defined.

(** X18 at a concrete input: one example of each class out of the pool of
    six. *)
Lemma pick_balanced_initial_training_set_picks_witness :
  (0 <= 1)%Z
  /\ (1 <= number_of_minority_examples pool)%Z
  /\ (1 <= number_of_majority_examples pool)%Z
  /\ exists minority_ids_to_label majority_ids_to_label w',
       pick_balanced_initial_training_set 1 new_world
       = Return (minority_ids_to_label ++ majority_ids_to_label) w'
       /\ Z.of_nat (length minority_ids_to_label) = 1%Z
       /\ Z.of_nat (length majority_ids_to_label) = 1%Z
       /\ minority_ids_to_label ⊆+ minority_ids pool
       /\ majority_ids_to_label ⊆+ majority_ids pool
       /\ self w'
          = move_to_labeled (minority_ids_to_label ++ majority_ids_to_label)
              (self new_world)
       /\ console w' = console new_world.
Proof.
  assert (Hk : (0 <= 1)%Z) by lia.
  assert (Hmin : (1 <= number_of_minority_examples pool)%Z)
    by (vm_compute; discriminate).
  assert (Hmaj : (1 <= number_of_majority_examples pool)%Z)
    by (vm_compute; discriminate).
  split; [exact Hk|]. split; [exact Hmin|]. split; [exact Hmaj|].
  exact (proj2 (pick_balanced_initial_training_set_picks 1 new_world)
           pool [] eq_refl Hk Hmin Hmaj).
Defined.

Lemma guessed_world_aligned : aligned (self guessed_world).
Proof.
  split; [reflexivity|].
  intros l l' Hl Hl'.
  change (l ∈ [guessed; guessed]) in Hl. change (l' ∈ [guessed; guessed]) in Hl'.
  rewrite !elem_of_cons, elem_of_nil in Hl, Hl'.
  by destruct Hl as [->|[->|[]]], Hl' as [->|[->|[]]].
Defined.

(** X19 at a concrete input: two feature spaces whose example 1 carries a
    guessed label; taking it back restores the true label. *)
Lemma unlabel_instances_restores_labels_witness :
  aligned (self guessed_world)
  /\ labeled_datasets (self guessed_world) <> []
  /\ exists w',
       unlabel_instances [1%Z] guessed_world = Return tt w'
       /\ random w' = random guessed_world /\ console w' = console guessed_world
       /\ models (self w') = models (self guessed_world)
       /\ labeled_datasets (self w')
          = (fun l => {| instances := filter (fun inst => id inst ∉ [1%Z])
                                        (instances l) |})
              <$> labeled_datasets (self guessed_world)
       /\ unlabeled_datasets (self w')
          = (fun ul =>
               {| instances :=
                    instances ul.1
                    ++ (restore_label
                          <$> filter (fun inst => id inst ∈ [1%Z])
                                (instances ul.2)) |})
              <$> zip (unlabeled_datasets (self guessed_world))
                      (labeled_datasets (self guessed_world)).
Proof.
  assert (Hne : labeled_datasets (self guessed_world) <> []) by discriminate.
  split; [exact guessed_world_aligned|]. split; [exact Hne|].
  exact (proj2 (unlabel_instances_restores_labels [1%Z] guessed_world)
           guessed_world_aligned Hne).
Defined.

(** X20 at a concrete input: two of the three majority examples removed, in
    two feature spaces. *)
Lemma undersample_labeled_datasets_explicit_k_witness :
  labeled_datasets (self (labeled_world [unbalanced; unbalanced'] None))
    = [unbalanced; unbalanced']
  /\ (0 < 2 < number_of_majority_examples unbalanced)%Z
  /\ NoDup (get_instance_ids unbalanced)
  /\ exists removed_ids w',
       undersample_labeled_datasets (Some 2%Z)
         (labeled_world [unbalanced; unbalanced'] None)
       = Return
           ({| instances := filter (fun inst => id inst ∉ removed_ids)
                              (instances unbalanced) |}
            :: ((fun d => {| instances := filter (fun inst => id inst ∉ removed_ids)
                                            (instances d) |}) <$> [unbalanced']))
           w'
       /\ self w' = self (labeled_world [unbalanced; unbalanced'] None)
       /\ console w'
          = console (labeled_world [unbalanced; unbalanced'] None)
            ++ [Printed (removing_majority_instances 2
                           (number_of_majority_examples unbalanced))]
       /\ Z.of_nat (length removed_ids) = 2%Z
       /\ NoDup removed_ids
       /\ removed_ids ⊆+ majority_ids unbalanced
       /\ length (instances unbalanced)
          = (length (filter (fun inst => id inst ∉ removed_ids)
                       (instances unbalanced))
             + Z.to_nat 2)%nat.
Proof.
  assert (Hk : (0 < 2 < number_of_majority_examples unbalanced)%Z)
    by (vm_compute; split; reflexivity).
  assert (Hnd : NoDup (get_instance_ids unbalanced))
    by (apply (bool_decide_unpack _); vm_compute; exact I).
  split; [reflexivity|]. split; [exact Hk|]. split; [exact Hnd|].
  exact (undersample_labeled_datasets_explicit_k 2
           (labeled_world [unbalanced; unbalanced'] None)
           unbalanced [unbalanced'] eq_refl Hk Hnd).
Defined.

(** X5 at a concrete input: a pair not yet cached, asked of the old model
    and then of another one. *)
Lemma _compute_cos_memoises_witness :
  exists v w1,
    _compute_cos old_model (example 1 1) (example 2 (-1)) stale_world = Return v w1
    /\ _compute_cos [1; -1]%Z (example 1 1) (example 2 (-1)) w1 = Return v w1
    /\ div_hash (self w1) !! (id (example 1 1), id (example 2 (-1))) = Some v
    /\ dist_hash (self w1) = dist_hash (self stale_world)
    /\ match div_hash (self stale_world) !! (id (example 1 1), id (example 2 (-1))) with
       | Some v0 => v = v0 /\ w1 = stale_world
       | None =>
           v = compute_cos_between_examples old_model
                 (inst_point (example 1 1)) (inst_point (example 2 (-1)))
           /\ console w1
              = console stale_world
                ++ [Cos_computed (id (example 1 1), id (example 2 (-1)))]
           /\ div_hash (self w1)
              = <[(id (example 1 1), id (example 2 (-1))) := v]>
                  (div_hash (self stale_world))
       end.
Proof.
  exact (_compute_cos_memoises old_model [1; -1]%Z (example 1 1) (example 2 (-1))
           stale_world).
Defined.

(** X6 at a concrete input: the diversity of example 1 against the two
    labeled examples. *)
Lemma _compute_div_fills_the_cache_witness :
  exists v w1,
    _compute_div old_model balanced (example 1 1) stale_world = Return v w1
    /\ v = cached_sum (div_hash (self w1)) (example 1 1) (instances balanced) 0%float
    /\ (forall y, y ∈ instances balanced ->
          exists c, div_hash (self w1) !! (id (example 1 1), id y) = Some c
                    /\ _compute_cos [1; -1]%Z (example 1 1) y w1 = Return c w1).
Proof.
  exact (_compute_div_fills_the_cache old_model [1; -1]%Z balanced (example 1 1)
           stale_world).
Defined.

(** X7 at a concrete input: the distance of example 1 to the two labeled
    examples, computed twice. *)
Lemma _get_dist_from_l_is_cached_witness :
  exists r w1 new,
    _get_dist_from_l old_model balanced (example 1 1) stale_world = Return r w1
    /\ _get_dist_from_l [1; -1]%Z balanced (example 1 1) w1 = Return r w1
    /\ div_hash (self w1) = div_hash (self stale_world)
    /\ console w1 = console stale_world ++ new
    /\ (forall key, (dist_calls key new <= 1)%nat)
    /\ (forall key, is_Some (dist_hash (self stale_world) !! key) ->
                    dist_calls key new = 0%nat)
    /\ r = cached_min (dist_hash (self w1)) (example 1 1) (instances balanced) None
    /\ self w1 = with_dist_hash (dist_hash (self w1)) (self stale_world)
    /\ (forall y, y ∈ instances balanced ->
          match dist_hash (self stale_world) !! (id (example 1 1), id y) with
          | Some d =>
              dist_hash (self w1) !! (id (example 1 1), id y) = Some d
              /\ dist_calls (id (example 1 1), id y) new = 0%nat
          | None =>
              dist_calls (id (example 1 1), id y) new = 1%nat
              /\ exists y', y' ∈ instances balanced /\ id y' = id y
                   /\ dist_hash (self w1) !! (id (example 1 1), id y)
                      = Some (compute_dist_between_examples old_model
                                (inst_point (example 1 1)) (inst_point y'))
          end)
    /\ (forall key,
          (forall y, y ∈ instances balanced -> key <> (id (example 1 1), id y)) ->
          dist_calls key new = 0%nat
          /\ dist_hash (self w1) !! key = dist_hash (self stale_world) !! key).
Proof.
  exact (_get_dist_from_l_is_cached old_model [1; -1]%Z balanced (example 1 1)
           stale_world).
Defined.

(** X8 at a concrete input: the same distance. *)
Lemma _get_dist_from_l_result_witness :
  exists r w1,
    _get_dist_from_l old_model balanced (example 1 1) stale_world = Return r w1
    /\ (instances balanced = [] -> r = None /\ w1 = stale_world)
    /\ (instances balanced <> [] ->
        exists d y,
          r = Some d
          /\ y ∈ instances balanced
          /\ dist_hash (self w1) !! (id (example 1 1), id y) = Some d
          /\ (PrimFloat.eqb d 0%float = true ->
              exists ys y', instances balanced = ys ++ [y']
                            /\ dist_hash (self w1) !! (id (example 1 1), id y')
                               = Some d)).
Proof.
  exact (_get_dist_from_l_result old_model balanced (example 1 1) stale_world).
Defined.

(** X11 at a concrete input: two feature spaces, an old model, and a
    classifier that refuses the second training set: the call raises with
    the model of the first feature space as the only one. *)
Lemma rebuild_models_failure_modes_witness :
  labeled_datasets (self second_space_degenerate) = [balanced; majority_only]
  /\ zip (labeled_datasets (self second_space_degenerate))
         (params (self second_space_degenerate))
     = [(balanced, default_parameter)] ++ (majority_only, default_parameter) :: []
  /\ Forall (fun dp => training_fails needs_both_classes dp = None)
       [(balanced, default_parameter)]
  /\ training_fails needs_both_classes (majority_only, default_parameter)
     = Some ValueError
  /\ exists w',
       rebuild_models_with needs_both_classes false second_space_degenerate
       = Raise ValueError w'
       /\ self w'
          = with_models (Some (model_for <$> [(balanced, default_parameter)]))
              (self second_space_degenerate)
       /\ (length (model_for <$> [(balanced, default_parameter)])
           < length (labeled_datasets (self second_space_degenerate)))%nat
       /\ console w'
          = console second_space_degenerate
            ++ [Printed (training_models_on (length (instances balanced)))]
            ++ ((fun dp : dataset * svm_parameter =>
                   Trained (length (instances dp.1)))
                <$> [(balanced, default_parameter)])
            ++ [Trained (length (instances (majority_only, default_parameter).1))].
Proof.
  assert (Hok : Forall (fun dp => training_fails needs_both_classes dp = None)
                  [(balanced, default_parameter)])
    by (constructor; [reflexivity | constructor]).
  assert (Hjob : training_fails needs_both_classes (majority_only, default_parameter)
                 = Some ValueError) by reflexivity.
  split; [reflexivity|]. split; [reflexivity|]. split; [exact Hok|].
  split; [exact Hjob|].
  exact (proj1 (proj2 (proj2 (proj2
           (rebuild_models_failure_modes needs_both_classes
              second_space_degenerate))))
           balanced [majority_only] [(balanced, default_parameter)]
           (majority_only, default_parameter) [] ValueError
           eq_refl eq_refl Hok Hjob).
Defined.

(** X15 at a concrete input: a learner just built over the pool, with a
    classifier that refuses an empty training set, and with one that
    accepts it. *)
Lemma new_learner_rebuilds_on_nothing_witness :
  [pool] <> []
  /\ needs_both_classes [] [] default_parameter = Some ValueError
  /\ (exists w',
        rebuild_models_with needs_both_classes false
          (world_of (__init__ [pool] None) []) = Raise ValueError w'
        /\ models (self w') = Some []
        /\ unlabeled_datasets (self w') = [pool])
  /\ (exists w',
        rebuild_models_with (fun _ _ _ => None) false
          (world_of (__init__ [pool] None) []) = Return tt w'
        /\ models (self w')
           = Some ((fun _ => svm_train [] [] default_parameter) <$> [pool])
        /\ unlabeled_datasets (self w') = [pool]
        /\ Forall (fun l => instances l = []) (labeled_datasets (self w'))).
Proof.
  assert (Hne : [pool] <> []) by discriminate.
  assert (Hte : needs_both_classes [] [] default_parameter = Some ValueError)
    by reflexivity.
  split; [exact Hne|]. split; [exact Hte|]. split.
  - exact (proj1 (proj2 (proj2
             (new_learner_rebuilds_on_nothing needs_both_classes [pool] None [])))
             Hne ValueError Hte).
  - exact (proj1 (proj2
             (new_learner_rebuilds_on_nothing (fun _ _ _ => None) [pool] None []))
             Hne eq_refl).
Defined.

(** X16 at a concrete input: identifiers 1 and 2 labeled in two feature
    spaces. *)
Lemma label_instances_conserves_examples_witness :
  exists w',
    label_instances_in_all_datasets [1; 2]%Z two_spaces_world = Return tt w'
    /\ random w' = random two_spaces_world
    /\ console w' = console two_spaces_world
    /\ models (self w') = models (self two_spaces_world)
    /\ length (unlabeled_datasets (self w'))
       = length (unlabeled_datasets (self two_spaces_world))
    /\ length (labeled_datasets (self w'))
       = length (labeled_datasets (self two_spaces_world))
    /\ (forall i u l,
          unlabeled_datasets (self two_spaces_world) !! i = Some u ->
          labeled_datasets (self two_spaces_world) !! i = Some l ->
          exists u' l',
            unlabeled_datasets (self w') !! i = Some u'
            /\ labeled_datasets (self w') !! i = Some l'
            /\ instances u' ++ instances l' ≡ₚ instances u ++ instances l
            /\ instances u' = filter (fun inst => id inst ∉ [1; 2]%Z) (instances u)
            /\ instances l `prefix_of` instances l'
            /\ ((forall inst, inst ∈ instances u -> id inst ∉ [1; 2]%Z) ->
                u' = u /\ l' = l))
    /\ (forall i, labeled_datasets (self two_spaces_world) !! i = None ->
          unlabeled_datasets (self w') !! i
          = unlabeled_datasets (self two_spaces_world) !! i)
    /\ (forall i, unlabeled_datasets (self two_spaces_world) !! i = None ->
          labeled_datasets (self w') !! i
          = labeled_datasets (self two_spaces_world) !! i).
Proof.
  exact (label_instances_conserves_examples [1; 2]%Z two_spaces_world).
Defined.

End MoreExamples.
